(** * RupeeRoute expense tracker: aggregation, reports and the AI gateway

    A shallow embedding of [src/App.tsx], [src/types.ts], [src/constants.ts]
    and [src/services/geminiService.ts].

    Conventions of the model.
    - A JavaScript [Date] is its time value: milliseconds since the epoch, a
      [Z].  The calendar fields are derived from it as ECMA-262 does
      ([Day], [TimeWithinDay], [MakeDay], ...).
    - The host time zone is a [TimeZone]: the offset from UTC at every
      instant and for every local time.  A number [tz] of minutes stands
      for the zone that is always [tz] minutes east of Greenwich (330 for
      India); [NewYork2024] is a zone with daylight saving.
    - An amount is a JavaScript number: an IEEE 754 binary64 value, the
      primitive [float] of the prover, with its rounding, its infinities,
      its two zeros and NaN.
    - [new Date()] reads the clock; the reading is the parameter [now] (or
      [today]) of the functions that take one, and the readings taken
      within one call are the same.
    - Strings are [string]; the comparison of two strings is
      [String.leb], which agrees with JavaScript's on ASCII text. *)

From Stdlib Require Import ZArith List String Ascii Bool Lia Floats.
From stdpp Require Import base option list sorting gmap strings pretty.

#[local] Open Scope string_scope.
#[local] Open Scope list_scope.
#[local] Open Scope Z_scope.

(* ===================================================================== *)
(** ** Calendar arithmetic (ECMA-262, 21.4.1) *)
(* ===================================================================== *)

Module Calendar.

Definition msPerDay : Z := 86400000.
Definition msPerMinute : Z := 60000.
Definition msPerHour : Z := 3600000.
Definition msPerSecond : Z := 1000.

(** A calendar day: [month] is 1..12 here; [getMonth] below subtracts 1. *)
Record civil := Civil { year : Z; month : Z; mday : Z }.

(** Position of a day inside its 400-year era (146097 days, starting on
    0000-03-01): year of era, month and day of month. *)
Definition civil_of_doe (doe : Z) : civil :=
  let yoe := (doe - doe / 1460 + doe / 36524 - doe / 146096) / 365 in
  let doy := doe - (365 * yoe + yoe / 4 - yoe / 100) in
  let mp := (5 * doy + 2) / 153 in
  let d := doy - (153 * mp + 2) / 5 + 1 in
  let m := if mp <? 10 then mp + 3 else mp - 9 in
  Civil yoe m d.

Definition doe_of_civil (yoe m d : Z) : Z :=
  let doy := (153 * (if 2 <? m then m - 3 else m + 9) + 2) / 5 + d - 1 in
  yoe * 365 + yoe / 4 - yoe / 100 + doy.

(** [civil_from_days z] is the proleptic Gregorian date of day number [z]
    (day 0 is 1970-01-01): YearFromTime, MonthFromTime and DateFromTime. *)
Definition civil_from_days (z : Z) : civil :=
  let z' := z + 719468 in
  let era := z' / 146097 in
  let c := civil_of_doe (z' mod 146097) in
  let y := year c + era * 400 in
  Civil (if month c <=? 2 then y + 1 else y) (month c) (mday c).

(** Day number of a year, a month 1..12 and a day of month (which may lie
    outside the month, as in MakeDay). *)
Definition days_from_civil (y m d : Z) : Z :=
  let y' := if m <=? 2 then y - 1 else y in
  let era := y' / 400 in
  era * 146097 + doe_of_civil (y' mod 400) m d - 719468.

Definition Day (t : Z) : Z := t / msPerDay.
Definition TimeWithinDay (t : Z) : Z := t mod msPerDay.
Definition WeekDay (t : Z) : Z := (Day t + 4) mod 7.

(** MakeDay(year, month, date) with [month] counted from 0 and allowed to
    be any integer. *)
Definition MakeDay (y m d : Z) : Z :=
  let ym := y + m / 12 in
  let mn := m mod 12 in
  days_from_civil ym (mn + 1) 1 + d - 1.

Definition MakeDate (day time : Z) : Z := day * msPerDay + time.

End Calendar.

(* ===================================================================== *)
(** ** The [Date] object of the host *)
(* ===================================================================== *)

Module JSDate.
Import Calendar.

(** The time zone of the host, in minutes east of Greenwich:
    [offsetAt t] is the offset in force at the instant [t]
    (LocalTZA(t, true)) and [offsetOfLocal l] the offset by which the local
    time value [l] is read (LocalTZA(l, false)); for a local time that a
    transition skips or repeats it is the offset before the transition. *)
Record TimeZone := mkTimeZone { offsetAt : Z → Z; offsetOfLocal : Z → Z }.

(** A host without daylight saving: one offset [tz] at all times. *)
Definition fixedOffset (tz : Z) : TimeZone := mkTimeZone (λ _, tz) (λ _, tz).
Coercion fixedOffset : Z >-> TimeZone.

(** LocalTime and UTC of ECMA-262. *)
Definition LocalTime (zone : TimeZone) (t : Z) : Z := t + offsetAt zone t * msPerMinute.
Definition UTC (zone : TimeZone) (l : Z) : Z := l - offsetOfLocal zone l * msPerMinute.

(** [now.getFullYear()], [now.getMonth()] (0..11), [now.getDate()] and
    [now.getDay()] (0 is Sunday) read the local calendar. *)
Definition getFullYear (tz : TimeZone) (t : Z) : Z :=
  year (civil_from_days (Day (LocalTime tz t))).
Definition getMonth (tz : TimeZone) (t : Z) : Z :=
  month (civil_from_days (Day (LocalTime tz t))) - 1.
Definition getDate (tz : TimeZone) (t : Z) : Z :=
  mday (civil_from_days (Day (LocalTime tz t))).
Definition getDay (tz : TimeZone) (t : Z) : Z := WeekDay (LocalTime tz t).

(** [new Date(year, month, date)]: local midnight of that day; a year
    0..99 stands for 1900..1999. *)
Definition Date_ymd (tz : TimeZone) (y m d : Z) : Z :=
  let yr := if (0 <=? y) && (y <=? 99) then 1900 + y else y in
  UTC tz (MakeDate (MakeDay yr m d) 0).

(** [d.setDate(dt)]: the day of the month is replaced in local time, the
    time within the day is kept; [dt] may lie outside the month. *)
Definition setDate (tz : TimeZone) (t dt : Z) : Z :=
  let l := LocalTime tz t in
  let c := civil_from_days (Day l) in
  UTC tz (MakeDate (MakeDay (year c) (month c - 1) dt) (TimeWithinDay l)).

(** Decimal digits, zero padded. *)
Definition digit (n : Z) : ascii := ascii_of_nat (48 + Z.to_nat (n mod 10)).
Definition pad2 (n : Z) : string := String (digit (n / 10)) (String (digit n) "").
Definition pad3 (n : Z) : string := String (digit (n / 100)) (pad2 n).
Definition pad4 (n : Z) : string := String (digit (n / 1000)) (pad3 n).
Definition pad6 (n : Z) : string :=
  String (digit (n / 100000)) (String (digit (n / 10000)) (pad4 n)).

(** The year of [toISOString]: four digits for 0..9999, otherwise a sign
    and six digits. *)
Definition isoYear (y : Z) : string :=
  if (0 <=? y) && (y <=? 9999) then pad4 y
  else if y <? 0 then String "-" (pad6 (- y)) else String "+" (pad6 y).

Definition isoDate (day : Z) : string :=
  let c := civil_from_days day in
  isoYear (year c) +:+ "-" +:+ pad2 (month c) +:+ "-" +:+ pad2 (mday c).

Definition isoTime (ms : Z) : string :=
  pad2 (ms / msPerHour) +:+ ":" +:+ pad2 (ms / msPerMinute mod 60) +:+ ":"
  +:+ pad2 (ms / msPerSecond mod 60) +:+ "." +:+ pad3 (ms mod 1000).

(** [d.toISOString()]: always in UTC. *)
Definition toISOString (t : Z) : string :=
  isoDate (Day t) +:+ "T" +:+ isoTime (TimeWithinDay t) +:+ "Z".

(** [s.split(sep)[0]]. *)
Fixpoint splitHead (sep : ascii) (s : string) : string :=
  match s with
  | EmptyString => ""
  | String c s' => if Ascii.eqb c sep then "" else String c (splitHead sep s')
  end.

(** Value of a decimal digit, [None] for any other character. *)
Definition digitVal (c : ascii) : option Z :=
  let n := Z.of_N (N_of_ascii c) in
  if (48 <=? n) && (n <=? 57) then Some (n - 48) else None.

Definition isLeap (y : Z) : bool :=
  (y mod 4 =? 0) && (negb (y mod 100 =? 0) || (y mod 400 =? 0)).

Definition daysInMonth (y m : Z) : Z :=
  if m =? 2 then (if isLeap y then 29 else 28)
  else if (m =? 4) || (m =? 6) || (m =? 9) || (m =? 11) then 30 else 31.

(** [new Date(s).getTime()] for a date-only string: the UTC midnight of a
    calendar day written YYYY-MM-DD, and [None] (NaN, an invalid date) for
    anything that is not such a day.  What a host makes of other strings
    is its own affair (V8 reads 2024-02-30 as the first of March, and
    accepts many other formats) and is not part of the model: the
    properties below that depend on the value read are stated for strings
    that name a calendar day ([validDates], or [Date_parse s = Some t]). *)
Definition Date_parse (s : string) : option Z :=
  match list_ascii_of_string s with
  | [y1; y2; y3; y4; sep1; m1; m2; sep2; d1; d2] =>
      a ← digitVal y1; b ← digitVal y2; c ← digitVal y3; d ← digitVal y4;
      e ← digitVal m1; f ← digitVal m2; g ← digitVal d1; h ← digitVal d2;
      let y := 1000 * a + 100 * b + 10 * c + d in
      let m := 10 * e + f in
      let dd := 10 * g + h in
      if Ascii.eqb sep1 "-" && Ascii.eqb sep2 "-"
         && (1 <=? m) && (m <=? 12) && (1 <=? dd) && (dd <=? daysInMonth y m)
      then Some (MakeDate (days_from_civil y m dd) 0) else None
  | _ => None
  end.

(** The regular expression [/^\d{4}-\d{2}-\d{2}$/]. *)
Definition isDigit (c : ascii) : bool := bool_decide (is_Some (digitVal c)).

Definition matchesDatePattern (s : string) : bool :=
  match list_ascii_of_string s with
  | [y1; y2; y3; y4; sep1; m1; m2; sep2; d1; d2] =>
      isDigit y1 && isDigit y2 && isDigit y3 && isDigit y4 && Ascii.eqb sep1 "-"
      && isDigit m1 && isDigit m2 && Ascii.eqb sep2 "-" && isDigit d1 && isDigit d2
  | _ => false
  end.

(** Names used by [toLocaleString] and [toLocaleDateString] in an English
    locale. *)
Definition monthLong (m : Z) : string :=
  nth (Z.to_nat m)
    ["January"; "February"; "March"; "April"; "May"; "June"; "July";
     "August"; "September"; "October"; "November"; "December"] "".

Definition weekdayShort (d : Z) : string :=
  nth (Z.to_nat d) ["Sun"; "Mon"; "Tue"; "Wed"; "Thu"; "Fri"; "Sat"] "".

End JSDate.

(** Helper to get formatted date string: [d.toISOString().split('T')[0]]. *)
Definition getFormattedDate (date : Z) : string :=
  JSDate.splitHead "T" (JSDate.toISOString date).

Import Calendar JSDate.

(* ===================================================================== *)
(** ** Data model ([types.ts], [constants.ts]) *)
(* ===================================================================== *)

Inductive Category :=
  Food | Transport | Shopping | Entertainment | Health | Utilities | Other.

Inductive PaymentMethod := Cash | UPI | Card.

Inductive SortOption := Latest | Amount.

#[global] Instance Category_eq_dec : EqDecision Category.
Proof. solve_decision. Defined.

#[global] Instance PaymentMethod_eq_dec : EqDecision PaymentMethod.
Proof. solve_decision. Defined.

(** The string each label is at run time. *)
Definition categoryLabel (c : Category) : string :=
  match c with
  | Food => "Food" | Transport => "Transport" | Shopping => "Shopping"
  | Entertainment => "Entertainment" | Health => "Health"
  | Utilities => "Utilities" | Other => "Other"
  end.

Definition paymentLabel (m : PaymentMethod) : string :=
  match m with Cash => "Cash" | UPI => "UPI" | Card => "Card" end.

Definition CATEGORIES : list Category :=
  [Food; Transport; Shopping; Entertainment; Health; Utilities; Other].

Definition PAYMENT_METHODS : list PaymentMethod := [UPI; Card; Cash].

Record Expense := mkExpense {
  id : string;
  date : string;
  category : Category;
  amount : float;
  description : string;
  paymentMethod : PaymentMethod
}.

(** [Partial<Expense>]: every field may be missing. *)
Record PartialExpense := mkPartial {
  p_id : option string;
  p_date : option string;
  p_category : option Category;
  p_amount : option float;
  p_description : option string;
  p_paymentMethod : option PaymentMethod
}.

(** [x || d] on a string and on a number: the empty string, the two
    zeros, NaN and [undefined] are falsy. *)
Definition truthy (s : string) : bool := negb (String.eqb s "").

Definition numberTruthy (x : float) : bool := negb (is_nan x || is_zero x).

Definition orString (x : option string) (d : string) : string :=
  match x with
  | Some s => if truthy s then s else d
  | None => d
  end.

Definition orNumber (x : option float) (d : float) : float :=
  match x with
  | Some n => if numberTruthy n then n else d
  | None => d
  end.

(** [expenseToSave as Expense]: the cast is not checked at run time; the
    model has a value for it when all six fields are there, as they are in
    what the form submits. *)
Definition asExpense (p : PartialExpense) : option Expense :=
  i ← p_id p; d ← p_date p; c ← p_category p; a ← p_amount p;
  s ← p_description p; m ← p_paymentMethod p;
  Some (mkExpense i d c a s m).

(* ===================================================================== *)
(** ** Arrays *)
(* ===================================================================== *)

Module JSArray.

(** [Array.prototype.sort] with a comparator is a stable sort.  It looks
    only at the sign of the number the comparator returns, which is what
    a comparator of the model gives ([None] for NaN); a NaN counts as 0.
    For a consistent comparator the result is the one stable arrangement,
    which insertion from the right computes. *)
Section Sort.
Context {A : Type} (comparefn : A → A → option Z).

Definition sortCompare (x y : A) : Z := default 0 (comparefn x y).

Fixpoint sortInsert (x : A) (l : list A) : list A :=
  match l with
  | [] => [x]
  | y :: l' => if sortCompare x y <=? 0 then x :: l else y :: sortInsert x l'
  end.

Definition sort (l : list A) : list A := foldr sortInsert [] l.
End Sort.

(** Arrays live in a store: [filter] allocates its result, [sort] works in
    place and returns the array it was given. *)
Section Store.
Context {A : Type}.

Definition ref := positive.
Definition M (R : Type) : Type := gmap positive (list A) → R * gmap positive (list A).

Definition ret {R} (r : R) : M R := λ σ, (r, σ).
Definition bind {R S} (m : M R) (k : R → M S) : M S :=
  λ σ, let '(r, σ') := m σ in k r σ'.

Definition read (a : ref) : M (list A) := λ σ, (default [] (σ !! a), σ).
Definition alloc (l : list A) : M ref :=
  λ σ, let a := fresh (dom σ) in (a, <[a := l]> σ).
Definition write (a : ref) (l : list A) : M unit := λ σ, (tt, <[a := l]> σ).

Definition filterM (p : A → bool) (a : ref) : M ref :=
  bind (read a) (λ l, alloc (List.filter p l)).
Definition sortM (comparefn : A → A → option Z) (a : ref) : M ref :=
  bind (read a) (λ l, bind (write a (sort comparefn l)) (λ _, ret a)).
End Store.

End JSArray.

Notation "x ←ᵃ m ; k" := (JSArray.bind m (λ x, k))
  (at level 100, m at next level, right associativity, only parsing).

(* ===================================================================== *)
(** ** The filter-and-sort pipeline ([filteredExpenses]) *)
(* ===================================================================== *)

(** [Category | 'All'] *)
Inductive CategoryFilter := All | Only (c : Category).

Definition matchesCategory (filterCategory : CategoryFilter) (e : Expense) : bool :=
  match filterCategory with
  | All => true
  | Only c => bool_decide (category e = c)
  end.

Definition matchesDate (filterDate : string) (e : Expense) : bool :=
  negb (truthy filterDate) || String.eqb (date e) filterDate.

(** [new Date(e.date).getTime()] *)
Definition getTime (e : Expense) : option Z := Date_parse (date e).

(** [b - a] on two JavaScript numbers, NaN when either is. *)
Definition minus (b a : option Z) : option Z :=
  x ← b; y ← a; Some (x - y).

Definition byDateDesc (a b : Expense) : option Z := minus (getTime b) (getTime a).
(** The sign of a number, [None] for NaN. *)
Definition numberSign (v : float) : option Z :=
  if is_nan v then None
  else Some (if (v <? 0)%float then -1 else if (0 <? v)%float then 1 else 0).

Definition byAmountDesc (a b : Expense) : option Z :=
  numberSign (amount b - amount a)%float.

Definition compareExpenses (sortOption : SortOption) (a b : Expense) : option Z :=
  match sortOption with
  | Amount => byAmountDesc a b
  | Latest => byDateDesc a b
  end.

Definition filteredExpenses (expenses : JSArray.ref) (filterCategory : CategoryFilter)
    (filterDate : string) (sortOption : SortOption) : JSArray.M JSArray.ref :=
  byCategory ←ᵃ JSArray.filterM (matchesCategory filterCategory) expenses;
  byDate ←ᵃ JSArray.filterM (matchesDate filterDate) byCategory;
  JSArray.sortM (compareExpenses sortOption) byDate.

(** The value [filteredExpenses] holds when [expenses] holds [L]. *)
Definition filteredView (L : list Expense) (filterCategory : CategoryFilter)
    (filterDate : string) (sortOption : SortOption) : list Expense :=
  JSArray.sort (compareExpenses sortOption)
    (List.filter (matchesDate filterDate)
       (List.filter (matchesCategory filterCategory) L)).

(* ===================================================================== *)
(** ** Category aggregation ([pieChartData], [pieData]) *)
(* ===================================================================== *)

(** [categoryTotals] is an object keyed by category.  None of the seven
    labels is an array index, so [Object.entries] lists the keys in the
    order of their first assignment: an association list. *)
Definition Totals := list (Category * float).

(** [categoryTotals[k]] *)
Fixpoint totalsGet (o : Totals) (k : Category) : option float :=
  match o with
  | [] => None
  | (k', v) :: o' => if decide (k' = k) then Some v else totalsGet o' k
  end.

(** [categoryTotals[k] = v]: an existing key keeps its place. *)
Fixpoint totalsSet (o : Totals) (k : Category) (v : float) : Totals :=
  match o with
  | [] => [(k, v)]
  | (k', v') :: o' =>
      if decide (k' = k) then (k, v) :: o' else (k', v') :: totalsSet o' k v
  end.

Definition addToTotals (categoryTotals : Totals) (e : Expense) : Totals :=
  totalsSet categoryTotals (category e)
    (orNumber (totalsGet categoryTotals (category e)) 0 + amount e)%float.

Definition categoryTotals (expenses : list Expense) : Totals :=
  fold_left addToTotals expenses [].

Record CategoryTotal := mkTotal { name : string; value : float }.

Definition pieChartData (filteredExpenses : list Expense) : list CategoryTotal :=
  map (λ '(k, v), mkTotal (categoryLabel k) v) (categoryTotals filteredExpenses).

(* ===================================================================== *)
(** ** Weekly trend ([weeklyTrendData]) *)
(* ===================================================================== *)

Record Bucket := mkBucket { b_name : string; b_date : string; b_amount : float }.

Definition last7Days (tz : TimeZone) (today : Z) : list Bucket :=
  rev (map (λ i,
              let d := setDate tz today (getDate tz today - i) in
              mkBucket (weekdayShort (getDay tz d)) (getFormattedDate d) 0)
           [0; 1; 2; 3; 4; 5; 6]).

(** [const day = last7Days.find(d => d.date === expense.date);
     if (day) day.amount += expense.amount] *)
Fixpoint addToDay (days : list Bucket) (expense : Expense) : list Bucket :=
  match days with
  | [] => []
  | d :: rest =>
      if String.eqb (b_date d) (date expense)
      then mkBucket (b_name d) (b_date d) (b_amount d + amount expense)%float :: rest
      else d :: addToDay rest expense
  end.

Definition weeklyTrendData (tz : TimeZone) (today : Z) (expenses : list Expense)
    : list Bucket :=
  fold_left addToDay expenses (last7Days tz today).

(* ===================================================================== *)
(** ** Period reports ([generateReport]) *)
(* ===================================================================== *)

Inductive Period := ThisWeek | LastWeek | ThisMonth | LastMonth.

(** [startDate] and [endDate] after the [switch]. *)
Definition reportDates (tz : TimeZone) (now : Z) (period : Period) : Z * Z :=
  match period with
  | ThisMonth => (Date_ymd tz (getFullYear tz now) (getMonth tz now) 1, now)
  | LastMonth =>
      (Date_ymd tz (getFullYear tz now) (getMonth tz now - 1) 1,
       Date_ymd tz (getFullYear tz now) (getMonth tz now) 0)
  | ThisWeek => (setDate tz now (getDate tz now - getDay tz now), now)
  | LastWeek =>
      let endDate := setDate tz now (getDate tz now - getDay tz now - 1) in
      (setDate tz endDate (getDate tz endDate - 6), endDate)
  end.

Definition reportTitle (tz : TimeZone) (now : Z) (period : Period) : string :=
  match period with
  | ThisMonth => "Report for " +:+ monthLong (getMonth tz now)
  | LastMonth =>
      "Report for "
      +:+ monthLong (getMonth tz (Date_ymd tz (getFullYear tz now) (getMonth tz now - 1) 1))
  | ThisWeek => "This Week Report"
  | LastWeek => "Last Week Report"
  end.

(** [startStr] and [endStr]. *)
Definition reportRange (tz : TimeZone) (now : Z) (period : Period) : string * string :=
  let '(startDate, endDate) := reportDates tz now period in
  (getFormattedDate startDate, getFormattedDate endDate).

(** [e.date >= startStr && e.date <= endStr] on strings. *)
Definition inRange (startStr endStr : string) (e : Expense) : bool :=
  negb (String.ltb (date e) startStr) && negb (String.ltb endStr (date e)).

Record Report := mkReport { title : string; expenses : JSArray.ref }.

Definition generateReport (tz : TimeZone) (now : Z) (period : Period)
    (expenses : JSArray.ref)
    : JSArray.M Report :=
  let '(startStr, endStr) := reportRange tz now period in
  matching ←ᵃ JSArray.filterM (inRange startStr endStr) expenses;
  sorted ←ᵃ JSArray.sortM byDateDesc matching;
  JSArray.ret (mkReport (reportTitle tz now period) sorted).

(** The expenses of the report when the list holds [L]. *)
Definition reportExpenses (tz : TimeZone) (now : Z) (period : Period) (L : list Expense)
    : list Expense :=
  let '(startStr, endStr) := reportRange tz now period in
  JSArray.sort byDateDesc (List.filter (inRange startStr endStr) L).

(* ===================================================================== *)
(** ** Saving and deleting ([handleSaveExpense], [handleDeleteExpense]) *)
(* ===================================================================== *)

Definition isSome_truthy (x : option string) : bool :=
  match x with Some s => truthy s | None => false end.

(** The state update of [handleSaveExpense], applied to the stored list
    [prev] at clock reading [now].  [None] stands for an edit whose record
    lacks a field (see [asExpense]). *)
Definition handleSaveExpense (now : Z) (expenseToSave : PartialExpense)
    (prev : list Expense) : option (list Expense) :=
  if isSome_truthy (p_id expenseToSave) then
    updatedExpense ← asExpense expenseToSave;
    Some (map (λ e, if String.eqb (id e) (id updatedExpense) then updatedExpense else e) prev)
  else
    let newExpense :=
      mkExpense (toISOString now)
        (orString (p_date expenseToSave) (getFormattedDate now))
        (default Other (p_category expenseToSave))
        (orNumber (p_amount expenseToSave) 0)
        (orString (p_description expenseToSave) "")
        (default UPI (p_paymentMethod expenseToSave)) in
    Some (newExpense :: prev).

Definition handleDeleteExpense (confirmed : bool) (id' : string) (prev : list Expense)
    : list Expense :=
  if confirmed then List.filter (λ e, negb (String.eqb (id e) id')) prev else prev.

(* ===================================================================== *)
(** ** The AI gateway ([services/geminiService.ts]) *)
(* ===================================================================== *)

Module Gemini.

(** How an [async] function settles: its promise is fulfilled with a value
    or rejected with the message of the [Error] thrown. *)
Inductive outcome (A : Type) :=
  | Fulfilled (a : A)
  | Rejected (message : string).
Arguments Fulfilled {A} a.
Arguments Rejected {A} message.

Definition andThen {A B} (m : outcome A) (k : A → outcome B) : outcome B :=
  match m with
  | Fulfilled a => k a
  | Rejected msg => Rejected msg
  end.

(** [try { body } catch (error) { handler }] *)
Definition tryCatch {A} (body : outcome A) (handler : string → outcome A) : outcome A :=
  match body with
  | Fulfilled a => Fulfilled a
  | Rejected msg => handler msg
  end.

Inductive Part :=
  | InlineData (mimeType data : string)
  | Text (text : string).

(** The object [JSON.parse] gives for the model's answer: a field is
    [None] when it is missing or is not of the type the schema asks for. *)
Record Extracted := mkExtracted {
  x_date : option string;
  x_category : option string;
  x_amount : option float;
  x_description : option string;
  x_paymentMethod : option string
}.

Definition join (sep : string) (l : list string) : string :=
  match l with
  | [] => ""
  | s :: l' => fold_left (λ acc x, acc +:+ sep +:+ x) l' s
  end.

Definition isSpace (c : ascii) : bool :=
  (Ascii.eqb c " ") || (Ascii.eqb c "009") || (Ascii.eqb c "010")
  || (Ascii.eqb c "011") || (Ascii.eqb c "012") || (Ascii.eqb c "013").

Fixpoint trimStart (l : list ascii) : list ascii :=
  match l with
  | c :: l' => if isSpace c then trimStart l' else l
  | [] => []
  end.

Definition trim (s : string) : string :=
  string_of_list_ascii (rev (trimStart (rev (trimStart (list_ascii_of_string s))))).

(** [l.includes(x)] for a list of labels, giving the member found. *)
Definition includes {A} (label : A → string) (l : list A) (x : option string) : option A :=
  s ← x; List.find (λ c, String.eqb (label c) s) l.

Definition dquote : string := String "034" "".
Definition newline : string := String "010" "".

Section Prompt.
(** [`${n}`] on a number: Number::toString of the host. *)
Variable Number_toString : float → string.

Definition formatExpense (e : Expense) : string :=
  "- " +:+ date e +:+ ": ₹" +:+ Number_toString (amount e) +:+ " on "
  +:+ categoryLabel (category e)
  +:+ " (" +:+ description e +:+ ") via " +:+ paymentLabel (paymentMethod e).

Definition tipsPrompt (expenses : list Expense) : string :=
  "You are a friendly and encouraging financial advisor for a user in India. "
  +:+ "Your goal is to provide actionable savings tips based on their recent expenses. "
  +:+ "The currency is Indian Rupees (₹). Analyze the following list of expenses: "
  +:+ join newline (map formatExpense expenses)
  +:+ " Based on this data, provide 3-5 concise, actionable, and personalized savings tips. "
  +:+ "Frame your suggestions positively. For example, instead of "
  +:+ dquote +:+ "You spend too much on food" +:+ dquote +:+ ", say "
  +:+ dquote +:+ "You could save a significant amount by exploring home-cooked meals." +:+ dquote
  +:+ ". If possible, estimate potential monthly savings for a suggestion. "
  +:+ "Start your response with a brief, encouraging summary. "
  +:+ "Format the tips as a bulleted list.".
End Prompt.

Definition extractionText (categories : list Category) : string :=
  "Analyze the attached image (which could be a bill, receipt, or screenshot of a "
  +:+ "transaction message) and extract the expense details. Identify the total amount, "
  +:+ "the date of the transaction, a brief description, the payment method used ("
  +:+ join ", " (map paymentLabel PAYMENT_METHODS)
  +:+ "), and categorize it into one of the following categories: "
  +:+ join ", " (map categoryLabel categories)
  +:+ ". If the date is not present, use today's date. If the payment method is not "
  +:+ "clear, default to 'UPI'. The currency is INR.".

Definition unavailableTips : string :=
  "Smart suggestions are currently unavailable. Please configure your Gemini API key.".
Definition addExpensesTips : string :=
  "No expenses recorded yet. Add some expenses to get personalized savings tips!".
Definition apologyTips : string :=
  "Sorry, I couldn't generate savings tips at the moment. Please try again later.".
Definition unavailableError : string :=
  "API_KEY environment variable not set. Smart features are not available.".
Definition analyzeError : string :=
  "Could not analyze the image. Please try again or enter the details manually.".

Section Service.
(** [process.env.API_KEY]. *)
Variable API_KEY : option string.
(** The awaited [ai.models.generateContent(...)] followed by [.text]:
    the text of the answer, or the error of a failed call. *)
Variable generateContent : list Part → outcome string.
(** [JSON.parse], which throws on text that is not JSON (and, here, on
    JSON that is not an object). *)
Variable JSON_parse : string → outcome Extracted.
(** Number::toString of the host, for the amounts in the prompt. *)
Variable Number_toString : float → string.

Definition getSavingTips (expenses : list Expense) : outcome string :=
  if negb (isSome_truthy API_KEY) then Fulfilled unavailableTips
  else if (length expenses =? 0)%nat then Fulfilled addExpensesTips
  else
    tryCatch (generateContent [Text (tipsPrompt Number_toString expenses)])
             (λ _, Fulfilled apologyTips).

Definition extractExpenseFromImage (now : Z) (mimeType data : string)
    (categories : list Category) : outcome PartialExpense :=
  if negb (isSome_truthy API_KEY) then Rejected unavailableError
  else
    tryCatch
      (andThen (generateContent [InlineData mimeType data; Text (extractionText categories)])
         (λ text,
            andThen (JSON_parse (trim text))
              (λ extractedData,
                 let category' :=
                   default Other (includes categoryLabel categories (x_category extractedData)) in
                 let paymentMethod' :=
                   default UPI (includes paymentLabel PAYMENT_METHODS
                                  (x_paymentMethod extractedData)) in
                 let date' :=
                   match x_date extractedData with
                   | Some d => if matchesDatePattern d then d else getFormattedDate now
                   | None => getFormattedDate now
                   end in
                 Fulfilled (mkPartial None (Some date') (Some category')
                              (x_amount extractedData) (x_description extractedData)
                              (Some paymentMethod')))))
      (λ _, Rejected analyzeError).
End Service.

End Gemini.

(* ===================================================================== *)
(** ** Vocabulary of the statements *)
(* ===================================================================== *)

(** Sum of the amounts of a list of expenses, added from the left in
    the order of the list, as [reduce((sum, e) => sum + e.amount, 0)] adds
    them.  In binary64 the order matters. *)
Definition sumFrom (acc : float) (l : list Expense) : float :=
  fold_left (λ sum e, (sum + amount e)%float) l acc.

Definition sumAmounts (l : list Expense) : float := sumFrom 0 l.

(** Sum of a list of numbers, from the left. *)
Definition sumNumbers (l : list float) : float :=
  fold_left (λ sum x, (sum + x)%float) l 0%float.

(** The value of a number that is zero or finite, as an integer: the
    value times 2^1074 (every finite binary64 value is a multiple of
    2^-1074). *)
Definition SFval (x : spec_float) : Z :=
  match x with
  | S754_finite s m e => cond_Zopp s (Zpos m * 2 ^ (e + 1074))
  | _ => 0
  end.

Definition SFfinite (x : spec_float) : bool :=
  match x with
  | S754_zero _ | S754_finite _ _ _ => true
  | _ => false
  end.

(** A finite number or an infinity of sign [s]: not zero, not NaN. *)
Definition signedAs (s : bool) (x : spec_float) : Prop :=
  match x with
  | S754_finite s' _ _ | S754_infinity s' => s' = s
  | _ => False
  end.

(** What a running total is: not NaN and not the negative zero. *)
Definition SFtotal (x : spec_float) : Prop :=
  match x with
  | S754_nan | S754_zero true => False
  | _ => True
  end.

Definition numberValue (x : float) : Z := SFval (Prim2SF x).
Definition numberTotal (x : float) : Prop := SFtotal (Prim2SF x).

(** [x] is the whole number [n]. *)
Definition isWhole (x : float) (n : Z) : Prop :=
  is_finite x = true ∧ numberValue x = n * 2 ^ 1074.

(** The amount of an expense in whole rupees, when it is a whole number. *)
Definition rupees (e : Expense) : Z := numberValue (amount e) / 2 ^ 1074.

(** An exact sum over a list. *)
Definition exactSum (w : Expense → Z) (l : list Expense) : Z :=
  foldr (λ e s, w e + s) 0 l.

(** Every amount is finite (not NaN, not an infinity). *)
Definition finiteAmounts (l : list Expense) : Prop :=
  Forall (λ e, is_finite (amount e) = true) l.

(** Every amount is a whole number of rupees, and the magnitudes add up
    to less than 2^53: all the sums of the program are then exact. *)
Definition wholeAmounts (l : list Expense) : Prop :=
  Forall (λ e, isWhole (amount e) (rupees e)) l
  ∧ exactSum (λ e, Z.abs (rupees e)) l < 2 ^ 53.

Definition inCategory (c : Category) (e : Expense) : bool := bool_decide (category e = c).
Definition onDate (d : string) (e : Expense) : bool := String.eqb (date e) d.

(** The distinct elements of a list, in the order of their first
    occurrence. *)
Fixpoint firstOccurrences (l : list Category) : list Category :=
  match l with
  | [] => []
  | c :: l' => c :: List.filter (λ c', negb (bool_decide (c' = c))) (firstOccurrences l')
  end.

(** What the two filters ask of an expense: the category chosen, unless
    it is 'All', and the date chosen, unless it is empty. *)
Definition wanted (filterCategory : CategoryFilter) (filterDate : string) (e : Expense)
    : Prop :=
  (filterCategory = All ∨ filterCategory = Only (category e))
  ∧ (filterDate = "" ∨ date e = filterDate).

#[global] Instance CategoryFilter_eq_dec : EqDecision CategoryFilter.
Proof. solve_decision. Defined.

#[global] Instance wanted_dec filterCategory filterDate e :
  Decision (wanted filterCategory filterDate e).
Proof. unfold wanted. apply _. Defined.

(** Every date of the list is a calendar day written YYYY-MM-DD. *)
Definition validDates (l : list Expense) : Prop :=
  Forall (λ e, is_Some (getTime e)) l.

(** [a] is dated on the day of [b] or later. *)
Definition notBefore (a b : Expense) : Prop :=
  ∃ ta tb, getTime a = Some ta ∧ getTime b = Some tb ∧ tb <= ta.

(** Time values whose UTC year is 0000..9999, the years [toISOString]
    writes with four digits. *)
Definition isoYearRange (t : Z) : Prop := -62167219200000 <= t < 253402300800000.

(* ===================================================================== *)
(** ** Sample data *)
(* ===================================================================== *)

Module Samples.

(** 2024-03-15T04:30:00.000Z, which is 10:00 on Friday 15 March 2024 in
    India (UTC+05:30). *)
Definition friday : Z := 1710477000000.
Definition IST : Z := 330.

Definition lunch : Expense := mkExpense "a" "2024-03-15" Food 250 "Lunch" UPI.
Definition metro : Expense := mkExpense "b" "2024-03-10" Transport 40 "Metro" Card.
Definition dinner : Expense := mkExpense "c" "2024-03-15" Food 600 "Dinner" Cash.
Definition rent : Expense := mkExpense "d" "2024-02-29" Utilities 600 "Rent" UPI.

Definition history : list Expense := [lunch; metro; dinner; rent].

Definition store : gmap positive (list Expense) := {[ 1%positive := history ]}.

(** What the form submits for a new expense, and for an edit of [metro]. *)
Definition newCoffee : PartialExpense :=
  mkPartial None (Some "2024-03-15") (Some Food) (Some 120%float) (Some "Coffee")
            (Some UPI).
Definition editMetro : PartialExpense :=
  mkPartial (Some "b") (Some "2024-03-11") (Some Transport) (Some 45%float)
            (Some "Metro card")
            (Some Card).
Definition metro' : Expense := mkExpense "b" "2024-03-11" Transport 45 "Metro card" Card.

(** A submission with no amount and no description. *)
Definition blank : PartialExpense :=
  mkPartial None (Some "2024-03-15") (Some Food) (Some 0%float) (Some "") (Some UPI).

(** Two expenses of the scenario of the aggregation. *)
Definition scenario : list Expense :=
  [mkExpense "1" "2024-01-01" Food 100 "x" UPI;
   mkExpense "2" "2024-01-01" Transport 50 "y" UPI].

(** A remote model that answers with a fixed text, one that fails, and a
    parser that knows two answers. *)
Definition answers (text : string) : list Gemini.Part → Gemini.outcome string :=
  λ _, Gemini.Fulfilled text.
Definition offline : list Gemini.Part → Gemini.outcome string :=
  λ _, Gemini.Rejected "503".
Definition groceries : Gemini.Extracted :=
  Gemini.mkExtracted (Some "15-01-2024") (Some "Groceries") (Some 300%float) (Some "Store")
                     (Some "Wallet").
Definition taxi : Gemini.Extracted :=
  Gemini.mkExtracted (Some "2024-03-14") (Some "Transport") (Some 180%float) (Some "Taxi")
                     (Some "Card").
Definition parser (text : string) : Gemini.outcome Gemini.Extracted :=
  if String.eqb text "groceries" then Gemini.Fulfilled groceries
  else if String.eqb text "taxi" then Gemini.Fulfilled taxi
  else Gemini.Rejected "SyntaxError".

End Samples.

(* ===================================================================== *)
(** ** The rest of the application *)
(* ===================================================================== *)

(** [getFormattedDate(date)] for a string: [new Date(date)] first; on an
    invalid date [toISOString] throws a RangeError, which is [None]. *)
Definition getFormattedDateOfString (date : string) : option string :=
  t ← Date_parse date; Some (getFormattedDate t).

(** The test of [totalMonthlyExpenses] and of [handleGenerateTips]: the
    date string is read as a UTC midnight, its month and year are taken in
    local time; against NaN the comparisons are false. *)
Definition inCurrentMonth (tz : TimeZone) (today : Z) (e : Expense) : bool :=
  match getTime e with
  | Some expenseDate =>
      (getMonth tz expenseDate =? getMonth tz today)
      && (getFullYear tz expenseDate =? getFullYear tz today)
  | None => false
  end.

(** [l.reduce((sum, e) => sum + e.amount, 0)] *)
Definition totalAmount (l : list Expense) : float :=
  fold_left (λ sum e, (sum + amount e)%float) l 0%float.

Definition totalMonthlyExpenses (tz : TimeZone) (today : Z) (expenses : list Expense)
    : float :=
  totalAmount (List.filter (inCurrentMonth tz today) expenses).

(** The state [handleGenerateTips] writes. *)
Record TipsState := mkTipsState {
  ts_tips : string;
  ts_isTipsLoading : bool;
  ts_isTipsModalOpen : bool
}.

(** [handleGenerateTips]: the spinner is switched on and the modal opened,
    then the answer is awaited; the two lines after the [await] run only
    if it does not throw. *)
Definition handleGenerateTips (API_KEY : option string)
    (generateContent : list Gemini.Part → Gemini.outcome string)
    (Number_toString : float → string)
    (tz : TimeZone) (today : Z) (expenses : list Expense) (st : TipsState) : TipsState :=
  let monthlyExpenses := List.filter (inCurrentMonth tz today) expenses in
  match Gemini.getSavingTips API_KEY generateContent Number_toString monthlyExpenses with
  | Gemini.Fulfilled result => mkTipsState result false true
  | Gemini.Rejected _ => mkTipsState (ts_tips st) true true
  end.

(** The state of the expense form and of the scan overlay. *)
Record ModalState := mkModalState {
  ms_currentExpense : option PartialExpense;
  ms_isExpenseModalOpen : bool;
  ms_isScanning : bool;
  ms_alerts : list string
}.

Definition openExpenseModal (expense : option PartialExpense) (st : ModalState) : ModalState :=
  mkModalState expense true (ms_isScanning st) (ms_alerts st).

Definition closeExpenseModal (st : ModalState) : ModalState :=
  mkModalState None false (ms_isScanning st) (ms_alerts st).

(** [reader.onloadend] of [handleImageUpload], once the file is read:
    [try { openExpenseModal(await extractExpenseFromImage(...)) }
     catch (error) { alert(error.message) } finally { setIsScanning(false) }]. *)
Definition onloadend (extraction : Gemini.outcome PartialExpense) (st : ModalState)
    : ModalState :=
  match extraction with
  | Gemini.Fulfilled extractedData =>
      let st' := openExpenseModal (Some extractedData) st in
      mkModalState (ms_currentExpense st') (ms_isExpenseModalOpen st') false (ms_alerts st')
  | Gemini.Rejected message =>
      mkModalState (ms_currentExpense st) (ms_isExpenseModalOpen st) false
                   (ms_alerts st ++ [message])
  end.

(** An expense handed to the form by the edit button of the table. *)
Definition ofExpense (e : Expense) : PartialExpense :=
  mkPartial (Some (id e)) (Some (date e)) (Some (category e)) (Some (amount e))
            (Some (description e)) (Some (paymentMethod e)).

(** The state of [ExpenseFormModal]; the amount is a number or [''],
    which is [None]. *)
Record FormData := mkFormData {
  f_date : string;
  f_category : Category;
  f_amount : option float;
  f_description : string;
  f_paymentMethod : PaymentMethod
}.

(** The initial [formData]; [CATEGORIES[0]] is the head of the list. *)
Definition initialFormData (now : Z) (initialData : option PartialExpense) : FormData :=
  mkFormData
    (orString (initialData ≫= p_date) (getFormattedDate now))
    (default (hd Other CATEGORIES) (initialData ≫= p_category))
    (match initialData ≫= p_amount with
     | Some a => if numberTruthy a then Some a else None
     | None => None
     end)
    (orString (initialData ≫= p_description) "")
    (default UPI (initialData ≫= p_paymentMethod)).

(** [{ ...initialData, ...formData, amount: Number(formData.amount) }];
    [Number('')] is 0. *)
Definition handleSubmit (initialData : option PartialExpense) (formData : FormData)
    : PartialExpense :=
  mkPartial (initialData ≫= p_id) (Some (f_date formData)) (Some (f_category formData))
            (Some (default 0%float (f_amount formData))) (Some (f_description formData))
            (Some (f_paymentMethod formData)).

(** *** What the browser checks before it fires [onSubmit]

    The form carries no [noValidate]: a click on its submit button runs
    the constraint validation of HTML, and [handleSubmit] is called only
    when every control is valid.  A controlled input shows the state
    after the value sanitization of its type: a date input holds a valid
    date string or nothing, a number input a valid floating-point number
    or nothing (so not NaN and not an infinity). *)

(** The digits of a list read as a decimal number. *)
Fixpoint digitsValue (l : list ascii) (acc : Z) : option Z :=
  match l with
  | [] => Some acc
  | c :: l' => d ← digitVal c; digitsValue l' (10 * acc + d)
  end.

(** A valid date string of HTML: a year of four or more digits that is
    not 0, a month and a day of that month. *)
Definition validDateString (s : string) : bool :=
  match rev (list_ascii_of_string s) with
  | d2 :: d1 :: sep2 :: m2 :: m1 :: sep1 :: yr =>
      match digitsValue (rev yr) 0, digitVal m1, digitVal m2, digitVal d1, digitVal d2 with
      | Some y, Some a, Some b, Some c, Some d =>
          (4 <=? length yr)%nat && (0 <? y)
          && Ascii.eqb sep1 "-" && Ascii.eqb sep2 "-"
          && (1 <=? 10 * a + b) && (10 * a + b <=? 12)
          && (1 <=? 10 * c + d) && (10 * c + d <=? daysInMonth y (10 * a + b))
      | _, _, _, _, _ => false
      end
  | _ => false
  end.

(** [min="0.01"]: the binary64 value nearest to 0.01. *)
Definition minAmount : float := 0x1.47ae147ae147bp-7.

Section Form.
(** The step test of the number input ([step="0.01"], counted from
    [min]); the standard leaves its arithmetic to the browser. *)
Variable stepMismatch : float → bool.

(** [required min="0.01" step="0.01"] on the amount. *)
Definition amountValid (amount : option float) : bool :=
  match amount with
  | Some a => is_finite a && negb (a <? minAmount)%float && negb (stepMismatch a)
  | None => false
  end.

(** [form.checkValidity()]: [required] on the date, the amount and the
    description; the two [select]s always hold one of their options. *)
Definition checkValidity (formData : FormData) : bool :=
  validDateString (f_date formData)
  && amountValid (f_amount formData)
  && truthy (f_description formData).

(** A click on the submit button, applied to the stored list [prev]:
    when the form is valid [handleSubmit] runs and, through [onSave],
    [handleSaveExpense]; otherwise the browser shows its message and
    nothing else happens. *)
Definition requestSubmit (now : Z) (initialData : option PartialExpense)
    (formData : FormData) (prev : list Expense) : option (list Expense) :=
  if checkValidity formData
  then handleSaveExpense now (handleSubmit initialData formData) prev
  else Some prev.
End Form.

(** [hooks/useLocalStorage.ts].  [localStorage] is a map from keys to
    strings; [JSON.stringify] and [JSON.parse] are parameters, a [parse]
    that throws being [None]. *)
Module LocalStorage.
Section Hook.
Context {T : Type} (stringify : T → string) (parse : string → option T).

(** [item ? JSON.parse(item) : initialValue] inside [try], with
    [catch { return initialValue }]. *)
Definition readItem (key : string) (initialValue : T) (ls : gmap string string) : T :=
  match ls !! key with
  | Some item => if truthy item then default initialValue (parse item) else initialValue
  | None => initialValue
  end.

(** [setValue]: the new value is computed from the value of this render,
    kept in memory, then written; [written] tells whether [setItem] went
    through (it throws when the quota is exceeded, and the error is only
    logged). *)
Definition setValue (key : string) (storedValue : T) (value : T + (T → T))
    (written : bool) (ls : gmap string string) : T * gmap string string :=
  let valueToStore := match value with inl v => v | inr f => f storedValue end in
  (valueToStore, if written then <[key := stringify valueToStore]> ls else ls).

(** The effect run once after the first render. *)
Definition mountEffect (key : string) (initialValue storedValue : T)
    (ls : gmap string string) : T :=
  let item := ls !! key in
  if bool_decide (item = Some (stringify storedValue)) then storedValue
  else match item with
       | Some s => if truthy s then default storedValue (parse s) else initialValue
       | None => initialValue
       end.

(** The value the hook holds once mounted. *)
Definition useLocalStorage (key : string) (initialValue : T) (ls : gmap string string) : T :=
  mountEffect key initialValue (readItem key initialValue ls) ls.
End Hook.
End LocalStorage.

(** [components/Charts.tsx]: the colour of the slice at [index]. *)
Definition PIE_CHART_COLORS : list string :=
  ["#3b82f6"; "#8b5cf6"; "#ec4899"; "#f97316"; "#10b981"; "#f59e0b"; "#64748b"].

Definition cellFill (index : nat) : string :=
  nth (index mod length PIE_CHART_COLORS) PIE_CHART_COLORS "".

(** [data.map((entry, index) => <Cell fill={...} />)] *)
Definition pieCells (data : list CategoryTotal) : list string :=
  imap (λ index _, cellFill index) data.

(** A date of the calendar, and a date read as the number YYYYMMDD. *)
Definition validCivil (c : civil) : Prop :=
  1 <= month c <= 12 ∧ 1 <= mday c <= daysInMonth (year c) (month c).
Definition dateKey (c : civil) : Z := 10000 * year c + 100 * month c + mday c.

(** A date of the years 0000..9999 as [toISOString] writes it. *)
Definition fmtDate (y m d : Z) : string := pad4 y +:+ "-" +:+ pad2 m +:+ "-" +:+ pad2 d.

(** Sample data for the hook: the theme, stored as JSON text. *)
Module ThemeSample.
Inductive Theme := Light | Dark.
Definition dquote : string := String "034" "".
Definition stringify (t : Theme) : string :=
  dquote +:+ (match t with Light => "light" | Dark => "dark" end) +:+ dquote.
Definition parse (s : string) : option Theme :=
  if String.eqb s (stringify Light) then Some Light
  else if String.eqb s (stringify Dark) then Some Dark else None.
(** [toggleTheme] as the state update it passes to the hook. *)
Definition toggleTheme (theme : Theme) : Theme :=
  match theme with Light => Dark | Dark => Light end.
End ThemeSample.

(** More sample data: a host in New York (UTC-05:00), an expense dated the
    first of March, a storage that holds the dark theme, the record read
    from the picture of a taxi receipt, and the states before a click. *)
Module MoreSamples.
Definition EST : Z := -300.
Definition shoes : Expense := mkExpense "e" "2024-03-01" Shopping 999 "Shoes" Card.
Definition themeStorage : gmap string string :=
  {[ "theme" := ThemeSample.stringify ThemeSample.Dark ]}.
Definition noTips : TipsState := mkTipsState "" false false.

(** New York in 2024: UTC-05:00, and UTC-04:00 from 10 March 07:00 UTC to
    3 November 06:00 UTC; a local time is read with the offset before the
    transition when the transition skips or repeats it. *)
Definition NewYork2024 : TimeZone :=
  mkTimeZone
    (λ t, if (1710054000000 <=? t) && (t <? 1730613600000) then -240 else -300)
    (λ l, if (1710039600000 <=? l) && (l <? 1730599200000) then -240 else -300).

(** 2024-03-12T23:30:00.000Z, 19:30 on Tuesday 12 March in New York, two
    days after the clocks went forward. *)
Definition tuesdayEvening : Z := 1710286200000.

Definition bagel : Expense := mkExpense "f" "2024-03-06" Food 5 "Bagel" Cash.
Definition subway : Expense := mkExpense "g" "2024-03-10" Transport 3 "Subway" Card.

(** Amounts with a fraction: 0.1, 0.2 and 250.5 as binary64 values. *)
Definition fractions : list Expense :=
  [mkExpense "1" "2024-01-01" Food 0x1.999999999999ap-4 "x" UPI;
   mkExpense "2" "2024-01-01" Transport 0x1.999999999999ap-3 "y" UPI;
   mkExpense "3" "2024-01-01" Food 250.5 "z" UPI].

(** Amounts that are not finite: the running total of the category goes
    through NaN. *)
Definition windfall : list Expense :=
  [mkExpense "1" "2024-01-01" Food infinity "x" UPI;
   mkExpense "2" "2024-01-01" Food neg_infinity "y" UPI;
   mkExpense "3" "2024-01-01" Food 5 "z" UPI].

(** What the form holds for a coffee, for a tea, and when it is blank. *)
Definition coffeeForm : FormData := mkFormData "2024-03-15" Food (Some 120%float) "Coffee" UPI.
Definition teaForm : FormData := mkFormData "2024-03-15" Food (Some 15%float) "Tea" Cash.
Definition blankForm : FormData := mkFormData "2024-03-15" Food None "" UPI.

(** A date ten thousand years ahead, which the date control accepts. *)
Definition farForm : FormData :=
  mkFormData "12024-03-15" Food (Some 120%float) "Coffee" UPI.

(** A browser that finds no step mismatch, and a host that writes every
    number as [n]. *)
Definition anyStep : float → bool := λ _, false.
Definition showNumber : float → string := λ _, "n".
End MoreSamples.

(* ===================================================================== *)
(** * Proofs *)
(* ===================================================================== *)

(** ** Binary64 arithmetic

    Facts of the specification of the primitive floats ([SpecFloat]) that
    the program relies on: the order of two finite numbers is the order of
    their values, a difference has the sign of that order, a sum of a
    running total and a finite number is a running total, and sums of
    whole numbers below 2^53 are exact. *)

Section BinaryFormat.

Lemma digits2_pos_bounds m :
  2 ^ (Zpos (digits2_pos m) - 1) <= Zpos m < 2 ^ Zpos (digits2_pos m).
Proof.
  induction m as [p IH|p IH|]; cbn [digits2_pos].
  - rewrite Pos2Z.inj_succ. change (Zpos p~1) with (2 * Zpos p + 1).
    replace (Z.succ (Zpos (digits2_pos p)) - 1) with (Z.succ (Zpos (digits2_pos p) - 1)) by lia.
    rewrite !Z.pow_succ_r by lia.
    revert IH. generalize (2 ^ (Zpos (digits2_pos p) - 1)) (2 ^ Zpos (digits2_pos p)). intros; lia.
  - rewrite Pos2Z.inj_succ. change (Zpos p~0) with (2 * Zpos p).
    replace (Z.succ (Zpos (digits2_pos p)) - 1) with (Z.succ (Zpos (digits2_pos p) - 1)) by lia.
    rewrite !Z.pow_succ_r by lia.
    revert IH. generalize (2 ^ (Zpos (digits2_pos p) - 1)) (2 ^ Zpos (digits2_pos p)). intros; lia.
  - cbn. lia.
Qed.

Lemma bounded_inv m e :
  bounded prec emax m e = true →
  -1074 <= e <= 971 ∧ Zpos (digits2_pos m) <= 53
  ∧ (-1074 < e → Zpos (digits2_pos m) = 53).
Proof.
  unfold bounded, canonical_mantissa, fexp, SpecFloat.emin, prec, emax.
  intros H. apply andb_prop in H as [H1 H2].
  apply Z.eqb_eq in H1. apply Z.leb_le in H2. lia.
Qed.

Lemma pow2_pos k : 0 <= k → 0 < 2 ^ k.
Proof. intros. apply Z.pow_pos_nonneg; lia. Qed.

Lemma finite_val_pos m e : -1074 <= e → 0 < Zpos m * 2 ^ (e + 1074).
Proof. intros. pose proof (pow2_pos (e + 1074)). nia. Qed.

Lemma canonical_lt m1 e1 m2 e2 :
  bounded prec emax m1 e1 = true → bounded prec emax m2 e2 = true → e1 < e2 →
  Zpos m1 * 2 ^ (e1 + 1074) < Zpos m2 * 2 ^ (e2 + 1074).
Proof.
  intros H1 H2 Hlt.
  apply bounded_inv in H1 as (He1 & Hd1 & _). apply bounded_inv in H2 as (He2 & _ & Hd2).
  specialize (Hd2 ltac:(lia)).
  pose proof (digits2_pos_bounds m1) as B1. pose proof (digits2_pos_bounds m2) as B2.
  rewrite Hd2 in B2.
  assert (Zpos m1 < 2 ^ 53).
  { eapply Z.lt_le_trans; [apply B1|]. apply Z.pow_le_mono_r; lia. }
  replace (e2 + 1074) with ((e2 - e1 - 1) + 1 + (e1 + 1074)) by lia.
  rewrite (Z.pow_add_r 2 (e2 - e1 - 1 + 1) (e1 + 1074)), (Z.pow_add_r 2 (e2 - e1 - 1) 1) by lia.
  pose proof (pow2_pos (e1 + 1074) ltac:(lia)). pose proof (pow2_pos (e2 - e1 - 1) ltac:(lia)).
  revert B2 H H0 H1. generalize (2 ^ (e1 + 1074)) (2 ^ (e2 - e1 - 1)). intros P Q B2 H H0 H1.
  change (2 ^ (53 - 1)) with 4503599627370496 in B2.
  change (2 ^ 53) with 9007199254740992 in *. change (2 ^ 1) with 2.
  assert (Zpos m1 < Zpos m2 * (Q * 2)) by nia.
  rewrite Z.mul_assoc. apply Z.mul_lt_mono_pos_r; lia.
Qed.

Lemma SFcompare_val x y :
  valid_binary x = true → valid_binary y = true →
  SFfinite x = true → SFfinite y = true →
  SFcompare x y = Some (SFval x ?= SFval y).
Proof.
  destruct x as [sx|sx| |sx mx ex], y as [sy|sy| |sy my ey]; try discriminate;
    cbn [valid_binary SFfinite SFcompare SFval]; intros Vx Vy _ _.
  - reflexivity.
  - pose proof (finite_val_pos my ey (proj1 (proj1 (bounded_inv _ _ Vy)))).
    destruct sy; cbn [cond_Zopp]; f_equal; symmetry;
      [apply Z.compare_gt_iff | apply Z.compare_lt_iff]; lia.
  - pose proof (finite_val_pos mx ex (proj1 (proj1 (bounded_inv _ _ Vx)))).
    destruct sx; cbn [cond_Zopp]; f_equal; symmetry;
      [apply Z.compare_lt_iff | apply Z.compare_gt_iff]; lia.
  - pose proof (finite_val_pos mx ex (proj1 (proj1 (bounded_inv _ _ Vx)))) as Px.
    pose proof (finite_val_pos my ey (proj1 (proj1 (bounded_inv _ _ Vy)))) as Py.
    assert (Hc : (match ex ?= ey with
                  | Lt => Lt | Gt => Gt | Eq => Pos.compare_cont Eq mx my end)
                 = (Zpos mx * 2 ^ (ex + 1074) ?= Zpos my * 2 ^ (ey + 1074))).
    { destruct (Z.compare_spec ex ey) as [E|L|G].
      - subst ey. change (Pos.compare_cont Eq mx my) with (Zpos mx ?= Zpos my).
        apply Zmult_compare_compat_r. lia.
      - symmetry. apply Z.compare_lt_iff. by apply canonical_lt.
      - symmetry. apply Z.compare_gt_iff. by apply canonical_lt. }
    f_equal. destruct sx, sy; cbn [cond_Zopp].
    + rewrite Z.compare_opp,
        (Z.compare_antisym (Zpos mx * 2 ^ (ex + 1074)) (Zpos my * 2 ^ (ey + 1074))), <- Hc.
      destruct (ex ?= ey); reflexivity.
    + symmetry. apply Z.compare_lt_iff. lia.
    + symmetry. apply Z.compare_gt_iff. lia.
    + exact Hc.
Qed.

End BinaryFormat.

Section Rounding.

Lemma iter_pos_iter {A} (f : A → A) p x : SpecFloat.iter_pos f p x = Pos.iter f x p.
Proof.
  revert x. induction p as [p IH|p IH|]; intros x; cbn [SpecFloat.iter_pos Pos.iter].
  - rewrite !IH, !Pos.iter_swap. reflexivity.
  - rewrite !IH. reflexivity.
  - reflexivity.
Qed.

Lemma shr_1_m r : shr_m (shr_1 r) = Z.quot2 (shr_m r).
Proof. destruct r as [[|[p|p|]|[p|p|]] r s]; reflexivity. Qed.

Lemma iter_quot2 m n : 0 <= m → Pos.iter Z.quot2 m n = m / 2 ^ Zpos n.
Proof.
  intros Hm. induction n as [|n IH] using Pos.peano_ind.
  - cbn [Pos.iter]. rewrite Zquot2_quot, Z.quot_div_nonneg by lia. reflexivity.
  - rewrite Pos.iter_succ, IH, Pos2Z.inj_succ, Z.pow_succ_r by lia.
    assert (0 <= m / 2 ^ Zpos n) by (apply Z.div_pos; [lia | apply Z.pow_pos_nonneg; lia]).
    rewrite Zquot2_quot, Z.quot_div_nonneg by lia.
    rewrite Z.div_div by (try apply Z.pow_pos_nonneg; lia).
    f_equal. lia.
Qed.

Lemma shr_m_iter r n :
  0 <= shr_m r → shr_m (SpecFloat.iter_pos shr_1 n r) = shr_m r / 2 ^ Zpos n.
Proof.
  intros H. rewrite iter_pos_iter.
  rewrite (Pos.iter_swap_gen _ _ shr_m shr_1 Z.quot2 shr_1_m).
  by apply iter_quot2.
Qed.

Lemma shr_record_of_loc_m m l : shr_m (shr_record_of_loc m l) = m.
Proof. destruct l as [|[]]; reflexivity. Qed.

(** Shifting a positive mantissa to its format exponent leaves it
    positive, when the exponent is not below the least one. *)
Lemma shr_fexp_pos p e l :
  -1074 <= e →
  0 < shr_m (fst (shr_fexp prec emax (Zpos p) e l))
  ∧ -1074 <= snd (shr_fexp prec emax (Zpos p) e l).
Proof.
  intros He. unfold shr_fexp, shr, fexp, SpecFloat.emin, prec, emax.
  cbn [Zdigits2].
  pose proof (digits2_pos_bounds p) as [B _].
  set (d := Zpos (digits2_pos p)) in *.
  assert (Hd : 0 < d) by (subst d; lia). clearbody d.
  destruct (Z.max (d + e - 53) (3 - 1024 - 53) - e) as [|n|n] eqn:En; cbn [fst snd].
  - rewrite shr_record_of_loc_m. lia.
  - rewrite shr_m_iter, shr_record_of_loc_m by (rewrite shr_record_of_loc_m; lia).
    split; [|lia].
    apply Z.div_str_pos. split; [apply Z.pow_pos_nonneg; lia|].
    etransitivity; [|exact B]. apply Z.pow_le_mono_r; lia.
  - rewrite shr_record_of_loc_m. lia.
Qed.

Lemma round_nearest_even_pos m l : 0 < m → 0 < round_nearest_even m l.
Proof.
  intros H. destruct l as [|[]]; cbn [round_nearest_even]; try lia.
  destruct (Z.even m); lia.
Qed.

Lemma binary_round_aux_signed s p e l :
  -1074 <= e → signedAs s (binary_round_aux prec emax s (Zpos p) e l).
Proof.
  intros He. unfold binary_round_aux.
  pose proof (shr_fexp_pos p e l He) as [H1 H2].
  destruct (shr_fexp prec emax (Zpos p) e l) as [mrs' e']. cbn [fst snd] in H1, H2.
  pose proof (round_nearest_even_pos (shr_m mrs') (loc_of_shr_record mrs') H1) as Hr.
  destruct (round_nearest_even (shr_m mrs') (loc_of_shr_record mrs')) as [|q|q];
    [lia| |lia].
  pose proof (shr_fexp_pos q e' loc_Exact H2) as [H3 _].
  destruct (shr_fexp prec emax (Zpos q) e' loc_Exact) as [mrs'' e''].
  cbn [fst] in H3. destruct (shr_m mrs'') as [|m|m]; [lia| |lia].
  destruct (e'' <=? emax - prec); reflexivity.
Qed.

Lemma shl_align_spec m e ez :
  ez <= e →
  Zpos (fst (shl_align m e ez)) = Zpos m * 2 ^ (e - ez)
  ∧ snd (shl_align m e ez) = ez.
Proof.
  intros H. unfold shl_align.
  destruct (ez - e) as [|d|d] eqn:E; cbn [fst snd]; [| lia |].
  - replace (e - ez) with 0 by lia. lia.
  - split; [|reflexivity]. replace (e - ez) with (Zpos d) by lia.
    rewrite (Pos.iter_swap_gen _ _ Zpos xO (Z.mul 2)) by reflexivity.
    change (Pos.iter (Z.mul 2) (Zpos m) d) with (Z.shiftl (Zpos m) (Zpos d)).
    by rewrite Z.shiftl_mul_pow2.
Qed.

Lemma binary_round_signed s m e :
  -1074 <= e → signedAs s (binary_round prec emax s m e).
Proof.
  intros He. unfold binary_round.
  set (fe := fexp prec emax (Zpos (digits2_pos m) + e)).
  assert (Hfe : -1074 <= fe)
    by (subst fe; unfold fexp, SpecFloat.emin, prec, emax; lia).
  assert (Hs : -1074 <= snd (shl_align m e fe)).
  { unfold shl_align. destruct (fe - e); cbn [snd]; lia. }
  destruct (shl_align m e fe) as [mz ez]. cbn [snd] in Hs.
  by apply binary_round_aux_signed.
Qed.

Lemma SFcompare_signed s x :
  signedAs s x → SFcompare x (S754_zero false) = Some (if s then Lt else Gt).
Proof. destruct x; cbn; try tauto; by intros ->. Qed.

(** The sign of a difference of two finite numbers is the order of the
    two numbers; the difference is never NaN. *)
Lemma SFsub_sign x y :
  valid_binary x = true → valid_binary y = true →
  SFfinite x = true → SFfinite y = true →
  SFcompare (SF64sub x y) (S754_zero false) = Some (SFval x ?= SFval y).
Proof.
  destruct x as [sx|sx| |sx mx ex], y as [sy|sy| |sy my ey]; try discriminate;
    cbn [valid_binary SFfinite]; intros Vx Vy _ _.
  - destruct sx, sy; reflexivity.
  - cbn [SF64sub SFsub SFcompare SFval].
    pose proof (finite_val_pos my ey (proj1 (proj1 (bounded_inv _ _ Vy)))).
    destruct sy; cbn [negb cond_Zopp]; f_equal; symmetry;
      [apply Z.compare_gt_iff | apply Z.compare_lt_iff]; lia.
  - cbn [SF64sub SFsub SFcompare SFval].
    pose proof (finite_val_pos mx ex (proj1 (proj1 (bounded_inv _ _ Vx)))).
    destruct sx; cbn [negb cond_Zopp]; f_equal; symmetry;
      [apply Z.compare_lt_iff | apply Z.compare_gt_iff]; lia.
  - pose proof (bounded_inv _ _ Vx) as (Hex & _). pose proof (bounded_inv _ _ Vy) as (Hey & _).
    unfold SF64sub, SFsub. set (ez := Z.min ex ey).
    assert (Hez : ez <= ex ∧ ez <= ey ∧ -1074 <= ez) by (subst ez; lia).
    clearbody ez.
    destruct (shl_align_spec mx ex ez ltac:(lia)) as [Ax _].
    destruct (shl_align_spec my ey ez ltac:(lia)) as [Ay _].
    set (D := cond_Zopp sx (Zpos (fst (shl_align mx ex ez)))
              - cond_Zopp sy (Zpos (fst (shl_align my ey ez)))).
    assert (HD : SFval (S754_finite sx mx ex) - SFval (S754_finite sy my ey)
                 = D * 2 ^ (ez + 1074)).
    { subst D. cbn [SFval]. rewrite Ax, Ay.
      replace (ex + 1074) with ((ex - ez) + (ez + 1074)) by lia.
      replace (ey + 1074) with ((ey - ez) + (ez + 1074)) by lia.
      rewrite (Z.pow_add_r 2 (ex - ez) (ez + 1074)), (Z.pow_add_r 2 (ey - ez) (ez + 1074))
        by lia.
      destruct sx, sy; cbn [cond_Zopp]; ring. }
    assert (HP : 0 < 2 ^ (ez + 1074)) by (apply Z.pow_pos_nonneg; lia).
    assert (HC : (SFval (S754_finite sx mx ex) ?= SFval (S754_finite sy my ey)) = (D ?= 0)).
    { revert HD HP. generalize (2 ^ (ez + 1074)).
      generalize (SFval (S754_finite sx mx ex)) (SFval (S754_finite sy my ey)).
      intros a b P HD HP.
      destruct (Z.compare_spec D 0) as [E|L|G];
        [apply Z.compare_eq_iff | apply Z.compare_lt_iff | apply Z.compare_gt_iff]; nia. }
    rewrite HC. unfold binary_normalize. destruct D as [|p|p].
    + reflexivity.
    + apply (SFcompare_signed false), binary_round_signed. lia.
    + apply (SFcompare_signed true), binary_round_signed. lia.
Qed.

End Rounding.

Section Addition.

Lemma signedAs_total s x : signedAs s x → SFtotal x.
Proof. destruct x; cbn; tauto. Qed.

Lemma SFadd_total x y :
  valid_binary x = true → valid_binary y = true →
  SFtotal x → SFfinite y = true → SFtotal (SF64add x y).
Proof.
  destruct x as [[]|sx| |sx mx ex], y as [sy|sy| |sy my ey]; try discriminate;
    cbn [SFtotal valid_binary]; try tauto; intros Vx Vy _ _; unfold SF64add, SFadd;
    try exact I.
  - destruct sy; exact I.
  - cbv zeta. unfold binary_normalize.
    pose proof (bounded_inv _ _ Vx) as (Hex & _). pose proof (bounded_inv _ _ Vy) as (Hey & _).
    assert (Hez : -1074 <= Z.min ex ey) by lia.
    destruct (cond_Zopp sx _ + cond_Zopp sy _) as [|p|p]; [exact I| |].
    + by apply (signedAs_total false), binary_round_signed.
    + by apply (signedAs_total true), binary_round_signed.
Qed.

(** ** Sums that are exact *)

Lemma digits2_pos_unique m k :
  2 ^ (k - 1) <= Zpos m < 2 ^ k → Zpos (digits2_pos m) = k.
Proof.
  intros [L U]. pose proof (digits2_pos_bounds m) as [L' U'].
  assert (0 < k).
  { destruct (Z.lt_trichotomy k 0) as [N|[->|P]]; [|cbn in U; lia|exact P].
    rewrite Z.pow_neg_r in U by lia. lia. }
  assert (k - 1 < Zpos (digits2_pos m)).
  { apply (Z.pow_lt_mono_r_iff 2); lia. }
  assert (Zpos (digits2_pos m) - 1 < k).
  { apply (Z.pow_lt_mono_r_iff 2); lia. }
  lia.
Qed.

Lemma iter_xO_spec q n : Zpos (Pos.iter xO q n) = Zpos q * 2 ^ Zpos n.
Proof.
  rewrite (Pos.iter_swap_gen _ _ Zpos xO (Z.mul 2)) by reflexivity.
  change (Pos.iter (Z.mul 2) (Zpos q) n) with (Z.shiftl (Zpos q) (Zpos n)).
  by rewrite Z.shiftl_mul_pow2.
Qed.

Lemma iter_shr_exact q n :
  SpecFloat.iter_pos shr_1 n (Build_shr_record (Zpos (Pos.iter xO q n)) false false)
  = Build_shr_record (Zpos q) false false.
Proof.
  rewrite iter_pos_iter. revert q.
  induction n as [|n IH] using Pos.peano_ind; intros q.
  - reflexivity.
  - rewrite Pos.iter_succ_r, (Pos.iter_succ _ _ xO q). cbn [shr_1 orb]. apply IH.
Qed.

(** A mantissa already at its format exponent is kept as it is. *)
Lemma binary_round_aux_fixed s m e :
  fexp prec emax (Zpos (digits2_pos m) + e) <= e → e <= 971 →
  binary_round_aux prec emax s (Zpos m) e loc_Exact = S754_finite s m e.
Proof.
  intros Hf He. unfold binary_round_aux.
  assert (E : shr_fexp prec emax (Zpos m) e loc_Exact
              = (Build_shr_record (Zpos m) false false, e)).
  { unfold shr_fexp, shr. cbn [Zdigits2 shr_record_of_loc].
    destruct (fexp prec emax (Zpos (digits2_pos m) + e) - e) eqn:En; [reflexivity|lia|reflexivity]. }
  rewrite E. cbn [shr_m loc_of_shr_record round_nearest_even]. rewrite E. cbn [shr_m].
  unfold emax, prec. destruct (Z.leb_spec e (1024 - 53)); [reflexivity|lia].
Qed.

(** Rounding is exact on a number that is whole and below 2^53. *)
Lemma binary_round_exact s m e N :
  -1074 <= e → Zpos m * 2 ^ (e + 1074) = N * 2 ^ 1074 → N < 2 ^ 53 →
  ∃ m' e', binary_round prec emax s m e = S754_finite s m' e'
           ∧ Zpos m' * 2 ^ (e' + 1074) = N * 2 ^ 1074.
Proof.
  intros He HN Hlt. unfold binary_round.
  pose proof (digits2_pos_bounds m) as [Bl Bu].
  set (d := Zpos (digits2_pos m)) in *.
  assert (Hd : 0 < d) by (subst d; lia).
  assert (Hde : d + e <= 53).
  { assert (2 ^ (d - 1 + (e + 1074)) < 2 ^ (53 + 1074)).
    { rewrite (Z.pow_add_r 2 (d - 1) (e + 1074)), (Z.pow_add_r 2 53 1074) by lia.
      apply Z.le_lt_trans with (Zpos m * 2 ^ (e + 1074)).
      - apply Z.mul_le_mono_nonneg_r; [apply Z.pow_nonneg; lia | exact Bl].
      - rewrite HN. apply Z.mul_lt_mono_pos_r; [apply Z.pow_pos_nonneg; lia | exact Hlt]. }
    apply Z.pow_lt_mono_r_iff in H; lia. }
  set (fe := fexp prec emax (d + e)).
  assert (Hfe : fe = Z.max (d + e - 53) (-1074))
    by (subst fe; unfold fexp, SpecFloat.emin, prec, emax; lia).
  destruct (Z.lt_trichotomy fe e) as [Hlt'|[Heq|Hgt]].
  - (* the mantissa is shifted left *)
    destruct (shl_align_spec m e fe ltac:(lia)) as [A1 A2].
    destruct (shl_align m e fe) as [mz ez]. cbn [fst snd] in A1, A2. subst ez.
    assert (Dz : Zpos (digits2_pos mz) = d + (e - fe)).
    { apply digits2_pos_unique. rewrite A1.
      replace (d + (e - fe) - 1) with ((d - 1) + (e - fe)) by lia.
      rewrite !Z.pow_add_r by lia.
      assert (0 < 2 ^ (e - fe)) by (apply Z.pow_pos_nonneg; lia).
      split; [apply Z.mul_le_mono_nonneg_r; lia | apply Z.mul_lt_mono_pos_r; lia]. }
    exists mz, fe. split.
    + apply binary_round_aux_fixed; [|lia].
      rewrite Dz. replace (d + (e - fe) + fe) with (d + e) by lia. fold fe. lia.
    + rewrite A1, <- HN, <- Z.mul_assoc, <- Z.pow_add_r by lia. do 2 f_equal. lia.
  - (* the mantissa is at its exponent already *)
    assert (A : shl_align m e fe = (m, e)).
    { unfold shl_align. replace (fe - e) with 0 by lia. reflexivity. }
    rewrite A. exists m, e. split; [|exact HN].
    apply binary_round_aux_fixed; [fold d; fold fe; lia | lia].
  - (* the mantissa is shifted right, by zero bits only *)
    assert (A : shl_align m e fe = (m, e)).
    { unfold shl_align. destruct (fe - e) eqn:En; try reflexivity. lia. }
    rewrite A. clear A.
    assert (He0 : e < 0) by lia.
    set (n := fe - e) in *.
    assert (Hn : 0 < n <= - e) by lia.
    (* m = N * 2^(-e), hence m = q * 2^n with q = N * 2^(-e-n) *)
    assert (Hm : Zpos m = N * 2 ^ (- e)).
    { replace 1074 with (- e + (e + 1074)) in HN at 2 by lia.
      rewrite (Z.pow_add_r 2 (- e) (e + 1074)), Z.mul_assoc in HN by lia.
      apply Z.mul_reg_r in HN; [exact HN|].
      apply Z.neq_sym, Z.lt_neq, Z.pow_pos_nonneg; lia. }
    assert (HNpos : 0 < N).
    { assert (0 < 2 ^ (- e)) by (apply Z.pow_pos_nonneg; lia). nia. }
    set (Q := N * 2 ^ (- e - n)).
    assert (HQ : 0 < Q).
    { subst Q. apply Z.mul_pos_pos; [exact HNpos | apply Z.pow_pos_nonneg; lia]. }
    assert (HmQ : Zpos m = Q * 2 ^ n).
    { subst Q. rewrite Hm, <- Z.mul_assoc, <- Z.pow_add_r by lia. do 2 f_equal. lia. }
    destruct n as [|pn|pn] eqn:En'; [lia| |lia].
    destruct Q as [|q|q] eqn:EQ; [lia| |lia].
    assert (Em : m = Pos.iter xO q pn).
    { apply Pos2Z.inj. rewrite iter_xO_spec. exact HmQ. }
    assert (Dq : Zpos (digits2_pos q) = d - Zpos pn).
    { apply digits2_pos_unique.
      assert (0 < 2 ^ Zpos pn) by (apply Z.pow_pos_nonneg; lia).
      assert (d - Zpos pn - 1 >= 0 ∨ d - Zpos pn - 1 < 0) as [C|C] by lia.
      - replace (d - 1) with ((d - Zpos pn - 1) + Zpos pn) in Bl by lia.
        replace d with ((d - Zpos pn) + Zpos pn) in Bu at 1 by lia.
        rewrite Z.pow_add_r in Bl, Bu by lia. rewrite HmQ in Bl, Bu.
        split; [apply Z.mul_le_mono_pos_r in Bl | apply Z.mul_lt_mono_pos_r in Bu]; lia.
      - exfalso. lia. }
    exists q, fe. split.
    + unfold binary_round_aux.
      assert (E1 : shr_fexp prec emax (Zpos m) e loc_Exact
                   = (Build_shr_record (Zpos q) false false, fe)).
      { unfold shr_fexp, shr. cbn [Zdigits2 shr_record_of_loc].
        fold d. fold fe. replace (fe - e) with (Zpos pn) by lia.
        rewrite Em, iter_shr_exact. f_equal. lia. }
      rewrite E1. cbn [shr_m loc_of_shr_record round_nearest_even].
      assert (E2 : shr_fexp prec emax (Zpos q) fe loc_Exact
                   = (Build_shr_record (Zpos q) false false, fe)).
      { unfold shr_fexp, shr. cbn [Zdigits2 shr_record_of_loc].
        rewrite Dq. replace (d - Zpos pn + fe) with (d + e) by lia. fold fe.
        replace (fe - fe) with 0 by lia. reflexivity. }
      rewrite E2. cbn [shr_m]. unfold emax, prec.
      destruct (Z.leb_spec fe (1024 - 53)); [reflexivity|lia].
    + rewrite <- HN, HmQ, <- Z.mul_assoc, <- Z.pow_add_r by lia. do 2 f_equal. lia.
Qed.

End Addition.

Section ExactSums.

Lemma SFadd_exact x y a b :
  valid_binary x = true → valid_binary y = true →
  SFfinite x = true → SFfinite y = true →
  SFval x = a * 2 ^ 1074 → SFval y = b * 2 ^ 1074 →
  - 2 ^ 53 < a + b < 2 ^ 53 →
  SFfinite (SF64add x y) = true ∧ SFval (SF64add x y) = (a + b) * 2 ^ 1074.
Proof.
  assert (P : 0 < 2 ^ 1074) by (by apply Z.pow_pos_nonneg).
  destruct x as [sx|sx| |sx mx ex], y as [sy|sy| |sy my ey]; try discriminate;
    cbn [valid_binary SFfinite]; intros Vx Vy _ _ Ha Hb Hab.
  - assert (a = 0 ∧ b = 0) as [-> ->] by (cbn [SFval] in Ha, Hb; nia).
    destruct sx, sy; split; reflexivity.
  - assert (a = 0) as -> by (cbn [SFval] in Ha; nia).
    split; [reflexivity|]. cbn [SF64add SFadd]. rewrite Hb. f_equal.
  - assert (b = 0) as -> by (cbn [SFval] in Hb; nia).
    split; [reflexivity|]. cbn [SF64add SFadd]. rewrite Ha. f_equal. lia.
  - pose proof (bounded_inv _ _ Vx) as (Hex & _). pose proof (bounded_inv _ _ Vy) as (Hey & _).
    unfold SF64add, SFadd. set (ez := Z.min ex ey).
    assert (Hez : ez <= ex ∧ ez <= ey ∧ -1074 <= ez) by (subst ez; lia).
    clearbody ez.
    destruct (shl_align_spec mx ex ez ltac:(lia)) as [Ax _].
    destruct (shl_align_spec my ey ez ltac:(lia)) as [Ay _].
    set (D := cond_Zopp sx (Zpos (fst (shl_align mx ex ez)))
              + cond_Zopp sy (Zpos (fst (shl_align my ey ez)))).
    assert (HD : D * 2 ^ (ez + 1074) = (a + b) * 2 ^ 1074).
    { rewrite Z.mul_add_distr_r, <- Ha, <- Hb. subst D. cbn [SFval]. rewrite Ax, Ay.
      replace (ex + 1074) with ((ex - ez) + (ez + 1074)) by lia.
      replace (ey + 1074) with ((ey - ez) + (ez + 1074)) by lia.
      rewrite (Z.pow_add_r 2 (ex - ez) (ez + 1074)), (Z.pow_add_r 2 (ey - ez) (ez + 1074))
        by lia.
      destruct sx, sy; cbn [cond_Zopp]; ring. }
    clearbody D. unfold binary_normalize. destruct D as [|p|p].
    + split; [reflexivity|]. cbn [SFval]. lia.
    + destruct (binary_round_exact false p ez (a + b) ltac:(lia) HD ltac:(lia))
        as (m' & e' & -> & Hv).
      split; [reflexivity|]. exact Hv.
    + destruct (binary_round_exact true p ez (- (a + b)) ltac:(lia)) as (m' & e' & -> & Hv);
        [lia | lia |].
      split; [reflexivity|]. cbn [SFval cond_Zopp]. lia.
Qed.

Lemma SFval_inj x y :
  valid_binary x = true → valid_binary y = true →
  SFfinite x = true → SFfinite y = true → SFtotal x → SFtotal y →
  SFval x = SFval y → x = y.
Proof.
  intros Vx Vy Fx Fy Tx Ty E.
  pose proof (SFcompare_val x y Vx Vy Fx Fy) as C.
  rewrite E, Z.compare_refl in C.
  destruct x as [[]|sx| |sx mx ex], y as [[]|sy| |sy my ey]; try discriminate;
    cbn [SFtotal] in Tx, Ty; try tauto.
  - cbn in C. destruct sy; discriminate.
  - cbn in C. destruct sx; discriminate.
  - cbn [SFcompare] in C.
    destruct sx, sy; try discriminate; destruct (Z.compare_spec ex ey); try discriminate;
      subst ey; f_equal; injection C as C;
      [apply CompOpp_iff in C; cbn in C|]; by apply Pos.compare_eq in C.
Qed.

End ExactSums.

Section Numbers.

Lemma SFcompare_refl x : x ≠ S754_nan → SFcompare x x = Some Eq.
Proof.
  destruct x as [s|s| |s m e]; intros H; try done; cbn.
  - by destruct s.
  - rewrite Z.compare_refl. change (Pos.compare_cont Eq m m) with (m ?= m)%positive.
    rewrite Pos.compare_refl. by destruct s.
Qed.

Lemma is_nan_spec x :
  is_nan x = match Prim2SF x with S754_nan => true | _ => false end.
Proof.
  unfold is_nan. rewrite FloatAxioms.eqb_spec. unfold SFeqb.
  destruct (Prim2SF x) as [s|s| |s m e] eqn:E; [| |reflexivity|];
    by rewrite SFcompare_refl.
Qed.

Lemma is_zero_spec x :
  is_zero x = match Prim2SF x with S754_zero _ => true | _ => false end.
Proof.
  unfold is_zero. rewrite FloatAxioms.eqb_spec. unfold SFeqb.
  change (Prim2SF zero) with (S754_zero false).
  destruct (Prim2SF x) as [s|s| |s m e]; cbn; try reflexivity; by destruct s.
Qed.

Lemma is_infinity_spec x :
  is_infinity x = match Prim2SF x with S754_infinity _ => true | _ => false end.
Proof.
  unfold is_infinity. rewrite FloatAxioms.eqb_spec, abs_spec. unfold SFeqb.
  change (Prim2SF infinity) with (S754_infinity false).
  destruct (Prim2SF x) as [s|s| |s m e]; reflexivity.
Qed.

Lemma is_finite_spec x : is_finite x = SFfinite (Prim2SF x).
Proof.
  unfold is_finite. rewrite is_nan_spec, is_infinity_spec.
  by destruct (Prim2SF x).
Qed.

Lemma leb_value x y :
  is_finite x = true → is_finite y = true →
  (x <=? y)%float = (numberValue x <=? numberValue y).
Proof.
  rewrite !is_finite_spec. intros Fx Fy.
  rewrite FloatAxioms.leb_spec. unfold SFleb, numberValue.
  rewrite SFcompare_val by (done || apply Prim2SF_valid).
  unfold Z.leb. by destruct (_ ?= _).
Qed.

Lemma ltb_value x y :
  is_finite x = true → is_finite y = true →
  (x <? y)%float = (numberValue x <? numberValue y).
Proof.
  rewrite !is_finite_spec. intros Fx Fy.
  rewrite FloatAxioms.ltb_spec. unfold SFltb, numberValue.
  rewrite SFcompare_val by (done || apply Prim2SF_valid).
  unfold Z.ltb. by destruct (_ ?= _).
Qed.

Lemma eqb_value x y :
  is_finite x = true → is_finite y = true →
  (x =? y)%float = (numberValue x =? numberValue y).
Proof.
  rewrite !is_finite_spec. intros Fx Fy.
  rewrite FloatAxioms.eqb_spec. unfold SFeqb, numberValue.
  rewrite SFcompare_val by (done || apply Prim2SF_valid).
  destruct (Z.compare_spec (SFval (Prim2SF x)) (SFval (Prim2SF y))) as [E|L|G];
    symmetry; [apply Z.eqb_eq | apply Z.eqb_neq | apply Z.eqb_neq]; lia.
Qed.

(** A finite number equals no infinity and no NaN. *)
Lemma eqb_not_finite x y :
  is_finite x = true → is_finite y = false → (x =? y)%float = false.
Proof.
  rewrite !is_finite_spec, FloatAxioms.eqb_spec. unfold SFeqb.
  destruct (Prim2SF x) as [sx|sx| |sx mx ex], (Prim2SF y) as [sy|sy| |sy my ey];
    try discriminate; intros _ _; cbn; try reflexivity; by destruct sy.
Qed.

Lemma SFcompare_zero_l v :
  SFcompare (S754_zero false) v = option_map CompOpp (SFcompare v (S754_zero false)).
Proof. destruct v as [s|s| |s m e]; cbn; try reflexivity; by destruct s. Qed.

(** [b - a] on two finite numbers has the sign of their order. *)
Lemma sub_sign a b :
  is_finite a = true → is_finite b = true →
  numberSign (b - a) = Some (Z.sgn (numberValue b - numberValue a)).
Proof.
  rewrite !is_finite_spec. intros Fa Fb.
  pose proof (SFsub_sign (Prim2SF b) (Prim2SF a) (Prim2SF_valid _) (Prim2SF_valid _) Fb Fa)
    as H.
  rewrite <- sub_spec in H. fold (numberValue a) (numberValue b) in H.
  unfold numberSign. rewrite is_nan_spec, !FloatAxioms.ltb_spec. unfold SFltb.
  change (Prim2SF 0) with (S754_zero false).
  rewrite SFcompare_zero_l, H.
  assert (N : Prim2SF (b - a) ≠ S754_nan) by (intros E; rewrite E in H; discriminate H).
  destruct (Prim2SF (b - a)); [| |done|]; cbn [option_map];
    destruct (Z.compare_spec (numberValue b) (numberValue a)); cbn [CompOpp]; f_equal; lia.
Qed.

Lemma numberTotal_zero : numberTotal 0.
Proof. exact I. Qed.

Lemma add_total x y :
  numberTotal x → is_finite y = true → numberTotal (x + y).
Proof.
  rewrite is_finite_spec. unfold numberTotal. rewrite add_spec.
  apply SFadd_total; apply Prim2SF_valid.
Qed.

(** [x || 0] is [x] on a running total. *)
Lemma numberTotal_or_zero x :
  numberTotal x → (if numberTruthy x then x else 0%float) = x.
Proof.
  unfold numberTotal, numberTruthy. rewrite is_nan_spec, is_zero_spec. intros H.
  destruct (Prim2SF x) as [[]|s| |s m e] eqn:E; cbn in H |- *; try done.
  apply Prim2SF_inj. by rewrite E.
Qed.

Lemma add_whole x y a b :
  isWhole x a → isWhole y b → - 2 ^ 53 < a + b < 2 ^ 53 → isWhole (x + y) (a + b).
Proof.
  unfold isWhole, numberValue. rewrite !is_finite_spec, add_spec.
  intros [Fx Hx] [Fy Hy] Hab.
  by apply SFadd_exact; try apply Prim2SF_valid.
Qed.

Lemma SFsub_as_add x y : SF64sub x y = SF64add x (SFopp y).
Proof.
  destruct x as [sx|sx| |sx mx ex], y as [sy|sy| |sy my ey]; try reflexivity;
    try (by destruct sx, sy); by destruct sy.
Qed.

Lemma valid_binary_opp y : valid_binary (SFopp y) = valid_binary y.
Proof. by destruct y. Qed.

(** A difference of whole numbers below 2^53 is exact. *)
Lemma sub_whole x y a b :
  isWhole x a → isWhole y b → - 2 ^ 53 < a - b < 2 ^ 53 → isWhole (x - y) (a - b).
Proof.
  unfold isWhole, numberValue. rewrite !is_finite_spec, sub_spec, SFsub_as_add.
  intros [Fx Hx] [Fy Hy] Hab.
  replace (a - b) with (a + - b) by lia.
  apply SFadd_exact; try apply Prim2SF_valid; try done; try lia.
  all: try (rewrite valid_binary_opp; apply Prim2SF_valid).
  all: try (by destruct (Prim2SF y)).
  all: destruct (Prim2SF y) as [s|s| |s m e]; cbn [SFopp SFval] in *; try lia;
    destruct s; cbn [negb cond_Zopp] in *; lia.
Qed.

Lemma sub_total x y :
  numberTotal x → is_finite y = true → numberTotal (x - y).
Proof.
  rewrite is_finite_spec. unfold numberTotal. rewrite sub_spec, SFsub_as_add.
  intros Tx Fy. apply SFadd_total; try apply Prim2SF_valid; try done.
  all: try (rewrite valid_binary_opp; apply Prim2SF_valid).
  all: by destruct (Prim2SF y).
Qed.

Lemma isWhole_inj x y n :
  numberTotal x → numberTotal y → isWhole x n → isWhole y n → x = y.
Proof.
  unfold isWhole, numberTotal, numberValue. rewrite !is_finite_spec.
  intros Tx Ty [Fx Hx] [Fy Hy].
  apply Prim2SF_inj, SFval_inj; try apply Prim2SF_valid; try done. congruence.
Qed.

Lemma isWhole_zero : isWhole 0 0.
Proof. split; reflexivity. Qed.

End Numbers.

(** ** Calendar facts *)

Section CalendarFacts.

Lemma civil_of_doe_bounds doe :
  0 <= doe < 146097 →
  0 <= year (civil_of_doe doe) <= 399
  ∧ 1 <= month (civil_of_doe doe) <= 12
  ∧ 1 <= mday (civil_of_doe doe) <= 31.
Proof.
  intros H. unfold civil_of_doe. cbn [year month mday].
  set (yoe := (doe - doe / 1460 + doe / 36524 - doe / 146096) / 365).
  set (doy := doe - (365 * yoe + yoe / 4 - yoe / 100)).
  assert (Hy : 0 <= yoe <= 399 ∧ 0 <= doy <= 365).
  { subst doy yoe. Z.div_mod_to_equations. lia. }
  destruct Hy as [Hy Hd].
  set (mp := (5 * doy + 2) / 153).
  assert (Hmp : 0 <= mp <= 11) by (subst mp; Z.div_mod_to_equations; lia).
  split; [exact Hy|]. split.
  - destruct (Z.ltb_spec mp 10); lia.
  - subst mp. Z.div_mod_to_equations. lia.
Qed.

Lemma doe_of_civil_of_doe doe :
  0 <= doe < 146097 →
  let c := civil_of_doe doe in doe_of_civil (year c) (month c) (mday c) = doe.
Proof.
  intros H. unfold civil_of_doe, doe_of_civil. cbn [year month mday].
  set (yoe := (doe - doe / 1460 + doe / 36524 - doe / 146096) / 365).
  set (doy := doe - (365 * yoe + yoe / 4 - yoe / 100)).
  assert (Hy : 0 <= yoe <= 399 ∧ 0 <= doy <= 365).
  { subst doy yoe. Z.div_mod_to_equations. lia. }
  set (mp := (5 * doy + 2) / 153).
  assert (Hmp : 0 <= mp <= 11) by (subst mp; Z.div_mod_to_equations; lia).
  assert (Hm : (if 2 <? (if mp <? 10 then mp + 3 else mp - 9)
                then (if mp <? 10 then mp + 3 else mp - 9) - 3
                else (if mp <? 10 then mp + 3 else mp - 9) + 9) = mp).
  { destruct (Z.ltb_spec mp 10).
    - destruct (Z.ltb_spec 2 (mp + 3)); lia.
    - destruct (Z.ltb_spec 2 (mp - 9)); lia. }
  rewrite Hm. subst doy. lia.
Qed.

(** The day number is recovered from the calendar date: the calendar is
    injective. *)
Lemma days_from_civil_from_days z :
  let c := civil_from_days z in days_from_civil (year c) (month c) (mday c) = z.
Proof.
  unfold civil_from_days, days_from_civil. cbn [year month mday].
  set (z' := z + 719468).
  assert (Hd : 0 <= z' mod 146097 < 146097) by (apply Z.mod_pos_bound; lia).
  pose proof (civil_of_doe_bounds _ Hd) as (Hy & Hm & _).
  pose proof (doe_of_civil_of_doe _ Hd) as Hr. cbn zeta in Hr.
  set (c := civil_of_doe (z' mod 146097)) in *.
  assert (Hy' : (if month c <=? 2
                 then (if month c <=? 2 then year c + z' / 146097 * 400 + 1
                       else year c + z' / 146097 * 400) - 1
                 else (if month c <=? 2 then year c + z' / 146097 * 400 + 1
                       else year c + z' / 146097 * 400))
                = year c + z' / 146097 * 400).
  { destruct (month c <=? 2); lia. }
  rewrite Hy'.
  replace ((year c + z' / 146097 * 400) / 400) with (z' / 146097)
    by (Z.div_mod_to_equations; lia).
  replace ((year c + z' / 146097 * 400) mod 400) with (year c)
    by (Z.div_mod_to_equations; lia).
  rewrite Hr. subst z'. Z.div_mod_to_equations. lia.
Qed.

Lemma civil_from_days_bounds z :
  1 <= month (civil_from_days z) <= 12 ∧ 1 <= mday (civil_from_days z) <= 31.
Proof.
  unfold civil_from_days. cbn [month mday].
  assert (Hd : 0 <= (z + 719468) mod 146097 < 146097) by (apply Z.mod_pos_bound; lia).
  pose proof (civil_of_doe_bounds _ Hd). tauto.
Qed.

Lemma civil_from_days_inj z1 z2 :
  civil_from_days z1 = civil_from_days z2 → z1 = z2.
Proof.
  intros H. rewrite <- (days_from_civil_from_days z1), <- (days_from_civil_from_days z2).
  cbn zeta. now rewrite H.
Qed.

(** The day of the month enters [days_from_civil] linearly. *)
Lemma days_from_civil_shift y m d d' :
  days_from_civil y m d' = days_from_civil y m d + (d' - d).
Proof. unfold days_from_civil, doe_of_civil. lia. Qed.

(** MakeDay on the year and month of a day [z] counts from the first of
    that month. *)
Lemma MakeDay_same_month z dt :
  let c := civil_from_days z in
  MakeDay (year c) (month c - 1) dt = z + (dt - mday c).
Proof.
  cbn zeta. unfold MakeDay.
  pose proof (civil_from_days_bounds z) as [Hm _].
  replace ((month (civil_from_days z) - 1) / 12) with 0
    by (Z.div_mod_to_equations; lia).
  replace ((month (civil_from_days z) - 1) mod 12 + 1) with (month (civil_from_days z))
    by (Z.div_mod_to_equations; lia).
  rewrite Z.add_0_r.
  rewrite (days_from_civil_shift _ _ (mday (civil_from_days z)) 1).
  pose proof (days_from_civil_from_days z) as Hr. cbn zeta in Hr. rewrite Hr. lia.
Qed.

(** [d.setDate(dt)] moves the time by whole days. *)
Lemma LocalTime_fixed (tz t : Z) : LocalTime tz t = t + tz * msPerMinute.
Proof. reflexivity. Qed.

Lemma UTC_fixed (tz l : Z) : UTC tz l = l - tz * msPerMinute.
Proof. reflexivity. Qed.

(** On a host without daylight saving [d.setDate(dt)] moves the time by
    whole days. *)
Lemma setDate_shift (tz : Z) t dt :
  setDate tz t dt = t + (dt - getDate tz t) * msPerDay.
Proof.
  unfold setDate, getDate, MakeDate. rewrite UTC_fixed.
  rewrite MakeDay_same_month. unfold Day, TimeWithinDay.
  pose proof (Z.div_mod (LocalTime tz t) msPerDay ltac:(discriminate)) as Hdm.
  rewrite LocalTime_fixed in *. lia.
Qed.

Lemma Day_shift t k : Day (t + k * msPerDay) = Day t + k.
Proof. unfold Day. apply Z.div_add. discriminate. Qed.

End CalendarFacts.

(** ** Formatting facts *)

Section FormatFacts.

Lemma append_String c s t : String c s +:+ t = String c (s +:+ t).
Proof. reflexivity. Qed.

Lemma append_Empty t : "" +:+ t = t.
Proof. reflexivity. Qed.

Ltac norm_append := repeat (rewrite append_String || rewrite append_Empty).
Ltac norm_append_in H := repeat (rewrite append_String in H || rewrite append_Empty in H).

Lemma digit_cases n :
  In (digit n) ["0"; "1"; "2"; "3"; "4"; "5"; "6"; "7"; "8"; "9"]%char.
Proof.
  unfold digit. pose proof (Z.mod_pos_bound n 10 ltac:(lia)) as Hb.
  assert (Hk : n mod 10 = 0 ∨ n mod 10 = 1 ∨ n mod 10 = 2 ∨ n mod 10 = 3
               ∨ n mod 10 = 4 ∨ n mod 10 = 5 ∨ n mod 10 = 6 ∨ n mod 10 = 7
               ∨ n mod 10 = 8 ∨ n mod 10 = 9) by lia.
  repeat (destruct Hk as [Hk | Hk]; [rewrite Hk; cbn; tauto |]).
  rewrite Hk; cbn; tauto.
Qed.

Lemma digitVal_digit n : digitVal (digit n) = Some (n mod 10).
Proof.
  unfold digit. pose proof (Z.mod_pos_bound n 10 ltac:(lia)) as Hb.
  assert (Hk : n mod 10 = 0 ∨ n mod 10 = 1 ∨ n mod 10 = 2 ∨ n mod 10 = 3
               ∨ n mod 10 = 4 ∨ n mod 10 = 5 ∨ n mod 10 = 6 ∨ n mod 10 = 7
               ∨ n mod 10 = 8 ∨ n mod 10 = 9) by lia.
  repeat (destruct Hk as [Hk | Hk]; [rewrite Hk; reflexivity |]).
  rewrite Hk; reflexivity.
Qed.

Lemma digit_inj a b : digit a = digit b → a mod 10 = b mod 10.
Proof.
  intros H. pose proof (digitVal_digit a) as Ha. rewrite H, digitVal_digit in Ha.
  congruence.
Qed.

Lemma isDigit_digit n : isDigit (digit n) = true.
Proof. unfold isDigit. rewrite digitVal_digit. reflexivity. Qed.

Lemma splitHead_digit n s :
  splitHead "T" (String (digit n) s) = String (digit n) (splitHead "T" s).
Proof.
  pose proof (digit_cases n) as H. cbn [In] in H.
  repeat (destruct H as [H | H]; [rewrite <- H; reflexivity |]).
  destruct H.
Qed.

Lemma splitHead_ne c s :
  Ascii.eqb c "T" = false → splitHead "T" (String c s) = String c (splitHead "T" s).
Proof. intros H. cbn [splitHead]. now rewrite H. Qed.

Lemma splitHead_sep s : splitHead "T" (String "T" s) = "".
Proof. reflexivity. Qed.

(** The date part of [toISOString] is what [getFormattedDate] keeps. *)
Lemma getFormattedDate_isoDate t : getFormattedDate t = isoDate (Day t).
Proof.
  unfold getFormattedDate, toISOString, isoDate, isoYear.
  destruct (_ && _); [| destruct (_ <? _)];
    unfold pad6, pad4, pad3, pad2; norm_append;
    repeat (rewrite splitHead_digit || rewrite splitHead_ne by reflexivity);
    rewrite splitHead_sep; reflexivity.
Qed.

(** A date in the years 0000..9999 is written with ten characters. *)
Lemma isoDate_four_digit z :
  0 <= year (civil_from_days z) <= 9999 →
  isoDate z = pad4 (year (civil_from_days z)) +:+ "-"
              +:+ pad2 (month (civil_from_days z)) +:+ "-"
              +:+ pad2 (mday (civil_from_days z)).
Proof.
  intros H. unfold isoDate, isoYear.
  destruct (Z.leb_spec 0 (year (civil_from_days z)));
    destruct (Z.leb_spec (year (civil_from_days z)) 9999); try lia.
  reflexivity.
Qed.

Lemma isoDate_matches z :
  0 <= year (civil_from_days z) <= 9999 → matchesDatePattern (isoDate z) = true.
Proof.
  intros H. rewrite isoDate_four_digit by exact H.
  unfold pad4, pad3, pad2, matchesDatePattern. norm_append.
  cbn [list_ascii_of_string].
  rewrite !isDigit_digit. reflexivity.
Qed.

Lemma isoDate_inj z1 z2 :
  0 <= year (civil_from_days z1) <= 9999 →
  0 <= year (civil_from_days z2) <= 9999 →
  isoDate z1 = isoDate z2 → z1 = z2.
Proof.
  intros H1 H2 E. rewrite !isoDate_four_digit in E by assumption.
  unfold pad4, pad3, pad2 in E. norm_append_in E.
  pose proof (civil_from_days_bounds z1) as [Hm1 Hd1].
  pose proof (civil_from_days_bounds z2) as [Hm2 Hd2].
  apply civil_from_days_inj.
  destruct (civil_from_days z1) as [y1 m1 d1], (civil_from_days z2) as [y2 m2 d2].
  cbn [year month mday] in *.
  injection E as E1 E2 E3 E4 E5 E6 E7 E8.
  apply digit_inj in E1, E2, E3, E4, E5, E6, E7, E8.
  f_equal; Z.div_mod_to_equations; lia.
Qed.

End FormatFacts.

Section YearRange.

(** January and February belong to the next year of the era. *)
Lemma civil_of_doe_last_year doe :
  0 <= doe < 146097 →
  (doe < 146037 → year (civil_of_doe doe) <= 398 ∨ 2 < month (civil_of_doe doe))
  ∧ (146037 <= doe → year (civil_of_doe doe) = 399 ∧ month (civil_of_doe doe) <= 2).
Proof.
  intros H. unfold civil_of_doe. cbn [year month].
  set (yoe := (doe - doe / 1460 + doe / 36524 - doe / 146096) / 365).
  set (doy := doe - (365 * yoe + yoe / 4 - yoe / 100)).
  assert (Hy : 0 <= yoe <= 399 ∧ 0 <= doy <= 365
               ∧ (146037 <= doe → yoe = 399) ∧ (doe < 146037 → yoe = 399 → doy < 306)).
  { subst doy yoe. Z.div_mod_to_equations. lia. }
  destruct Hy as (Hy & Hd & Hhi & Hlo).
  set (mp := (5 * doy + 2) / 153).
  assert (Hmp : 0 <= mp <= 11 ∧ (doy < 306 → mp < 10) ∧ (306 <= doy → 10 <= mp))
    by (subst mp; Z.div_mod_to_equations; lia).
  destruct Hmp as (Hmp & Hmp1 & Hmp2).
  split; intros Hdoe.
  - destruct (Z.eq_dec yoe 399) as [E|E]; [right | left; lia].
    specialize (Hlo Hdoe E). specialize (Hmp1 Hlo).
    destruct (Z.ltb_spec mp 10); lia.
  - specialize (Hhi Hdoe). split; [exact Hhi|].
    assert (306 <= doy) by (subst doy; rewrite Hhi; Z.div_mod_to_equations; lia).
    specialize (Hmp2 ltac:(assumption)).
    destruct (Z.ltb_spec mp 10); lia.
Qed.

Lemma year_of_day_range z :
  -719528 <= z < 2932897 → 0 <= year (civil_from_days z) <= 9999.
Proof.
  intros H. unfold civil_from_days. cbn [year month].
  assert (Hd : 0 <= (z + 719468) mod 146097 < 146097) by (apply Z.mod_pos_bound; lia).
  pose proof (civil_of_doe_bounds _ Hd) as (Hy & Hm & _).
  pose proof (civil_of_doe_last_year _ Hd) as [Hlo Hhi].
  set (c := civil_of_doe ((z + 719468) mod 146097)) in *.
  assert (He : -1 <= (z + 719468) / 146097 <= 24) by (Z.div_mod_to_equations; lia).
  destruct (Z.leb_spec (month c) 2) as [Hm2|Hm2].
  - destruct (Z.lt_ge_cases ((z + 719468) mod 146097) 146037) as [Hc|Hc].
    + specialize (Hlo Hc).
      assert (0 <= (z + 719468) / 146097) by (Z.div_mod_to_equations; lia). lia.
    + specialize (Hhi Hc).
      assert ((z + 719468) / 146097 <= 23) by (Z.div_mod_to_equations; lia). lia.
  - destruct (Z.lt_ge_cases ((z + 719468) mod 146097) 146037) as [Hc|Hc].
    + assert (0 <= (z + 719468) / 146097) by (Z.div_mod_to_equations; lia). lia.
    + specialize (Hhi Hc). lia.
Qed.

End YearRange.

(** ** Stable sorting *)

Section SortFacts.
Context {A : Type} (comparefn : A → A → option Z) (key : A → Z) (P : A → Prop).
(** On the elements at hand the comparator has the sign of
    [key b - key a]. *)
Hypothesis comparefn_key :
  ∀ a b, P a → P b → (JSArray.sortCompare comparefn a b <=? 0) = (key b <=? key a).

Lemma sort_cons x l :
  JSArray.sort comparefn (x :: l)
  = JSArray.sortInsert comparefn x (JSArray.sort comparefn l).
Proof. reflexivity. Qed.

Lemma sortInsert_perm x l : JSArray.sortInsert comparefn x l ≡ₚ x :: l.
Proof.
  induction l as [|y l IH]; cbn; [done|].
  destruct (_ <=? _); [done|]. rewrite IH. apply Permutation_swap.
Qed.

Lemma sort_perm l : JSArray.sort comparefn l ≡ₚ l.
Proof.
  induction l as [|x l IH]; [done|].
  rewrite sort_cons, sortInsert_perm. by rewrite IH.
Qed.

Lemma sort_Forall l : Forall P l → Forall P (JSArray.sort comparefn l).
Proof. intros H. by rewrite sort_perm. Qed.

Lemma sortInsert_sorted x l :
  P x → Forall P l →
  StronglySorted (λ a b, key b <= key a) l →
  StronglySorted (λ a b, key b <= key a) (JSArray.sortInsert comparefn x l).
Proof.
  intros Hx Hl Hs. induction Hs as [|y l Hs IH Hy]; cbn.
  - repeat constructor.
  - apply Forall_cons in Hl as [Py Hl].
    rewrite (comparefn_key x y Hx Py).
    destruct (Z.leb_spec (key y) (key x)) as [Hle|Hgt].
    + constructor; [by constructor|].
      constructor; [lia|]. eapply Forall_impl; [exact Hy|]. cbn. intros; lia.
    + constructor; [by apply IH|].
      rewrite sortInsert_perm. constructor; [lia | exact Hy].
Qed.

Lemma sort_sorted l :
  Forall P l → StronglySorted (λ a b, key b <= key a) (JSArray.sort comparefn l).
Proof.
  induction l as [|x l IH]; intros H; [constructor|].
  apply Forall_cons in H as [Hx Hl]. rewrite sort_cons.
  apply sortInsert_sorted; [done | by apply sort_Forall | by apply IH].
Qed.

(** Elements of equal key stay in the order they had. *)
Lemma sortInsert_stable k x l :
  P x → Forall P l →
  List.filter (λ a, key a =? k) (JSArray.sortInsert comparefn x l)
  = List.filter (λ a, key a =? k) (x :: l).
Proof.
  intros Hx Hl. induction l as [|y l IH]; cbn; [done|].
  apply Forall_cons in Hl as [Py Hl].
  rewrite (comparefn_key x y Hx Py).
  destruct (Z.leb_spec (key y) (key x)) as [Hle|Hgt]; [done|].
  cbn. rewrite (IH Hl). cbn.
  destruct (Z.eqb_spec (key y) k) as [Ey|Ey]; [|done].
  destruct (Z.eqb_spec (key x) k) as [Ex|Ex]; [lia | done].
Qed.

Lemma sort_stable k l :
  Forall P l →
  List.filter (λ a, key a =? k) (JSArray.sort comparefn l)
  = List.filter (λ a, key a =? k) l.
Proof.
  induction l as [|x l IH]; intros H; [done|].
  apply Forall_cons in H as [Hx Hl].
  rewrite sort_cons, sortInsert_stable by (done || by apply sort_Forall).
  cbn [List.filter]. by rewrite (IH Hl).
Qed.

(** A list that is already in order is left as it is. *)
Lemma sort_sorted_id l :
  Forall P l → StronglySorted (λ a b, key b <= key a) l →
  JSArray.sort comparefn l = l.
Proof.
  intros Hl Hs. induction Hs as [|x l Hs IH Hx]; [done|].
  apply Forall_cons in Hl as [Px Hl]. rewrite sort_cons, (IH Hl).
  destruct l as [|y l]; cbn; [done|].
  apply Forall_cons in Hl as [Py Hl]. apply Forall_cons in Hx as [Hxy _].
  rewrite (comparefn_key x y Px Py).
  destruct (Z.leb_spec (key y) (key x)); [done | lia].
Qed.

Lemma sort_idempotent l :
  Forall P l →
  JSArray.sort comparefn (JSArray.sort comparefn l) = JSArray.sort comparefn l.
Proof.
  intros H. apply sort_sorted_id; [by apply sort_Forall | by apply sort_sorted].
Qed.
End SortFacts.

(** ** The filter-and-sort pipeline *)

Section Pipeline.

Lemma StronglySorted_impl_Forall {A} (R R' : A → A → Prop) (P : A → Prop) l :
  (∀ a b, P a → P b → R a b → R' a b) →
  Forall P l → StronglySorted R l → StronglySorted R' l.
Proof.
  intros HR Hl Hs. induction Hs as [|x l Hs IH Hx]; [constructor|].
  apply Forall_cons in Hl as [Px Hl]. constructor; [by apply IH|].
  rewrite Forall_forall in Hx, Hl |- *. intros y Hy. apply HR; auto.
Qed.

Lemma filter_ext_Forall {A} (f g : A → bool) (P : A → Prop) l :
  (∀ a, P a → f a = g a) → Forall P l → List.filter f l = List.filter g l.
Proof.
  intros H Hl. induction Hl as [|x l Px Hl IH]; cbn; [done|].
  by rewrite (H x Px), IH.
Qed.

(** On finite amounts the comparator of mode [Amount] orders by value. *)
Lemma byAmountDesc_key (a b : Expense) :
  is_finite (amount a) = true → is_finite (amount b) = true →
  (JSArray.sortCompare (compareExpenses Amount) a b <=? 0)
  = (numberValue (amount b) <=? numberValue (amount a)).
Proof.
  intros Fa Fb. unfold JSArray.sortCompare, compareExpenses, byAmountDesc.
  rewrite (sub_sign _ _ Fa Fb). unfold default. cbn [from_option Datatypes.id].
  apply Bool.eq_iff_eq_true. rewrite !Z.leb_le, Z.sgn_nonpos. lia.
Qed.

Lemma byDateDesc_key (a b : Expense) :
  is_Some (getTime a) → is_Some (getTime b) →
  (JSArray.sortCompare byDateDesc a b <=? 0)
  = (default 0 (getTime b) <=? default 0 (getTime a)).
Proof.
  intros [ta Ha] [tb Hb]. unfold JSArray.sortCompare, byDateDesc, minus.
  rewrite Ha, Hb. cbn.
  destruct (Z.leb_spec (tb - ta) 0), (Z.leb_spec tb ta); lia.
Qed.

Lemma sorted_by_value_leb l :
  finiteAmounts l →
  StronglySorted (λ a b, numberValue (amount b) <= numberValue (amount a)) l →
  StronglySorted (λ a b, (amount b <=? amount a)%float = true) l.
Proof.
  apply StronglySorted_impl_Forall. intros a b Fa Fb H.
  rewrite leb_value by done. by apply Z.leb_le.
Qed.

Lemma filter_amount_key k l :
  finiteAmounts l → is_finite k = true →
  List.filter (λ e, (amount e =? k)%float) l
  = List.filter (λ e, numberValue (amount e) =? numberValue k) l.
Proof.
  intros Hl Hk. revert Hl. apply filter_ext_Forall. intros e He. by apply eqb_value.
Qed.

Lemma filter_amount_none k l :
  finiteAmounts l → is_finite k = false →
  List.filter (λ e, (amount e =? k)%float) l = [].
Proof.
  intros Hl Hk. induction Hl as [|e l He Hl IH]; cbn; [done|].
  by rewrite eqb_not_finite.
Qed.

(** The [Amount] order on a list of finite amounts. *)
Lemma sort_byAmountDesc_spec (L : list Expense) :
  finiteAmounts L →
  let byAmount := JSArray.sort (compareExpenses Amount) L in
  finiteAmounts byAmount
  ∧ StronglySorted (λ a b, (amount b <=? amount a)%float = true) byAmount
  ∧ (∀ k, List.filter (λ e, (amount e =? k)%float) byAmount
          = List.filter (λ e, (amount e =? k)%float) L)
  ∧ JSArray.sort (compareExpenses Amount) byAmount = byAmount.
Proof.
  intros HL byAmount. subst byAmount.
  assert (HS : finiteAmounts (JSArray.sort (compareExpenses Amount) L))
    by (by apply (sort_Forall (compareExpenses Amount))).
  split; [exact HS|]. split; [|split].
  - apply sorted_by_value_leb; [exact HS|].
    by apply (sort_sorted _ _ _ byAmountDesc_key).
  - intros k. destruct (is_finite k) eqn:Fk.
    + rewrite !filter_amount_key by done.
      by apply (sort_stable _ _ _ byAmountDesc_key).
    + by rewrite !filter_amount_none.
  - by apply (sort_idempotent _ _ _ byAmountDesc_key).
Qed.

Lemma sorted_by_time_notBefore l :
  validDates l →
  StronglySorted (λ a b, default 0 (getTime b) <= default 0 (getTime a)) l →
  StronglySorted notBefore l.
Proof.
  apply StronglySorted_impl_Forall. intros a b [ta Ha] [tb Hb] H.
  exists ta, tb. rewrite Ha, Hb in H. done.
Qed.

Lemma filter_time_key t l :
  validDates l →
  List.filter (λ e, bool_decide (getTime e = Some t)) l
  = List.filter (λ e, default 0 (getTime e) =? t) l.
Proof.
  apply filter_ext_Forall. intros e [te He]. rewrite He. cbn.
  destruct (Z.eqb_spec te t) as [->|Hne].
  - by rewrite bool_decide_eq_true_2.
  - rewrite bool_decide_eq_false_2; [done | congruence].
Qed.

(** The [Latest] order on a list of calendar days. *)
Lemma sort_byDateDesc_spec (L : list Expense) :
  validDates L →
  let byDate := JSArray.sort byDateDesc L in
  byDate ≡ₚ L
  ∧ validDates byDate
  ∧ StronglySorted notBefore byDate
  ∧ (∀ t, List.filter (λ e, bool_decide (getTime e = Some t)) byDate
          = List.filter (λ e, bool_decide (getTime e = Some t)) L)
  ∧ JSArray.sort byDateDesc byDate = byDate.
Proof.
  intros HL byDate. subst byDate.
  assert (HS : validDates (JSArray.sort byDateDesc L))
    by (by apply (sort_Forall byDateDesc)).
  split; [apply sort_perm|]. split; [exact HS|]. split; [|split].
  - apply sorted_by_time_notBefore; [exact HS|].
    by apply (sort_sorted byDateDesc _ _ byDateDesc_key).
  - intros t. rewrite !filter_time_key by assumption.
    by apply (sort_stable byDateDesc _ _ byDateDesc_key).
  - by apply (sort_idempotent byDateDesc _ _ byDateDesc_key).
Qed.

(** C4.  The sort step of [filteredExpenses].  In mode [Latest] a list of
    calendar days comes out latest first, in mode [Amount] a list of
    finite amounts comes out largest amount first; in both modes the list
    is only rearranged and expenses that compare equal (same day, same
    amount) keep the order they had; sorting a second time changes
    nothing. *)
Theorem sort_descending_stable (L : list Expense) :
  let byDate := JSArray.sort (compareExpenses Latest) L in
  let byAmount := JSArray.sort (compareExpenses Amount) L in
  (validDates L →
     byDate ≡ₚ L
     ∧ StronglySorted notBefore byDate
     ∧ (∀ t, List.filter (λ e, bool_decide (getTime e = Some t)) byDate
             = List.filter (λ e, bool_decide (getTime e = Some t)) L)
     ∧ JSArray.sort (compareExpenses Latest) byDate = byDate)
  ∧ (byAmount ≡ₚ L
     ∧ (finiteAmounts L →
          StronglySorted (λ a b, (amount b <=? amount a)%float = true) byAmount
          ∧ (∀ k, List.filter (λ e, (amount e =? k)%float) byAmount
                  = List.filter (λ e, (amount e =? k)%float) L)
          ∧ JSArray.sort (compareExpenses Amount) byAmount = byAmount)).
Proof.
  intros byDate byAmount. split.
  - intros HL. destruct (sort_byDateDesc_spec L HL) as (H1 & _ & H2 & H3 & H4). done.
  - split; [apply sort_perm|]. intros HL.
    destruct (sort_byAmountDesc_spec L HL) as (_ & H2 & H3 & H4). done.
Qed.

Lemma filterM_run {A} (p : A → bool) (a : JSArray.ref) (σ : gmap positive (list A)) l :
  σ !! a = Some l →
  JSArray.filterM p a σ = (fresh (dom σ), <[fresh (dom σ) := List.filter p l]> σ).
Proof. intros H. unfold JSArray.filterM, JSArray.bind, JSArray.read, JSArray.alloc. by rewrite H. Qed.

Lemma sortM_run {A} (c : A → A → option Z) (a : JSArray.ref) (σ : gmap positive (list A)) l :
  σ !! a = Some l →
  JSArray.sortM c a σ = (a, <[a := JSArray.sort c l]> σ).
Proof.
  intros H. unfold JSArray.sortM, JSArray.bind, JSArray.read, JSArray.write, JSArray.ret.
  by rewrite H.
Qed.

Lemma fresh_not_in_store {A} (σ : gmap positive (list A)) a :
  a ∈ dom σ → a ≠ fresh (dom σ).
Proof. intros H ->. by apply (is_fresh (dom σ)). Qed.

(** A filter followed by a sort in place: the store afterwards. *)
Lemma filter_sort_run (p : Expense → bool) c (r : JSArray.ref)
    (σ : gmap positive (list Expense)) L :
  σ !! r = Some L →
  let r' := fresh (dom σ) in
  JSArray.bind (JSArray.filterM p r) (JSArray.sortM c) σ
  = (r', <[r' := JSArray.sort c (List.filter p L)]> σ).
Proof.
  intros H r'. unfold JSArray.bind at 1. rewrite (filterM_run _ _ _ _ H).
  rewrite (sortM_run _ _ _ (List.filter p L)) by apply lookup_insert_eq.
  by rewrite insert_insert_eq.
Qed.

Lemma filter_filter_andb {A} (f g : A → bool) l :
  List.filter g (List.filter f l) = List.filter (λ x, f x && g x) l.
Proof.
  induction l as [|x l IH]; cbn; [done|].
  destruct (f x); cbn; [destruct (g x)|]; by rewrite ?IH.
Qed.

Lemma filter_bool_prop {A} (f : A → bool) (P : A → Prop) `{∀ x, Decision (P x)} l :
  (∀ x, f x = true ↔ P x) → List.filter f l = filter P l.
Proof.
  intros Hf. induction l as [|x l IH]; [done|]. cbn [List.filter].
  rewrite filter_cons, IH. destruct (decide (P x)) as [Hx|Hx].
  - by rewrite (proj2 (Hf x) Hx).
  - destruct (f x) eqn:E; [|done]. by apply Hf in E.
Qed.

(** The two callbacks of the pipeline ask what the filters mean. *)
Lemma matches_wanted filterCategory filterDate e :
  matchesCategory filterCategory e && matchesDate filterDate e = true
  ↔ wanted filterCategory filterDate e.
Proof.
  unfold wanted, matchesCategory, matchesDate, truthy.
  rewrite andb_true_iff, orb_true_iff, negb_true_iff, negb_false_iff, !String.eqb_eq.
  destruct filterCategory as [|c].
  - intuition.
  - rewrite bool_decide_eq_true. intuition (try discriminate; congruence).
Qed.

(** C3.  Run on a store where [expenses] holds [L], the pipeline returns
    an array holding exactly the expenses of [L] of the category chosen
    (all of them for 'All') and of the date chosen (all of them for the
    empty date), each as often as in [L]; the array of [L] and every other
    array of the store are left as they were. *)
Theorem filteredExpenses_spec (σ : gmap positive (list Expense)) (r : JSArray.ref)
    (L : list Expense) (filterCategory : CategoryFilter) (filterDate : string)
    (sortOption : SortOption) :
  σ !! r = Some L →
  ∃ r' σ' res,
    filteredExpenses r filterCategory filterDate sortOption σ = (r', σ')
    ∧ σ' !! r = Some L
    ∧ (∀ a, a ∈ dom σ → σ' !! a = σ !! a)
    ∧ σ' !! r' = Some res
    ∧ res = filteredView L filterCategory filterDate sortOption
    ∧ res ≡ₚ filter (wanted filterCategory filterDate) L
    ∧ (∀ e, e ∈ res
            ↔ e ∈ L
              ∧ (filterCategory = All ∨ filterCategory = Only (category e))
              ∧ (filterDate = "" ∨ date e = filterDate))
    ∧ length res = length (filter (wanted filterCategory filterDate) L).
Proof.
  intros Hr.
  set (r1 := fresh (dom σ)).
  set (σ1 := <[r1 := List.filter (matchesCategory filterCategory) L]> σ).
  set (r2 := fresh (dom σ1)).
  set (res := filteredView L filterCategory filterDate sortOption).
  assert (Hr1 : r ≠ r1) by (apply fresh_not_in_store, elem_of_dom; eauto).
  assert (Hd1 : ∀ a, a ∈ dom σ → a ∈ dom σ1).
  { intros a Ha. subst σ1. rewrite dom_insert. set_solver. }
  assert (Hrun : filteredExpenses r filterCategory filterDate sortOption σ
                 = (r2, <[r2 := res]> σ1)).
  { unfold filteredExpenses. unfold JSArray.bind at 1.
    rewrite (filterM_run _ _ _ _ Hr). fold r1 σ1.
    apply (filter_sort_run _ _ r1 σ1). apply lookup_insert_eq. }
  assert (Hperm : res ≡ₚ filter (wanted filterCategory filterDate) L).
  { subst res. unfold filteredView. rewrite sort_perm, filter_filter_andb.
    by rewrite (filter_bool_prop _ (wanted filterCategory filterDate))
      by (intros e; apply matches_wanted). }
  exists r2, (<[r2 := res]> σ1), res.
  split; [exact Hrun|]. split; [|split; [|split; [|split; [|split; [|split]]]]].
  - rewrite lookup_insert_ne.
    + subst σ1. by rewrite lookup_insert_ne.
    + intros E. symmetry in E. revert E. apply fresh_not_in_store, Hd1, elem_of_dom. eauto.
  - intros a Ha. rewrite lookup_insert_ne.
    + subst σ1. rewrite lookup_insert_ne; [done|].
      intros E. symmetry in E. revert E. by apply fresh_not_in_store.
    + intros E. symmetry in E. revert E. by apply fresh_not_in_store, Hd1.
  - apply lookup_insert_eq.
  - done.
  - exact Hperm.
  - intros e. rewrite Hperm, list_elem_of_filter. unfold wanted. tauto.
  - by rewrite Hperm.
Qed.

End Pipeline.

(** ** Category aggregation *)

Section Aggregation.

Lemma elem_of_firstOccurrences c l : c ∈ firstOccurrences l ↔ c ∈ l.
Proof.
  induction l as [|x l IH]; cbn; [done|].
  rewrite !elem_of_cons, list_elem_of_In, filter_In, <- list_elem_of_In, IH.
  rewrite negb_true_iff, bool_decide_eq_false.
  destruct (decide (c = x)); tauto.
Qed.

Lemma NoDup_filter_bool {A} (f : A → bool) l : NoDup l → NoDup (List.filter f l).
Proof.
  induction 1 as [|x l Hx Hl IH]; cbn; [constructor|].
  destruct (f x); [|done]. constructor; [|done].
  rewrite list_elem_of_In, filter_In, <- list_elem_of_In. tauto.
Qed.

Lemma NoDup_firstOccurrences l : NoDup (firstOccurrences l).
Proof.
  induction l as [|x l IH]; cbn; constructor.
  - rewrite list_elem_of_In, filter_In, negb_true_iff, bool_decide_eq_false. tauto.
  - by apply NoDup_filter_bool.
Qed.

Lemma firstOccurrences_snoc l c :
  firstOccurrences (l ++ [c])
  = if decide (c ∈ l) then firstOccurrences l else firstOccurrences l ++ [c].
Proof.
  induction l as [|x l IH]; cbn [app firstOccurrences].
  - destruct (decide (c ∈ [])) as [H|H]; [by apply elem_of_nil in H | done].
  - rewrite IH. destruct (decide (c ∈ l)) as [Hl|Hl].
    + rewrite decide_True by (by right). done.
    + rewrite List.filter_app. cbn [List.filter].
      destruct (decide (c = x)) as [->|Hne].
      * rewrite bool_decide_eq_true_2 by done. cbn.
        rewrite decide_True by (by left). by rewrite app_nil_r.
      * rewrite bool_decide_eq_false_2 by done. cbn.
        rewrite decide_False; [done|]. rewrite elem_of_cons. tauto.
Qed.

Lemma sumAmounts_snoc l e : sumAmounts (l ++ [e]) = (sumAmounts l + amount e)%float.
Proof. unfold sumAmounts, sumFrom. by rewrite fold_left_app. Qed.

Lemma filter_snoc_in (p : Expense → bool) l e :
  p e = true → List.filter p (l ++ [e]) = List.filter p l ++ [e].
Proof. intros H. rewrite List.filter_app. cbn [List.filter]. by rewrite H. Qed.

Lemma filter_snoc_out (p : Expense → bool) l e :
  p e = false → List.filter p (l ++ [e]) = List.filter p l.
Proof. intros H. rewrite List.filter_app. cbn [List.filter]. by rewrite H, app_nil_r. Qed.

Lemma inCategory_same e : inCategory (category e) e = true.
Proof. unfold inCategory. by rewrite bool_decide_eq_true_2. Qed.

Lemma inCategory_other k e : k ≠ category e → inCategory k e = false.
Proof. intros H. unfold inCategory. by rewrite bool_decide_eq_false_2. Qed.

Lemma filter_absent c l :
  c ∉ map category l → List.filter (inCategory c) l = [].
Proof.
  induction l as [|x l IH]; cbn; [done|].
  rewrite not_elem_of_cons. intros [Hx Hl].
  rewrite inCategory_other by done. by apply IH.
Qed.

Lemma finiteAmounts_filter (p : Expense → bool) l :
  finiteAmounts l → finiteAmounts (List.filter p l).
Proof.
  unfold finiteAmounts. rewrite !Forall_forall. intros H e He.
  apply list_elem_of_In, filter_In in He as [He _]. by apply H, list_elem_of_In.
Qed.

(** A sum of finite amounts is a running total: never NaN, never the
    negative zero. *)
Lemma sumAmounts_total l : finiteAmounts l → numberTotal (sumAmounts l).
Proof.
  induction l as [|e l IH] using rev_ind; intros H; [exact numberTotal_zero|].
  apply Forall_app in H as [Hl He]. apply Forall_inv in He.
  rewrite sumAmounts_snoc. apply add_total; [by apply IH | done].
Qed.

(** [categoryTotals[k] || 0] on the sum of finite amounts. *)
Lemma orNumber_total v : numberTotal v → orNumber (Some v) 0 = v.
Proof. intros H. cbn [orNumber]. by apply numberTotal_or_zero. Qed.

Lemma zero_plus x : is_finite x = true → numberTotal (0 + x).
Proof. intros H. apply add_total; [exact numberTotal_zero | done]. Qed.

Lemma totalsGet_map (f : Category → float) ks c :
  totalsGet (map (λ k, (k, f k)) ks) c = if decide (c ∈ ks) then Some (f c) else None.
Proof.
  induction ks as [|k ks IH]; cbn.
  - destruct (decide (c ∈ [])) as [H|H]; [by apply elem_of_nil in H | done].
  - destruct (decide (k = c)) as [->|Hne].
    + by rewrite decide_True by (by left).
    + rewrite IH. destruct (decide (c ∈ ks)) as [H|H].
      * by rewrite decide_True by (by right).
      * rewrite decide_False; [done|]. rewrite elem_of_cons. intros [E|E]; [congruence | done].
Qed.

Lemma totalsSet_map (f : Category → float) ks c v :
  NoDup ks →
  totalsSet (map (λ k, (k, f k)) ks) c v
  = if decide (c ∈ ks)
    then map (λ k, (k, if decide (k = c) then v else f k)) ks
    else map (λ k, (k, f k)) ks ++ [(c, v)].
Proof.
  induction 1 as [|k ks Hk Hks IH]; cbn.
  - destruct (decide (c ∈ [])) as [H|H]; [by apply elem_of_nil in H | done].
  - destruct (decide (k = c)) as [->|Hne].
    + rewrite decide_True by (by left). f_equal.
      apply map_ext_in. intros k Hin. apply list_elem_of_In in Hin.
      rewrite decide_False; [done|]. by intros ->.
    + rewrite IH. destruct (decide (c ∈ ks)) as [H|H].
      * by rewrite decide_True by (by right).
      * rewrite decide_False; [done|]. rewrite elem_of_cons. intros [E|E]; [congruence | done].
Qed.

Lemma categoryTotals_snoc L e :
  categoryTotals (L ++ [e]) = addToTotals (categoryTotals L) e.
Proof. unfold categoryTotals. by rewrite fold_left_app. Qed.

(** The object built by the loop over finite amounts: one entry per
    category of [L], in the order the categories first occur, holding the
    sum of that category, added in the order of the list. *)
Lemma categoryTotals_spec L :
  finiteAmounts L →
  categoryTotals L
  = map (λ c, (c, sumAmounts (List.filter (inCategory c) L)))
        (firstOccurrences (map category L)).
Proof.
  induction L as [|e L IH] using rev_ind; intros HL; [done|].
  apply Forall_app in HL as [HL He]. apply Forall_inv in He.
  rewrite categoryTotals_snoc, (IH HL). unfold addToTotals.
  rewrite totalsGet_map, totalsSet_map by apply NoDup_firstOccurrences.
  rewrite map_app. cbn [map]. rewrite firstOccurrences_snoc.
  destruct (decide (category e ∈ firstOccurrences (map category L))) as [Hin|Hout];
    rewrite elem_of_firstOccurrences in *.
  - rewrite decide_True by done.
    rewrite orNumber_total by (by apply sumAmounts_total, finiteAmounts_filter).
    apply map_ext. intros k.
    destruct (decide (k = category e)) as [->|Hne].
    + by rewrite filter_snoc_in, sumAmounts_snoc by apply inCategory_same.
    + by rewrite filter_snoc_out by (by apply inCategory_other).
  - rewrite decide_False by done.
    rewrite map_app. cbn [map orNumber]. f_equal.
    + apply map_ext_in. intros k Hk. apply list_elem_of_In in Hk.
      rewrite elem_of_firstOccurrences in Hk.
      by rewrite filter_snoc_out by (apply inCategory_other; intros E; by rewrite E in Hk).
    + rewrite filter_snoc_in, filter_absent by (done || apply inCategory_same). done.
Qed.

(** *** Exact sums *)

Lemma exactSum_cons w e l : exactSum w (e :: l) = w e + exactSum w l.
Proof. reflexivity. Qed.

Lemma exactSum_app w l l' : exactSum w (l ++ l') = exactSum w l + exactSum w l'.
Proof. unfold exactSum. induction l as [|e l IH]; cbn; [done|]. rewrite IH. lia. Qed.

Lemma exactSum_abs w l : Z.abs (exactSum w l) <= exactSum (λ e, Z.abs (w e)) l.
Proof. unfold exactSum. induction l as [|e l IH]; cbn; lia. Qed.

Lemma exactSum_nonneg w l : (∀ e, 0 <= w e) → 0 <= exactSum w l.
Proof.
  intros H. unfold exactSum. induction l as [|e l IH]; cbn; [done|]. specialize (H e). lia.
Qed.

Lemma exactSum_filter_le w (p : Expense → bool) l :
  (∀ e, 0 <= w e) → exactSum w (List.filter p l) <= exactSum w l.
Proof.
  intros H. unfold exactSum. induction l as [|e l IH]; cbn; [done|].
  specialize (H e). destruct (p e); cbn; lia.
Qed.

Lemma exactSum_perm w l l' : l ≡ₚ l' → exactSum w l = exactSum w l'.
Proof. unfold exactSum. induction 1; cbn; lia. Qed.

(** Grouping by a key: the sums of the groups add up to the sum of the
    elements whose key is one of the keys. *)
Lemma exactSum_one_key {K} `{EqDecision K} (key : Expense → K) w (ks : list K) e :
  NoDup ks →
  foldr (λ k s, (if bool_decide (key e = k) then w e else 0) + s) 0 ks
  = if bool_decide (key e ∈ ks) then w e else 0.
Proof.
  induction 1 as [|k ks Hk Hks IH]; cbn [foldr]; [done|].
  rewrite IH. destruct (decide (key e = k)) as [E|E].
  - rewrite (bool_decide_eq_true_2 (key e = k)) by done.
    rewrite (bool_decide_eq_true_2 (key e ∈ k :: ks)) by (rewrite E; by left).
    rewrite (bool_decide_eq_false_2 (key e ∈ ks)) by (by rewrite E). lia.
  - rewrite (bool_decide_eq_false_2 (key e = k)) by done.
    destruct (decide (key e ∈ ks)) as [Hin|Hout].
    + rewrite (bool_decide_eq_true_2 (key e ∈ k :: ks)) by (by right).
      rewrite (bool_decide_eq_true_2 (key e ∈ ks)) by done. lia.
    + rewrite (bool_decide_eq_false_2 (key e ∈ k :: ks))
        by (rewrite elem_of_cons; tauto).
      rewrite (bool_decide_eq_false_2 (key e ∈ ks)) by done. lia.
Qed.

Lemma exactSum_by_keys {K} `{EqDecision K} (key : Expense → K) w (ks : list K) L :
  NoDup ks →
  foldr (λ k s, exactSum w (List.filter (λ e, bool_decide (key e = k)) L) + s) 0 ks
  = exactSum w (List.filter (λ e, bool_decide (key e ∈ ks)) L).
Proof.
  intros Hnd. induction L as [|e L IH]; cbn [List.filter].
  - clear Hnd. induction ks as [|k ks IHk]; cbn [foldr]; [done|].
    rewrite IHk. reflexivity.
  - assert (E : foldr (λ k s, exactSum w (if bool_decide (key e = k)
                                          then e :: List.filter (λ e, bool_decide (key e = k)) L
                                          else List.filter (λ e, bool_decide (key e = k)) L) + s)
                      0 ks
                = foldr (λ k s, (if bool_decide (key e = k) then w e else 0) + s) 0 ks
                  + foldr (λ k s, exactSum w (List.filter (λ e, bool_decide (key e = k)) L) + s)
                          0 ks).
    { clear. induction ks as [|k ks IHk]; cbn [foldr]; [done|]. rewrite IHk.
      destruct (bool_decide (key e = k)); rewrite ?exactSum_cons; lia. }
    rewrite E, IH, exactSum_one_key by done.
    destruct (bool_decide (key e ∈ ks)); rewrite ?exactSum_cons; lia.
Qed.

Lemma filter_all {A} (f : A → bool) (l : list A) :
  (∀ x, x ∈ l → f x = true) → List.filter f l = l.
Proof.
  induction l as [|x l IH]; intros H; cbn; [done|].
  rewrite H by (by left). f_equal. apply IH. intros y Hy. apply H. by right.
Qed.

(** The categories of a list split it into groups. *)
Lemma exactSum_by_category w L :
  foldr (λ c s, exactSum w (List.filter (inCategory c) L) + s) 0
        (firstOccurrences (map category L))
  = exactSum w L.
Proof.
  unfold inCategory.
  rewrite (exactSum_by_keys category w) by apply NoDup_firstOccurrences.
  rewrite filter_all; [done|]. intros e He. apply bool_decide_eq_true.
  apply elem_of_firstOccurrences, list_elem_of_In, in_map, list_elem_of_In, He.
Qed.

Lemma isWhole_finite x n : isWhole x n → is_finite x = true.
Proof. by intros [H _]. Qed.

Lemma wholeAmounts_finite l : wholeAmounts l → finiteAmounts l.
Proof.
  intros [H _]. eapply Forall_impl; [exact H|]. intros e. apply isWhole_finite.
Qed.

Lemma foldr_abs_nonneg ns : 0 <= foldr (λ n s, Z.abs n + s) 0 ns.
Proof. induction ns as [|n ns IH]; cbn; lia. Qed.

(** A sum of whole numbers, from the left, is exact. *)
Lemma sumNumbers_whole (xs : list float) (ns : list Z) acc a :
  Forall2 isWhole xs ns → isWhole acc a → numberTotal acc →
  Z.abs a + foldr (λ n s, Z.abs n + s) 0 ns < 2 ^ 53 →
  isWhole (fold_left (λ sum x, (sum + x)%float) xs acc) (a + foldr Z.add 0 ns)
  ∧ numberTotal (fold_left (λ sum x, (sum + x)%float) xs acc).
Proof.
  intros H. revert acc a. induction H as [|x n xs ns Hx Hxs IH]; intros acc a Ha Ta Hb.
  - cbn. by rewrite Z.add_0_r.
  - cbn [fold_left foldr] in *.
    replace (a + (n + foldr Z.add 0 ns)) with ((a + n) + foldr Z.add 0 ns) by lia.
    apply IH.
    + apply add_whole; [done..|]. pose proof (foldr_abs_nonneg ns). lia.
    + apply add_total; [done | by apply (isWhole_finite x n)].
    + pose proof (foldr_abs_nonneg ns). lia.
Qed.

Lemma sumAmounts_as_numbers l : sumAmounts l = sumNumbers (map amount l).
Proof.
  unfold sumAmounts, sumFrom, sumNumbers. generalize 0%float.
  induction l as [|e l IH]; intros acc; cbn; [done|]. apply IH.
Qed.

Lemma exactSum_as_foldr w l : exactSum w l = foldr Z.add 0 (map w l).
Proof. unfold exactSum. induction l as [|e l IH]; cbn; [done|]. by rewrite IH. Qed.

Lemma exactSum_abs_as_foldr w l :
  exactSum (λ e, Z.abs (w e)) l = foldr (λ n s, Z.abs n + s) 0 (map w l).
Proof. unfold exactSum. induction l as [|e l IH]; cbn; [done|]. by rewrite IH. Qed.

(** The sum of whole amounts is the exact sum. *)
Lemma sumAmounts_whole l :
  wholeAmounts l →
  isWhole (sumAmounts l) (exactSum rupees l) ∧ numberTotal (sumAmounts l).
Proof.
  intros [Hw Hb].
  rewrite sumAmounts_as_numbers, exactSum_as_foldr.
  rewrite exactSum_abs_as_foldr in Hb.
  apply (sumNumbers_whole (map amount l) (map rupees l) 0 0);
    [| exact isWhole_zero | exact numberTotal_zero | lia].
  clear Hb. induction Hw as [|e l He Hl IH]; cbn; constructor; done.
Qed.

Lemma wholeAmounts_filter (p : Expense → bool) l :
  wholeAmounts l → wholeAmounts (List.filter p l).
Proof.
  intros [Hw Hb]. split.
  - rewrite Forall_forall in Hw |- *. intros e He.
    apply list_elem_of_In, filter_In in He as [He _]. by apply Hw, list_elem_of_In.
  - eapply Z.le_lt_trans; [|exact Hb]. apply exactSum_filter_le. intros; lia.
Qed.

Lemma wholeAmounts_perm l l' : l ≡ₚ l' → wholeAmounts l → wholeAmounts l'.
Proof.
  intros Hp [Hw Hb]. split; [by rewrite <- Hp|].
  by rewrite <- (exactSum_perm _ _ _ Hp).
Qed.

(** Two exact sums over the same amounts are the same number. *)
Lemma sumAmounts_perm l l' :
  wholeAmounts l → l ≡ₚ l' → sumAmounts l = sumAmounts l'.
Proof.
  intros Hw Hp.
  destruct (sumAmounts_whole l Hw) as [W1 T1].
  destruct (sumAmounts_whole l' (wholeAmounts_perm _ _ Hp Hw)) as [W2 T2].
  rewrite <- (exactSum_perm _ _ _ Hp) in W2.
  exact (isWhole_inj _ _ _ T1 T2 W1 W2).
Qed.

Lemma slices_whole L (ks : list Category) :
  wholeAmounts L →
  Forall2 isWhole (map (λ c, sumAmounts (List.filter (inCategory c) L)) ks)
                  (map (λ c, exactSum rupees (List.filter (inCategory c) L)) ks).
Proof.
  intros Hw. induction ks as [|c ks IH]; cbn [map]; constructor; [|exact IH].
  by apply sumAmounts_whole, wholeAmounts_filter.
Qed.

Lemma slices_abs L (ks : list Category) :
  foldr (λ n s, Z.abs n + s) 0 (map (λ c, exactSum rupees (List.filter (inCategory c) L)) ks)
  <= foldr (λ c s, exactSum (λ e, Z.abs (rupees e)) (List.filter (inCategory c) L) + s) 0 ks.
Proof.
  induction ks as [|c ks IH]; cbn [map foldr]; [done|].
  pose proof (exactSum_abs rupees (List.filter (inCategory c) L)). lia.
Qed.

Lemma foldr_add_map {A} (f : A → Z) ks :
  foldr Z.add 0 (map f ks) = foldr (λ c s, f c + s) 0 ks.
Proof. induction ks as [|c ks IH]; cbn [map foldr]; [done|]. by rewrite IH. Qed.

(** The slices of whole amounts add up to the sum of all amounts. *)
Lemma slices_sum L :
  wholeAmounts L →
  sumNumbers (map (λ c, sumAmounts (List.filter (inCategory c) L))
                  (firstOccurrences (map category L)))
  = sumAmounts L.
Proof.
  intros Hw. pose proof Hw as [_ Hb].
  destruct (sumNumbers_whole _ _ 0 0 (slices_whole L (firstOccurrences (map category L)) Hw)
              isWhole_zero numberTotal_zero) as [W1 T1].
  - eapply Z.le_lt_trans; [|exact Hb]. cbn [Z.abs Z.add].
    rewrite <- (exactSum_by_category (λ e, Z.abs (rupees e)) L). apply slices_abs.
  - destruct (sumAmounts_whole L Hw) as [W2 T2].
    rewrite foldr_add_map, exactSum_by_category in W1. cbn [Z.add] in W1.
    exact (isWhole_inj _ _ _ T1 T2 W1 W2).
Qed.

#[local] Instance categoryLabel_inj : Inj (=) (=) categoryLabel.
Proof. intros c1 c2. destruct c1, c2; cbn; congruence. Qed.

(** C5.  For finite amounts [pieChartData] has one entry per category
    that occurs among the expenses, in the order the categories first
    occur; an entry carries the sum of the amounts of its category, added
    in the order of the list; for whole amounts below 2^53 the entries
    add up to the sum of all amounts. *)
Theorem pieChartData_spec (L : list Expense) :
  finiteAmounts L →
  pieChartData L
  = map (λ c, mkTotal (categoryLabel c) (sumAmounts (List.filter (inCategory c) L)))
        (firstOccurrences (map category L))
  ∧ NoDup (map name (pieChartData L))
  ∧ (∀ c, categoryLabel c ∈ map name (pieChartData L) ↔ ∃ e, e ∈ L ∧ category e = c)
  ∧ (wholeAmounts L → sumNumbers (map value (pieChartData L)) = sumAmounts L).
Proof.
  intros HL.
  assert (E : pieChartData L
              = map (λ c, mkTotal (categoryLabel c) (sumAmounts (List.filter (inCategory c) L)))
                    (firstOccurrences (map category L))).
  { unfold pieChartData. rewrite categoryTotals_spec, map_map by done. done. }
  split; [exact E|]. split; [|split].
  - rewrite E, map_map. cbn.
    apply (NoDup_fmap_2 categoryLabel), NoDup_firstOccurrences.
  - intros c. rewrite E, map_map. cbn.
    change (categoryLabel c ∈ categoryLabel <$> firstOccurrences (map category L)
            ↔ ∃ e, e ∈ L ∧ category e = c).
    rewrite (list_elem_of_fmap_inj categoryLabel).
    rewrite elem_of_firstOccurrences.
    change (c ∈ category <$> L ↔ ∃ e, e ∈ L ∧ category e = c).
    rewrite list_elem_of_fmap. split; intros (e & H1 & H2); eauto.
  - intros Hw. rewrite E, map_map. cbn [value]. by apply slices_sum.
Qed.

End Aggregation.

(** ** Weekly trend *)

Section WeeklyTrend.

(** Going back [i] days by [setDate] keeps the time of day. *)
Lemma setDate_days_back (tz : Z) today i :
  setDate tz today (getDate tz today - i) = today - i * msPerDay.
Proof. rewrite setDate_shift. lia. Qed.

Lemma getFormattedDate_days_back today i :
  getFormattedDate (today - i * msPerDay) = isoDate (Day today - i).
Proof.
  rewrite getFormattedDate_isoDate. f_equal.
  replace (today - i * msPerDay) with (today + (- i) * msPerDay) by lia.
  rewrite Day_shift. lia.
Qed.

Lemma last7Days_spec (tz : Z) today :
  last7Days tz today
  = map (λ i, mkBucket (weekdayShort (getDay tz (today - i * msPerDay)))
                       (isoDate (Day today - i)) 0)
        [6; 5; 4; 3; 2; 1; 0].
Proof.
  unfold last7Days. cbn [map rev app].
  rewrite !setDate_days_back, !getFormattedDate_days_back. reflexivity.
Qed.

Lemma isoYearRange_day today i :
  isoYearRange (today - 6 * msPerDay) → isoYearRange today → 0 <= i <= 6 →
  0 <= year (civil_from_days (Day today - i)) <= 9999.
Proof.
  unfold isoYearRange, Day, msPerDay. intros H1 H2 Hi.
  apply year_of_day_range. Z.div_mod_to_equations. lia.
Qed.

Lemma last7Days_NoDup (tz : Z) today :
  isoYearRange (today - 6 * msPerDay) → isoYearRange today →
  NoDup (map b_date (last7Days tz today)).
Proof.
  intros H1 H2. rewrite last7Days_spec, map_map. cbn [b_date].
  apply (NoDup_fmap_2_strong (λ i, isoDate (Day today - i))).
  - intros x y Hx Hy E.
    assert (Hx' : 0 <= x <= 6)
      by (rewrite !elem_of_cons, elem_of_nil in Hx; lia).
    assert (Hy' : 0 <= y <= 6)
      by (rewrite !elem_of_cons, elem_of_nil in Hy; lia).
    apply isoDate_inj in E; [lia | by apply isoYearRange_day ..].
  - repeat (constructor; [rewrite ?elem_of_cons, elem_of_nil; lia|]). constructor.
Qed.

(** One expense is added to the bucket of its date, if there is one. *)
Lemma addToDay_spec days e :
  NoDup (map b_date days) →
  addToDay days e
  = map (λ b, mkBucket (b_name b) (b_date b)
                (if String.eqb (b_date b) (date e) then (b_amount b + amount e)%float
                 else b_amount b))
        days.
Proof.
  induction days as [|d rest IH]; cbn [map addToDay]; [done|].
  intros Hnd. apply NoDup_cons in Hnd as [Hd Hrest].
  destruct (String.eqb_spec (b_date d) (date e)) as [E|E].
  - f_equal. rewrite <- (map_id rest) at 1. apply map_ext_in. intros b Hb.
    assert (Hne : b_date b ≠ date e).
    { intros E'. apply Hd. rewrite E, <- E'. apply list_elem_of_In, in_map, Hb. }
    apply String.eqb_neq in Hne. rewrite Hne. by destruct b.
  - f_equal; [by destruct d | by apply IH].
Qed.

Lemma addToDay_dates days e : map b_date (addToDay days e) = map b_date days.
Proof.
  induction days as [|d rest IH]; cbn; [done|].
  destruct (String.eqb _ _); cbn; [done | by rewrite IH].
Qed.

(** Every bucket goes on from its amount with the expenses of its date,
    in the order of the list. *)
Lemma fold_addToDay_dates L days :
  map b_date (fold_left addToDay L days) = map b_date days.
Proof.
  revert days. induction L as [|e L IH]; intros days; cbn; [done|].
  by rewrite IH, addToDay_dates.
Qed.

Lemma fold_addToDay_spec L days :
  NoDup (map b_date days) →
  fold_left addToDay L days
  = map (λ b, mkBucket (b_name b) (b_date b)
                (sumFrom (b_amount b) (List.filter (onDate (b_date b)) L)))
        days.
Proof.
  revert days. induction L as [|e L IH]; intros days Hnd; cbn [fold_left].
  - cbn. rewrite <- (map_id days) at 1. apply map_ext. by intros [n d a].
  - rewrite IH by (by rewrite addToDay_dates).
    rewrite addToDay_spec by done. rewrite map_map. apply map_ext. intros b.
    cbn [b_name b_date b_amount List.filter]. unfold onDate at 2.
    rewrite (String.eqb_sym (date e)).
    by destruct (String.eqb (b_date b) (date e)).
Qed.

(** On a host without daylight saving: for a clock reading [today] whose
    last seven days fall in the years 0000..9999, and for any list of
    expenses, the series has exactly seven buckets, keyed by the date of
    [today] and of the six days before it, oldest first; each bucket
    carries the sum of the amounts of the expenses dated exactly on its
    key, added in the order of the list, which is 0 when there are
    none. *)
Lemma weeklyTrendData_spec (tz today : Z) (L : list Expense) :
  isoYearRange (today - 6 * msPerDay) → isoYearRange today →
  weeklyTrendData tz today L
  = map (λ i, mkBucket (weekdayShort (getDay tz (today - i * msPerDay)))
                       (isoDate (Day today - i))
                       (sumAmounts (List.filter (onDate (isoDate (Day today - i))) L)))
        [6; 5; 4; 3; 2; 1; 0]
  ∧ length (weeklyTrendData tz today L) = 7%nat
  ∧ isoDate (Day today - 0) = getFormattedDate today
  ∧ NoDup (map b_date (weeklyTrendData tz today L))
  ∧ Forall (λ b, b_amount b = 0%float) (weeklyTrendData tz today []).
Proof.
  intros H1 H2.
  assert (E : ∀ L', weeklyTrendData tz today L'
              = map (λ i, mkBucket (weekdayShort (getDay tz (today - i * msPerDay)))
                       (isoDate (Day today - i))
                       (sumAmounts (List.filter (onDate (isoDate (Day today - i))) L')))
                    [6; 5; 4; 3; 2; 1; 0]).
  { intros L'. unfold weeklyTrendData.
    rewrite fold_addToDay_spec by (by apply last7Days_NoDup).
    rewrite last7Days_spec, map_map. apply map_ext. intros i. cbn. done. }
  split; [apply E|]. split; [by rewrite E|]. split; [|split].
  - rewrite Z.sub_0_r. symmetry. apply getFormattedDate_isoDate.
  - unfold weeklyTrendData. rewrite fold_addToDay_spec by (by apply last7Days_NoDup).
    rewrite map_map. cbn [b_date]. by apply last7Days_NoDup.
  - rewrite E. cbn. repeat constructor.
Qed.

End WeeklyTrend.

(** ** Period reports *)

Section Reports.

Lemma ltb_leb_negb s1 s2 : negb (String.ltb s1 s2) = String.leb s2 s1.
Proof.
  unfold String.ltb, String.leb. rewrite (String.compare_antisym s1 s2).
  by destruct (String.compare s2 s1).
Qed.

(** The range test is the inclusive comparison of strings. *)
Lemma inRange_leb startStr endStr e :
  inRange startStr endStr e
  = String.leb startStr (date e) && String.leb (date e) endStr.
Proof. unfold inRange. by rewrite !ltb_leb_negb. Qed.

Lemma generateReport_run tz now period (σ : gmap positive (list Expense)) r L :
  σ !! r = Some L →
  generateReport tz now period r σ
  = (mkReport (reportTitle tz now period) (fresh (dom σ)),
     <[fresh (dom σ) := reportExpenses tz now period L]> σ).
Proof.
  intros Hr. unfold generateReport, reportExpenses.
  destruct (reportRange tz now period) as [startStr endStr].
  unfold JSArray.bind at 1. rewrite (filterM_run _ _ _ _ Hr).
  unfold JSArray.bind. rewrite (sortM_run _ _ _ (List.filter (inRange startStr endStr) L))
    by apply lookup_insert_eq.
  unfold JSArray.ret. by rewrite insert_insert_eq.
Qed.

(** C7.  On a list of calendar days held by [expenses], the report holds
    exactly the expenses whose date, compared as a string, lies between the
    computed [startStr] and [endStr] inclusive, latest first; the list
    itself is left as it was, so a second run for the same period at the
    same clock reading gives the same title and the same expenses, and
    leaves the first report as it was. *)
Theorem generateReport_spec (tz : TimeZone) (now : Z) (period : Period)
    (σ : gmap positive (list Expense)) (r : JSArray.ref) (L : list Expense) :
  σ !! r = Some L → validDates L →
  let startStr := fst (reportRange tz now period) in
  let endStr := snd (reportRange tz now period) in
  let result := reportExpenses tz now period L in
  ∃ rep σ1 rep' σ2,
    generateReport tz now period r σ = (rep, σ1)
    ∧ generateReport tz now period r σ1 = (rep', σ2)
    ∧ σ1 !! r = Some L ∧ σ2 !! r = Some L
    ∧ σ1 !! expenses rep = Some result
    ∧ result ≡ₚ List.filter (λ e, String.leb startStr (date e) && String.leb (date e) endStr) L
    ∧ (∀ e, e ∈ result ↔ e ∈ L ∧ String.leb startStr (date e) = true
                            ∧ String.leb (date e) endStr = true)
    ∧ StronglySorted notBefore result
    ∧ title rep' = title rep
    ∧ σ2 !! expenses rep' = Some result
    ∧ σ2 !! expenses rep = Some result.
Proof.
  intros Hr HL startStr endStr result.
  set (r1 := fresh (dom σ)).
  set (σ1 := <[r1 := result]> σ).
  set (r2 := fresh (dom σ1)).
  assert (Hr1 : r ≠ r1) by (apply fresh_not_in_store, elem_of_dom; eauto).
  assert (Hσ1r : σ1 !! r = Some L) by (subst σ1; by rewrite lookup_insert_ne).
  assert (Hr2 : r ≠ r2) by (apply fresh_not_in_store, elem_of_dom; eauto).
  assert (Hr12 : r1 ≠ r2).
  { apply fresh_not_in_store, elem_of_dom. subst σ1. rewrite lookup_insert_eq. eauto. }
  assert (Hperm : result ≡ₚ List.filter
                    (λ e, String.leb startStr (date e) && String.leb (date e) endStr) L).
  { subst result startStr endStr. unfold reportExpenses.
    destruct (reportRange tz now period) as [s e]. cbn [fst snd].
    rewrite sort_perm. by rewrite (filter_ext _ _ (inRange_leb s e)). }
  assert (Hvalid : validDates (List.filter
                    (λ e, String.leb startStr (date e) && String.leb (date e) endStr) L)).
  { unfold validDates in *. rewrite Forall_forall in HL |- *.
    intros e He. apply list_elem_of_In, filter_In in He as [He _].
    by apply HL, list_elem_of_In. }
  exists (mkReport (reportTitle tz now period) r1), σ1,
         (mkReport (reportTitle tz now period) r2), (<[r2 := result]> σ1).
  split; [by apply generateReport_run|].
  split; [by apply generateReport_run|].
  split; [done|]. split; [by rewrite lookup_insert_ne|].
  split; [apply lookup_insert_eq|]. split; [exact Hperm|]. split; [|split].
  - intros e. rewrite Hperm, list_elem_of_In, filter_In, <- list_elem_of_In.
    rewrite andb_true_iff. tauto.
  - subst result startStr endStr. unfold reportExpenses in *.
    destruct (reportRange tz now period) as [s e]. cbn [fst snd] in *.
    rewrite (filter_ext _ _ (inRange_leb s e)).
    by apply sort_byDateDesc_spec.
  - split; [done|]. split; [apply lookup_insert_eq|].
    cbn [expenses]. rewrite lookup_insert_ne by done. apply lookup_insert_eq.
Qed.

End Reports.

(** ** Saving an expense *)

Section Saving.

Lemma map_replace_lookup (u : Expense) prev i e :
  prev !! i = Some e →
  map (λ e, if String.eqb (id e) (id u) then u else e) prev !! i
  = Some (if String.eqb (id e) (id u) then u else e).
Proof.
  intros H. change (map ?f prev) with (f <$> prev).
  by rewrite list_lookup_fmap, H.
Qed.

Lemma map_replace_absent (u : Expense) prev :
  id u ∉ map id prev →
  map (λ e, if String.eqb (id e) (id u) then u else e) prev = prev.
Proof.
  intros H. rewrite <- (map_id prev) at 2. apply map_ext_in. intros e He.
  destruct (String.eqb_spec (id e) (id u)) as [E|E]; [|done].
  exfalso. apply H. rewrite <- E. apply list_elem_of_In, in_map, He.
Qed.

(** An edit leaves the identifiers of the list as they were. *)
Lemma map_replace_ids (u : Expense) prev :
  map id (map (λ e, if String.eqb (id e) (id u) then u else e) prev) = map id prev.
Proof.
  rewrite map_map. apply map_ext. intros e.
  by destruct (String.eqb_spec (id e) (id u)).
Qed.

(** C10.  A save without an id puts the new expense in front of the list
    and keeps the list behind it; a save with an id keeps the length,
    puts the saved record at every position whose expense has that id and
    keeps every other position, so it changes nothing when no stored
    expense has that id. *)
Theorem handleSaveExpense_frame (now : Z) (expenseToSave : PartialExpense)
    (prev : list Expense) :
  (isSome_truthy (p_id expenseToSave) = false →
     ∃ newExpense, handleSaveExpense now expenseToSave prev = Some (newExpense :: prev))
  ∧ (∀ updatedExpense,
       isSome_truthy (p_id expenseToSave) = true →
       asExpense expenseToSave = Some updatedExpense →
       ∃ l, handleSaveExpense now expenseToSave prev = Some l
            ∧ length l = length prev
            ∧ (∀ i e, prev !! i = Some e →
                 l !! i = Some (if String.eqb (id e) (id updatedExpense)
                                then updatedExpense else e))
            ∧ (id updatedExpense ∉ map id prev → l = prev)).
Proof.
  unfold handleSaveExpense. split.
  - intros ->. eauto.
  - intros u -> ->. cbn. eexists. split; [reflexivity|].
    split; [apply length_map|]. split.
    + intros i e. apply map_replace_lookup.
    + apply map_replace_absent.
Qed.

(** *** What the form lets through *)

Lemma length_list_ascii_of_string s :
  length (list_ascii_of_string s) = String.length s.
Proof. induction s as [|c s IH]; cbn; [done | by rewrite IH]. Qed.

Lemma validDateString_truthy s : validDateString s = true → truthy s = true.
Proof. by destruct s. Qed.

(** A valid date string with a year of four digits is a calendar day
    written YYYY-MM-DD, which [new Date] reads. *)
Lemma validDateString_four_digit s :
  validDateString s = true → String.length s = 10%nat →
  matchesDatePattern s = true ∧ is_Some (Date_parse s).
Proof.
  intros Hv Hl. rewrite <- length_list_ascii_of_string in Hl.
  unfold validDateString in Hv. unfold matchesDatePattern, Date_parse.
  destruct (list_ascii_of_string s) as [|y1 [|y2 [|y3 [|y4 [|s1 [|m1 [|m2 [|s2 [|d1 [|d2 [|x l]]]]]]]]]]];
    try discriminate Hl.
  cbn [rev app digitsValue] in Hv. unfold isDigit.
  destruct (digitVal y1) as [a|]; [|discriminate Hv].
  destruct (digitVal y2) as [b|]; [|discriminate Hv].
  destruct (digitVal y3) as [c|]; [|discriminate Hv].
  destruct (digitVal y4) as [d|]; [|discriminate Hv].
  cbn [mbind option_bind] in Hv.
  destruct (digitVal m1) as [e|]; [|discriminate Hv].
  destruct (digitVal m2) as [f|]; [|discriminate Hv].
  destruct (digitVal d1) as [g|]; [|discriminate Hv].
  destruct (digitVal d2) as [h|]; [|discriminate Hv].
  cbn [mbind option_bind].
  repeat (apply andb_prop in Hv as [Hv ?]).
  replace (10 * (10 * (10 * (10 * 0 + a) + b) + c) + d)
    with (1000 * a + 100 * b + 10 * c + d) in * by lia.
  repeat match goal with H : _ = true |- _ => rewrite H; clear H end.
  split; [by rewrite !bool_decide_eq_true_2 by eauto | eauto].
Qed.

Lemma numberValue_zero : numberValue 0 = 0.
Proof. reflexivity. Qed.

Lemma numberValue_minAmount : 0 < numberValue minAmount.
Proof. by vm_compute. Qed.

(** An amount the form lets through is a positive number. *)
Lemma amountValid_positive stepMismatch amount :
  amountValid stepMismatch amount = true →
  ∃ a, amount = Some a ∧ is_finite a = true ∧ (0 <? a)%float = true
       ∧ (minAmount <=? a)%float = true ∧ numberTruthy a = true.
Proof.
  destruct amount as [a|]; [|discriminate]. cbn [amountValid].
  intros H. apply andb_prop in H as [H _]. apply andb_prop in H as [Hf Hm].
  apply negb_true_iff in Hm.
  rewrite ltb_value in Hm by done. apply Z.ltb_ge in Hm.
  pose proof numberValue_minAmount as Hp.
  exists a. split; [done|]. split; [done|]. split; [|split].
  - rewrite ltb_value, numberValue_zero by done. apply Z.ltb_lt. lia.
  - rewrite leb_value by done. by apply Z.leb_le.
  - unfold numberTruthy. rewrite is_finite_spec in Hf. rewrite is_nan_spec.
    unfold is_zero, zero. rewrite eqb_value, numberValue_zero by (by rewrite ?is_finite_spec).
    destruct (Prim2SF a); try discriminate Hf; cbn [orb];
      apply negb_true_iff, Z.eqb_neq; lia.
Qed.

Lemma orString_truthy s d : truthy s = true → orString (Some s) d = s.
Proof. intros H. cbn. by rewrite H. Qed.

(** C2, as the code has it.  A submission that breaks a rule of the form
    (a required field left empty, an amount below 0.01, a date that is
    not one) stores nothing.  One that passes stores the record of the
    form's fields: under the timestamp of the clock, in front of the
    list, for a creation; in place of the expenses with its identifier
    for an edit.  The stored amount is positive, the date a valid date
    (written YYYY-MM-DD when its year has four digits), the description
    not empty, category and payment method the ones chosen; the
    identifier of a creation is new when no stored expense carries that
    timestamp, and an edit leaves the identifiers as they were. *)
Theorem handleSaveExpense_invariant (stepMismatch : float → bool) (now : Z)
    (initialData : option PartialExpense) (formData : FormData) (prev : list Expense) :
  (checkValidity stepMismatch formData = false →
     requestSubmit stepMismatch now initialData formData prev = Some prev)
  ∧ (checkValidity stepMismatch formData = true →
     ∃ a, f_amount formData = Some a
       ∧ (0 <? a)%float = true ∧ (minAmount <=? a)%float = true
       ∧ validDateString (f_date formData) = true
       ∧ (String.length (f_date formData) = 10%nat →
            matchesDatePattern (f_date formData) = true
            ∧ is_Some (Date_parse (f_date formData)))
       ∧ f_description formData ≠ ""
       ∧ f_category formData ∈ CATEGORIES
       ∧ f_paymentMethod formData ∈ PAYMENT_METHODS
       ∧ (isSome_truthy (initialData ≫= p_id) = false →
            requestSubmit stepMismatch now initialData formData prev
            = Some (mkExpense (toISOString now) (f_date formData) (f_category formData) a
                      (f_description formData) (f_paymentMethod formData) :: prev)
            ∧ (NoDup (map id prev) → toISOString now ∉ map id prev →
                 NoDup (toISOString now :: map id prev)))
       ∧ (∀ i, initialData ≫= p_id = Some i → truthy i = true →
            let u := mkExpense i (f_date formData) (f_category formData) a
                       (f_description formData) (f_paymentMethod formData) in
            requestSubmit stepMismatch now initialData formData prev
            = Some (map (λ e, if String.eqb (id e) i then u else e) prev)
            ∧ map id (map (λ e, if String.eqb (id e) i then u else e) prev) = map id prev)).
Proof.
  unfold requestSubmit. split; [by intros ->|]. intros Hv. rewrite Hv.
  unfold checkValidity in Hv.
  apply andb_prop in Hv as [Hv Hd]. apply andb_prop in Hv as [Hdate Ha].
  destruct (amountValid_positive _ _ Ha) as (a & Ea & Fa & Pa & Ma & Ta).
  exists a. split; [exact Ea|]. split; [exact Pa|]. split; [exact Ma|].
  split; [exact Hdate|]. split; [by apply validDateString_four_digit|].
  split; [by destruct (f_description formData)|].
  split; [destruct (f_category formData); set_solver|].
  split; [destruct (f_paymentMethod formData); set_solver|].
  unfold handleSaveExpense, handleSubmit. cbn [p_id p_date p_category p_amount
    p_description p_paymentMethod]. rewrite Ea. cbn [default from_option Datatypes.id].
  split.
  - intros ->. split; [|by constructor].
    rewrite !orString_truthy by (done || by apply validDateString_truthy).
    cbn [orNumber]. by rewrite Ta.
  - intros i Ei Ti. cbv zeta. rewrite Ei. cbn [isSome_truthy]. rewrite Ti.
    cbn [asExpense p_id p_date p_category p_amount p_description p_paymentMethod
         mbind option_bind id].
    split; [reflexivity|]. rewrite map_map. apply map_ext. intros e.
    by destruct (String.eqb_spec (id e) i).
Qed.

End Saving.

(** ** The AI gateway *)

Section Gateway.
Import Gemini.
Variable API_KEY : option string.
Variable generateContent : list Part → outcome string.
Variable JSON_parse : string → outcome Extracted.
Variable Number_toString : float → string.

(** C9.  [getSavingTips] always settles with a text, whatever the
    credential, the list and the answer of the remote call: the fixed
    notice when no credential is configured, the fixed invitation when
    the list is empty, the fixed apology when the remote call fails, and
    otherwise the text of the answer. *)
Theorem getSavingTips_total (expenses : list Expense) :
  ∃ tips, getSavingTips API_KEY generateContent Number_toString expenses = Fulfilled tips
    ∧ (isSome_truthy API_KEY = false → tips = unavailableTips)
    ∧ (isSome_truthy API_KEY = true → expenses = [] → tips = addExpensesTips)
    ∧ (isSome_truthy API_KEY = true → expenses ≠ [] →
         (∀ msg, generateContent [Text (tipsPrompt Number_toString expenses)] = Rejected msg →
            tips = apologyTips)
         ∧ (∀ text, generateContent [Text (tipsPrompt Number_toString expenses)]
                      = Fulfilled text →
              tips = text)).
Proof.
  unfold getSavingTips. destruct (isSome_truthy API_KEY); cbn [negb].
  - destruct expenses as [|e l]; cbn [length Nat.eqb].
    + eexists. split; [reflexivity|]. repeat split; congruence.
    + destruct (generateContent _) as [text|msg]; cbn [tryCatch];
        (eexists; split; [reflexivity|]); repeat split; congruence.
  - eexists. split; [reflexivity|]. repeat split; congruence.
Qed.


End Gateway.

(** ** The range of a report *)

Section ReportRange.

(** On a host without daylight saving a week range is counted back from
    the clock in whole days: from the day of the clock minus its local
    weekday for this week, and the seven days before that for last week. *)
Lemma reportRange_weeks (tz : Z) now :
  reportRange tz now ThisWeek
  = (isoDate (Day now - getDay tz now), isoDate (Day now - 0))
  ∧ reportRange tz now LastWeek
    = (isoDate (Day now - (getDay tz now + 7)), isoDate (Day now - (getDay tz now + 1))).
Proof.
  unfold reportRange, reportDates. split.
  - rewrite setDate_days_back, getFormattedDate_days_back.
    by rewrite Z.sub_0_r, getFormattedDate_isoDate.
  - replace (getDate tz now - getDay tz now - 1)
      with (getDate tz now - (getDay tz now + 1)) by lia.
    rewrite !setDate_days_back.
    replace (now - (getDay tz now + 1) * msPerDay - 6 * msPerDay)
      with (now - (getDay tz now + 7) * msPerDay) by lia.
    by rewrite !getFormattedDate_days_back.
Qed.

Lemma civil_of_doe_first yoe m :
  0 <= yoe <= 399 → 1 <= m <= 12 →
  0 <= doe_of_civil yoe m 1 < 146097
  ∧ civil_of_doe (doe_of_civil yoe m 1) = Civil yoe m 1.
Proof.
  intros Hy Hm. unfold doe_of_civil.
  set (mp := if 2 <? m then m - 3 else m + 9).
  assert (Hmp : 0 <= mp <= 11) by (subst mp; destruct (Z.ltb_spec 2 m); lia).
  set (doy := (153 * mp + 2) / 5 + 1 - 1).
  assert (Hdoy : 0 <= doy <= 337) by (subst doy; Z.div_mod_to_equations; lia).
  set (doe := yoe * 365 + yoe / 4 - yoe / 100 + doy).
  assert (Hdoe : 0 <= doe < 146097) by (subst doe; Z.div_mod_to_equations; lia).
  split; [exact Hdoe|]. unfold civil_of_doe.
  assert (E1 : (doe - doe / 1460 + doe / 36524 - doe / 146096) / 365 = yoe)
    by (subst doe; Z.div_mod_to_equations; lia).
  rewrite E1.
  assert (E2 : doe - (365 * yoe + yoe / 4 - yoe / 100) = doy) by (subst doe; lia).
  rewrite E2.
  assert (E3 : (5 * doy + 2) / 153 = mp) by (subst doy; Z.div_mod_to_equations; lia).
  rewrite E3. f_equal.
  - subst mp. destruct (Z.ltb_spec 2 m) as [H|H];
      [destruct (Z.ltb_spec (m - 3) 10) | destruct (Z.ltb_spec (m + 9) 10)]; lia.
  - subst doy. lia.
Qed.

(** The first of a month is the day [days_from_civil] gives for it. *)
Lemma civil_from_days_first y m :
  1 <= m <= 12 → civil_from_days (days_from_civil y m 1) = Civil y m 1.
Proof.
  intros Hm. unfold days_from_civil, civil_from_days.
  set (y' := if m <=? 2 then y - 1 else y).
  assert (Hy : 0 <= y' mod 400 <= 399)
    by (pose proof (Z.mod_pos_bound y' 400 ltac:(lia)); lia).
  destruct (civil_of_doe_first (y' mod 400) m Hy Hm) as [Hb Hc].
  set (doe := doe_of_civil (y' mod 400) m 1) in *.
  replace (y' / 400 * 146097 + doe - 719468 + 719468)
    with (doe + y' / 400 * 146097) by lia.
  rewrite Z.div_add, Z.mod_add by lia.
  rewrite Z.div_small, Z.mod_small by lia.
  rewrite Hc. cbn [year month mday]. f_equal.
  pose proof (Z.div_mod y' 400 ltac:(lia)).
  subst y'. destruct (Z.leb_spec m 2); lia.
Qed.

Lemma Date_ymd_UTC y m d :
  ¬ (0 <= y <= 99) → getFormattedDate (Date_ymd 0 y m d) = isoDate (MakeDay y m d).
Proof.
  intros Hy. unfold Date_ymd, MakeDate. rewrite UTC_fixed.
  destruct (Z.leb_spec 0 y); destruct (Z.leb_spec y 99); cbn [andb]; try lia;
    rewrite getFormattedDate_isoDate; f_equal; unfold Day;
    rewrite Z.mul_0_l, Z.sub_0_r, Z.add_0_r; apply Z.div_mul; discriminate.
Qed.

(** On a host whose local time is UTC, for a clock outside the years
    0..99: "this month" runs from the first of the clock's month to the
    clock's day, "last month" from the first of the month before to the day
    before the first of the clock's month. *)
Lemma reportRange_UTC_months now :
  let c := civil_from_days (Day now) in
  let first := days_from_civil (year c) (month c) 1 in
  let before := if month c =? 1 then Civil (year c - 1) 12 1
                else Civil (year c) (month c - 1) 1 in
  ¬ (0 <= year c <= 99) →
  civil_from_days first = Civil (year c) (month c) 1
  ∧ reportRange 0 now ThisMonth = (isoDate first, isoDate (Day now))
  ∧ ∃ firstBefore,
      civil_from_days firstBefore = before
      ∧ reportRange 0 now LastMonth = (isoDate firstBefore, isoDate (first - 1)).
Proof.
  intros c first before Hy.
  pose proof (civil_from_days_bounds (Day now)) as [Hm _]. fold c in Hm.
  assert (Hloc : LocalTime 0 now = now) by (rewrite LocalTime_fixed; lia).
  assert (Hfy : getFullYear 0 now = year c) by (unfold getFullYear; by rewrite Hloc).
  assert (Hgm : getMonth 0 now = month c - 1) by (unfold getMonth; by rewrite Hloc).
  assert (Hfirst : ∀ d, MakeDay (year c) (month c - 1) d = first + d - 1).
  { intros d. unfold MakeDay, first.
    replace ((month c - 1) / 12) with 0 by (Z.div_mod_to_equations; lia).
    replace ((month c - 1) mod 12 + 1) with (month c) by (Z.div_mod_to_equations; lia).
    by rewrite Z.add_0_r. }
  split; [by apply civil_from_days_first|]. split.
  - unfold reportRange, reportDates. rewrite Hfy, Hgm, Date_ymd_UTC by done.
    rewrite Hfirst, getFormattedDate_isoDate. do 2 f_equal. lia.
  - exists (MakeDay (year c) (month c - 1 - 1) 1). split.
    + unfold MakeDay, before. destruct (Z.eqb_spec (month c) 1) as [E|E].
      * rewrite E. change ((1 - 1 - 1) / 12) with (-1).
        change ((1 - 1 - 1) mod 12 + 1) with 12.
        replace (year c + -1) with (year c - 1) by lia.
        rewrite Z.add_simpl_r. by apply civil_from_days_first.
      * replace ((month c - 1 - 1) / 12) with 0 by (Z.div_mod_to_equations; lia).
        replace ((month c - 1 - 1) mod 12 + 1) with (month c - 1)
          by (Z.div_mod_to_equations; lia).
        rewrite Z.add_0_r, Z.add_simpl_r. apply civil_from_days_first. lia.
    + unfold reportRange, reportDates. rewrite Hfy, Hgm, !Date_ymd_UTC by done.
      rewrite Hfirst. do 2 f_equal. lia.
Qed.

(** On a host whose local time is UTC the ranges of the specification's
    examples come out as written there. *)
Example reportRange_UTC :
  reportRange 0 Samples.friday ThisMonth = ("2024-03-01", "2024-03-15")
  ∧ reportRange 0 Samples.friday LastMonth = ("2024-02-01", "2024-02-29")
  ∧ reportRange 0 Samples.friday ThisWeek = ("2024-03-10", "2024-03-15")
  ∧ reportRange 0 Samples.friday LastWeek = ("2024-03-03", "2024-03-09").
Proof. by vm_compute. Qed.

(** At 02:00 on Sunday 17 March 2024 in India the clock reads
    2024-03-16T20:30Z: "this week" starts and ends on 16 March, a Saturday. *)
Example reportRange_early_Sunday :
  getDay Samples.IST 1710621000000 = 0
  ∧ getDate Samples.IST 1710621000000 = 17
  ∧ reportRange Samples.IST 1710621000000 ThisWeek = ("2024-03-16", "2024-03-16")
  ∧ WeekDay (MakeDate (Day 1710621000000) 0) = 6.
Proof. by vm_compute. Qed.

(** C1, as the code has it.  On a host in India, at 10:00 on 15 March
    2024, the local date is 15 March and so is the date the application
    writes for today, yet "this month" starts on 29 February and "last
    month" runs from 31 January to 28 February: the local midnight built by
    [new Date(year, month, 1)] is written in UTC by [toISOString], which is
    the day before. *)
Theorem reportRange_east_of_Greenwich :
  getFullYear Samples.IST Samples.friday = 2024
  ∧ getMonth Samples.IST Samples.friday = 2
  ∧ getDate Samples.IST Samples.friday = 15
  ∧ getFormattedDate Samples.friday = "2024-03-15"
  ∧ reportRange Samples.IST Samples.friday ThisMonth = ("2024-02-29", "2024-03-15")
  ∧ reportRange Samples.IST Samples.friday LastMonth = ("2024-01-31", "2024-02-28").
Proof. by vm_compute. Qed.

End ReportRange.

(** ** Scenarios *)

Section Scenarios.
Import Samples MoreSamples.

Lemma history_validDates : validDates history.
Proof. unfold validDates, history. repeat constructor; by vm_compute; eexists. Defined.

Lemma history_finite : finiteAmounts history.
Proof. unfold finiteAmounts, history. repeat constructor. Defined.

Lemma history_whole : wholeAmounts history.
Proof.
split; [|by vm_compute].
unfold history. repeat constructor; by vm_compute.
Defined.

Lemma filteredExpenses_spec_witness :
store !! 1%positive = Some history
∧ ∃ r' σ' res,
    filteredExpenses 1%positive (Only Food) "2024-03-15" Amount store = (r', σ')
    ∧ σ' !! 1%positive = Some history
    ∧ σ' !! r' = Some res
    ∧ res = [dinner; lunch]
    ∧ (metro ∉ res).
Proof.
split; [reflexivity|].
destruct (filteredExpenses_spec store 1%positive history (Only Food) "2024-03-15" Amount
            eq_refl)
  as (r' & σ' & res & H1 & H2 & _ & H4 & H5 & _ & H7 & _).
exists r', σ', res. split; [exact H1|]. split; [exact H2|]. split; [exact H4|].
split; [rewrite H5; by vm_compute|].
intros Hin. apply H7 in Hin as (_ & [C|C] & _); discriminate C.
Defined.

Lemma sort_descending_stable_witness :
validDates history ∧ finiteAmounts history
∧ JSArray.sort (compareExpenses Latest) history ≡ₚ history
∧ StronglySorted notBefore (JSArray.sort (compareExpenses Latest) history)
∧ JSArray.sort (compareExpenses Latest) history = [lunch; dinner; metro; rent]
∧ StronglySorted (λ a b, (amount b <=? amount a)%float = true)
    (JSArray.sort (compareExpenses Amount) history)
∧ JSArray.sort (compareExpenses Amount) history = [dinner; rent; lunch; metro].
Proof.
split; [exact history_validDates|]. split; [exact history_finite|].
destruct (sort_descending_stable history) as (HD & (_ & HA)).
destruct (HD history_validDates) as (H1 & H2 & _ & _).
destruct (HA history_finite) as (H6 & _ & _).
split; [exact H1|]. split; [exact H2|]. split; [by vm_compute|].
split; [exact H6 | by vm_compute].
Defined.

Example pieChartData_scenario :
pieChartData scenario = [mkTotal "Food" 100; mkTotal "Transport" 50]
∧ sumNumbers (map value (pieChartData scenario)) = 150%float.
Proof. by vm_compute. Qed.

Lemma pieChartData_spec_witness :
finiteAmounts history ∧ wholeAmounts history
∧ pieChartData history
  = [mkTotal "Food" 850; mkTotal "Transport" 40; mkTotal "Utilities" 600]
∧ sumNumbers (map value (pieChartData history)) = sumAmounts history
∧ sumAmounts history = 1490%float.
Proof.
split; [exact history_finite|]. split; [exact history_whole|].
destruct (pieChartData_spec history history_finite) as (E & _ & _ & H).
split; [rewrite E; by vm_compute|]. split; [exact (H history_whole) | by vm_compute].
Defined.

(** C5 as stated fails.  With the amounts 0.1 and 250.5 for food and 0.2
    for transport the slices are 250.6 and 0.2 and add up to
    250.79999999999998, while the amounts of the list add up to
    250.80000000000001. *)
Lemma pieChartData_counterexample :
finiteAmounts fractions
∧ map name (pieChartData fractions) = ["Food"; "Transport"]
∧ sumNumbers (map value (pieChartData fractions)) = 0x1.f599999999999p+7%float
∧ sumAmounts fractions = 0x1.f59999999999ap+7%float
∧ sumNumbers (map value (pieChartData fractions)) ≠ sumAmounts fractions.
Proof.
split; [unfold finiteAmounts, fractions; repeat constructor|].
split; [by vm_compute|]. split; [by vm_compute|]. split; [by vm_compute|].
intros E. apply (f_equal Prim2SF) in E. vm_compute in E. discriminate E.
Qed.

(** With amounts that are not finite the total of a category is not the
    sum of its amounts: [NaN || 0] starts the total again. *)
Example pieChartData_windfall :
pieChartData windfall = [mkTotal "Food" 5]
∧ is_nan (sumAmounts windfall) = true.
Proof. by vm_compute. Qed.

Lemma weeklyTrendData_fixed_witness :
isoYearRange (friday - 6 * msPerDay) ∧ isoYearRange friday
∧ weeklyTrendData IST friday history
  = [mkBucket "Sat" "2024-03-09" 0; mkBucket "Sun" "2024-03-10" 40;
     mkBucket "Mon" "2024-03-11" 0; mkBucket "Tue" "2024-03-12" 0;
     mkBucket "Wed" "2024-03-13" 0; mkBucket "Thu" "2024-03-14" 0;
     mkBucket "Fri" "2024-03-15" 850]
∧ length (weeklyTrendData IST friday history) = 7%nat.
Proof.
assert (H1 : isoYearRange (friday - 6 * msPerDay))
  by (unfold isoYearRange, friday, msPerDay; lia).
assert (H2 : isoYearRange friday) by (unfold isoYearRange, friday; lia).
split; [exact H1|]. split; [exact H2|].
destruct (weeklyTrendData_spec IST friday history H1 H2) as (E & Hlen & _).
split; [rewrite E; reflexivity | exact Hlen].
Defined.

Example weeklyTrendData_empty :
map b_amount (weeklyTrendData IST friday [])
= [0; 0; 0; 0; 0; 0; 0]%float.
Proof. by vm_compute. Qed.

(** C6, as the code has it on a host with daylight saving.  In New York
    at 19:30 on Tuesday 12 March 2024, two days after the clocks went
    forward, the local day is moved back at the same local hour and then
    written in UTC: the Saturday, still on winter time, is written
    2024-03-10 like the Sunday.  So whatever the expenses are, the series
    has the key 2024-03-10 twice and no bucket for 6 March; an expense of
    10 March is added to the bucket labelled Sat, the bucket labelled Sun
    stays at 0 although an expense carries its key, and an expense of
    6 March is in no bucket. *)
Theorem weeklyTrendData_spring_forward :
getFormattedDate tuesdayEvening = "2024-03-12"
∧ (getFullYear NewYork2024 tuesdayEvening, getMonth NewYork2024 tuesdayEvening,
   getDate NewYork2024 tuesdayEvening) = (2024, 2, 12)
∧ (∀ L, map b_date (weeklyTrendData NewYork2024 tuesdayEvening L)
        = ["2024-03-07"; "2024-03-08"; "2024-03-09"; "2024-03-10"; "2024-03-10";
           "2024-03-11"; "2024-03-12"])
∧ (∀ L, ¬ NoDup (map b_date (weeklyTrendData NewYork2024 tuesdayEvening L)))
∧ weeklyTrendData NewYork2024 tuesdayEvening [bagel; subway]
  = [mkBucket "Wed" "2024-03-07" 0; mkBucket "Thu" "2024-03-08" 0;
     mkBucket "Fri" "2024-03-09" 0; mkBucket "Sat" "2024-03-10" 3;
     mkBucket "Sun" "2024-03-10" 0; mkBucket "Mon" "2024-03-11" 0;
     mkBucket "Tue" "2024-03-12" 0].
Proof.
assert (E : ∀ L, map b_date (weeklyTrendData NewYork2024 tuesdayEvening L)
        = ["2024-03-07"; "2024-03-08"; "2024-03-09"; "2024-03-10"; "2024-03-10";
           "2024-03-11"; "2024-03-12"]).
{ intros L. unfold weeklyTrendData. rewrite fold_addToDay_dates. by vm_compute. }
split; [by vm_compute|]. split; [by vm_compute|]. split; [exact E|].
split; [|by vm_compute].
intros L H. rewrite E in H.
do 3 apply NoDup_cons in H as [_ H]. apply NoDup_cons in H as [H _].
apply H. left.
Qed.

Lemma generateReport_spec_witness :
store !! 1%positive = Some history ∧ validDates history
∧ ∃ rep σ1,
    generateReport IST friday ThisWeek 1%positive store = (rep, σ1)
    ∧ title rep = "This Week Report"
    ∧ σ1 !! 1%positive = Some history
    ∧ σ1 !! expenses rep = Some [lunch; dinner; metro].
Proof.
split; [reflexivity|]. split; [exact history_validDates|].
destruct (generateReport_spec IST friday ThisWeek store 1%positive history eq_refl
            history_validDates)
  as (rep & σ1 & rep' & σ2 & H1 & _ & H3 & _ & H5 & _).
exists rep, σ1. split; [exact H1|]. split.
- rewrite (generateReport_run IST friday ThisWeek store 1%positive history eq_refl) in H1.
  by injection H1 as <- _.
- split; [exact H3|]. rewrite H5. reflexivity.
Defined.

Lemma handleSaveExpense_frame_witness :
(isSome_truthy (p_id newCoffee) = false
 ∧ ∃ e, handleSaveExpense friday newCoffee history = Some (e :: history))
∧ (isSome_truthy (p_id editMetro) = true ∧ asExpense editMetro = Some metro'
   ∧ ∃ l, handleSaveExpense friday editMetro history = Some l
          ∧ length l = 4%nat
          ∧ l !! 0%nat = Some lunch ∧ l !! 1%nat = Some metro').
Proof.
split.
- split; [reflexivity|].
  apply (proj1 (handleSaveExpense_frame friday newCoffee history)). reflexivity.
- split; [reflexivity|]. split; [reflexivity|].
  destruct (proj2 (handleSaveExpense_frame friday editMetro history) metro' eq_refl eq_refl)
    as (l & Hl & Hlen & Hpos & _).
  exists l. split; [exact Hl|]. split; [exact Hlen|]. split.
  + apply (Hpos 0%nat lunch). reflexivity.
  + apply (Hpos 1%nat metro). reflexivity.
Defined.

Lemma handleSaveExpense_invariant_witness :
(checkValidity anyStep blankForm = false
 ∧ requestSubmit anyStep friday None blankForm history = Some history)
∧ (checkValidity anyStep coffeeForm = true
   ∧ NoDup (map id history) ∧ (toISOString friday ∉ map id history)
   ∧ requestSubmit anyStep friday None coffeeForm history
     = Some (mkExpense "2024-03-15T04:30:00.000Z" "2024-03-15" Food 120 "Coffee" UPI
               :: history)
   ∧ NoDup (toISOString friday :: map id history))
∧ (Some editMetro ≫= p_id = Some "b" ∧ truthy "b" = true
   ∧ requestSubmit anyStep friday (Some editMetro) coffeeForm history
     = Some [lunch; mkExpense "b" "2024-03-15" Food 120 "Coffee" UPI; dinner; rent]).
Proof.
assert (Hfresh : toISOString friday ∉ map id history).
{ cbn [map history]. rewrite !elem_of_cons, elem_of_nil.
  intros [E|[E|[E|[E|[]]]]]; vm_compute in E; discriminate. }
assert (Hnd : NoDup (map id history)).
{ cbn [map history].
  repeat (constructor; [rewrite ?elem_of_cons, elem_of_nil; intuition discriminate|]).
  constructor. }
split; [|split].
- split; [reflexivity|].
  apply (proj1 (handleSaveExpense_invariant anyStep friday None blankForm history)).
  reflexivity.
- split; [reflexivity|]. split; [exact Hnd|]. split; [exact Hfresh|].
  destruct (proj2 (handleSaveExpense_invariant anyStep friday None coffeeForm history)
              eq_refl)
    as (a & Ea & _ & _ & _ & _ & _ & _ & _ & Hnew & _).
  injection Ea as <-. destruct (Hnew eq_refl) as [E Hid].
  split; [exact E | exact (Hid Hnd Hfresh)].
- split; [reflexivity|]. split; [reflexivity|].
  destruct (proj2 (handleSaveExpense_invariant anyStep friday (Some editMetro) coffeeForm
                     history) eq_refl)
    as (a & Ea & _ & _ & _ & _ & _ & _ & _ & _ & Hedit).
  injection Ea as <-. exact (proj1 (Hedit "b" eq_refl eq_refl)).
Defined.

(** C2 as stated fails.  Two forms that the browser accepts, submitted at
    the same reading of the clock, are stored under the same identifier;
    and a form whose date has a year of five digits, which the date
    control accepts, is stored with a date that is not written
    YYYY-MM-DD. *)
Lemma handleSaveExpense_counterexample :
checkValidity anyStep coffeeForm = true ∧ checkValidity anyStep teaForm = true
∧ checkValidity anyStep farForm = true
∧ ∃ first second third,
    requestSubmit anyStep friday None coffeeForm [] = Some [first]
    ∧ requestSubmit anyStep friday None teaForm [first] = Some [second; first]
    ∧ description first = "Coffee" ∧ description second = "Tea"
    ∧ id second = id first
    ∧ ¬ NoDup (map id [second; first])
    ∧ requestSubmit anyStep friday None farForm [] = Some [third]
    ∧ date third = "12024-03-15"
    ∧ matchesDatePattern (date third) = false.
Proof.
split; [reflexivity|]. split; [reflexivity|]. split; [reflexivity|].
eexists _, _, _. split; [reflexivity|]. split; [reflexivity|].
split; [reflexivity|]. split; [reflexivity|]. split; [reflexivity|].
split; [|split; [reflexivity|split; reflexivity]].
intros H. apply NoDup_cons in H as [H _]. apply H. cbn. left.
Qed.

Lemma getSavingTips_total_witness :
isSome_truthy (Some "key") = true ∧ history ≠ []
∧ offline [Gemini.Text (Gemini.tipsPrompt showNumber history)] = Gemini.Rejected "503"
∧ Gemini.getSavingTips (Some "key") offline showNumber history
  = Gemini.Fulfilled Gemini.apologyTips
∧ Gemini.getSavingTips None offline showNumber history
  = Gemini.Fulfilled Gemini.unavailableTips
∧ Gemini.getSavingTips (Some "key") offline showNumber []
  = Gemini.Fulfilled Gemini.addExpensesTips.
Proof.
split; [reflexivity|]. split; [discriminate|]. split; [reflexivity|].
split; [|split].
- destruct (getSavingTips_total (Some "key") offline showNumber history)
    as (tips & E & _ & _ & H).
  rewrite E. f_equal. apply (proj1 (H eq_refl ltac:(discriminate)) "503"). reflexivity.
- destruct (getSavingTips_total None offline showNumber history) as (tips & E & H & _).
  rewrite E. f_equal. apply H. reflexivity.
- destruct (getSavingTips_total (Some "key") offline showNumber []) as (tips & E & _ & H & _).
  rewrite E. f_equal. apply H; reflexivity.
Defined.

Example extractExpenseFromImage_scenario :
Gemini.extractExpenseFromImage (Some "key") (answers " groceries ") parser friday
  "image/png" "" CATEGORIES
= Gemini.Fulfilled
    (mkPartial None (Some "2024-03-15") (Some Other) (Some 300%float) (Some "Store")
               (Some UPI))
∧ Gemini.extractExpenseFromImage (Some "key") (answers "taxi") parser friday
    "image/png" "" CATEGORIES
  = Gemini.Fulfilled
      (mkPartial None (Some "2024-03-14") (Some Transport) (Some 180%float) (Some "Taxi")
                 (Some Card)).
Proof. by vm_compute. Qed.


End Scenarios.

(** ** The calendar in both directions *)

Section CalendarRoundTrip.

Lemma isLeap_spec y :
  isLeap y = true ↔ (y mod 4 = 0 ∧ (y mod 100 ≠ 0 ∨ y mod 400 = 0)).
Proof.
  unfold isLeap. rewrite andb_true_iff, orb_true_iff, negb_true_iff, !Z.eqb_eq, Z.eqb_neq. tauto.
Qed.

Lemma civil_of_doe_doy doe :
  0 <= doe < 146097 →
  let yoe := (doe - doe / 1460 + doe / 36524 - doe / 146096) / 365 in
  let doy := doe - (365 * yoe + yoe / 4 - yoe / 100) in
  0 <= yoe <= 399 ∧ 0 <= doy <= 365 ∧
  (doy = 365 → (yoe + 1) mod 4 = 0 ∧ ((yoe + 1) mod 100 ≠ 0 ∨ (yoe + 1) mod 400 = 0)).
Proof. intros H yoe doy. subst doy yoe. Z.div_mod_to_equations. lia. Qed.

Lemma yoe_recover yoe doy :
  0 <= yoe <= 399 → 0 <= doy <= 365 →
  (doy = 365 → (yoe + 1) mod 4 = 0 ∧ ((yoe + 1) mod 100 ≠ 0 ∨ (yoe + 1) mod 400 = 0)) →
  let doe := yoe * 365 + yoe / 4 - yoe / 100 + doy in
  0 <= doe < 146097 ∧ (doe - doe / 1460 + doe / 36524 - doe / 146096) / 365 = yoe.
Proof. intros Hy Hd Hl doe. subst doe. Z.div_mod_to_equations. lia. Qed.

(** Month lengths in the numbering that starts in March. *)
Lemma daysInMonth_mp y m :
  1 <= m <= 12 →
  let mp := if 2 <? m then m - 3 else m + 9 in
  0 <= mp <= 11
  ∧ (mp <= 10 → (153 * (mp + 1) + 2) / 5 - (153 * mp + 2) / 5 = daysInMonth y m)
  ∧ (mp = 11 → m = 2 ∧ (153 * mp + 2) / 5 = 337).
Proof.
  intros Hm.
  assert (Hc : m = 1 ∨ m = 2 ∨ m = 3 ∨ m = 4 ∨ m = 5 ∨ m = 6 ∨ m = 7 ∨ m = 8 ∨ m = 9
               ∨ m = 10 ∨ m = 11 ∨ m = 12) by lia.
  repeat (destruct Hc as [-> | Hc]; [vm_compute; repeat split; intros; try congruence; try discriminate; try lia |]).
  subst. vm_compute; repeat split; intros; try congruence; try discriminate.
Qed.

(** [civil_of_doe] recovers a year of era, a March-based month and a day. *)
Lemma civil_of_doe_recover yoe mp d :
  0 <= yoe <= 399 → 0 <= mp <= 11 → 1 <= d →
  (mp <= 10 → d <= (153 * (mp + 1) + 2) / 5 - (153 * mp + 2) / 5) →
  (mp = 11 → d <= 29 ∧ (d = 29 → (yoe + 1) mod 4 = 0
                         ∧ ((yoe + 1) mod 100 ≠ 0 ∨ (yoe + 1) mod 400 = 0))) →
  let doe := yoe * 365 + yoe / 4 - yoe / 100 + ((153 * mp + 2) / 5 + d - 1) in
  0 <= doe < 146097
  ∧ civil_of_doe doe = Civil yoe (if mp <? 10 then mp + 3 else mp - 9) d.
Proof.
  intros Hy Hmp Hd Hlen Hfeb doe.
  set (doy := (153 * mp + 2) / 5 + d - 1).
  assert (Hdoy : 0 <= doy <= 365 ∧ (doy = 365 → mp = 11 ∧ d = 29)
                 ∧ (5 * doy + 2) / 153 = mp).
  { subst doy. destruct (Z.eq_dec mp 11) as [->|Hne].
    - specialize (Hfeb eq_refl). change ((153 * 11 + 2) / 5) with 337.
      Z.div_mod_to_equations. lia.
    - specialize (Hlen ltac:(lia)). Z.div_mod_to_equations. lia. }
  destruct Hdoy as (Hb & H365 & Emp).
  destruct (yoe_recover yoe doy Hy Hb) as [Hdoe Eyoe].
  { intros E. destruct (H365 E) as [E1 E2]. by apply Hfeb. }
  cbn zeta in Hdoe, Eyoe.
  change (yoe * 365 + yoe / 4 - yoe / 100 + doy) with doe in Hdoe, Eyoe.
  split; [exact Hdoe|]. unfold civil_of_doe. rewrite Eyoe.
  replace (doe - (365 * yoe + yoe / 4 - yoe / 100)) with doy by (subst doe; lia).
  rewrite Emp. f_equal. subst doy. lia.
Qed.

(** Round trip from a calendar date. *)
Lemma civil_from_days_from_civil y m d :
  validCivil (Civil y m d) → civil_from_days (days_from_civil y m d) = Civil y m d.
Proof.
  intros [Hm Hd]. cbn [year month mday] in *.
  unfold days_from_civil, civil_from_days.
  set (y' := if m <=? 2 then y - 1 else y).
  destruct (daysInMonth_mp y m Hm) as (Hmp & Hlen & Hfeb).
  set (mp := if 2 <? m then m - 3 else m + 9) in *.
  assert (Hy : 0 <= y' mod 400 <= 399)
    by (pose proof (Z.mod_pos_bound y' 400 ltac:(lia)); lia).
  destruct (civil_of_doe_recover (y' mod 400) mp d Hy Hmp) as [Hb Hc].
  { lia. }
  { intros Hle. rewrite (Hlen Hle). lia. }
  { intros E. destruct (Hfeb E) as [-> _]. unfold daysInMonth in Hd. cbn in Hd.
    destruct (isLeap y) eqn:El; [|lia]. split; [lia|]. intros _.
    apply isLeap_spec in El. subst y'. cbn. Z.div_mod_to_equations. lia. }
  assert (Edoe : doe_of_civil (y' mod 400) m d
                 = y' mod 400 * 365 + y' mod 400 / 4 - y' mod 400 / 100
                   + ((153 * mp + 2) / 5 + d - 1)) by reflexivity.
  rewrite Edoe. set (doe := _ + ((153 * mp + 2) / 5 + d - 1)) in *.
  replace (y' / 400 * 146097 + doe - 719468 + 719468)
    with (doe + y' / 400 * 146097) by lia.
  rewrite Z.div_add, Z.mod_add by lia.
  rewrite Z.div_small, Z.mod_small by lia.
  rewrite Hc. cbn [year month mday].
  assert (Em : (if mp <? 10 then mp + 3 else mp - 9) = m).
  { subst mp. destruct (Z.ltb_spec 2 m);
      [destruct (Z.ltb_spec (m - 3) 10) | destruct (Z.ltb_spec (m + 9) 10)]; lia. }
  rewrite Em. f_equal.
  pose proof (Z.div_mod y' 400 ltac:(lia)).
  subst y'. destruct (Z.leb_spec m 2); lia.
Qed.

(** Every day number is a date of the calendar. *)
Lemma civil_from_days_valid z : validCivil (civil_from_days z).
Proof.
  split; [apply civil_from_days_bounds|].
  split; [apply civil_from_days_bounds|].
  unfold civil_from_days. cbn [year month mday].
  assert (Hd : 0 <= (z + 719468) mod 146097 < 146097) by (apply Z.mod_pos_bound; lia).
  set (doe := (z + 719468) mod 146097) in *. set (era := (z + 719468) / 146097).
  unfold civil_of_doe. cbn [year month mday].
  destruct (civil_of_doe_doy doe Hd) as (Hy & Hdoy & Hleap).
  set (yoe := (doe - doe / 1460 + doe / 36524 - doe / 146096) / 365) in *.
  set (doy := doe - (365 * yoe + yoe / 4 - yoe / 100)) in *.
  set (mp := (5 * doy + 2) / 153).
  assert (Hmp : 0 <= mp <= 11) by (subst mp; Z.div_mod_to_equations; lia).
  set (m := if mp <? 10 then mp + 3 else mp - 9).
  assert (Hm : 1 <= m <= 12 ∧ (if 2 <? m then m - 3 else m + 9) = mp).
  { subst m. destruct (Z.ltb_spec mp 10);
      [destruct (Z.ltb_spec 2 (mp + 3)) | destruct (Z.ltb_spec 2 (mp - 9))]; lia. }
  destruct Hm as [Hm Emp].
  set (y := if m <=? 2 then yoe + era * 400 + 1 else yoe + era * 400).
  destruct (daysInMonth_mp y m Hm) as (_ & Hlen & Hfeb). rewrite Emp in Hlen, Hfeb.
  destruct (Z.eq_dec mp 11) as [E11|Hne].
  - destruct (Hfeb E11) as [Em2 ES]. rewrite Em2.
    change (daysInMonth y 2) with (if isLeap y then 29 else 28).
    rewrite ES.
    destruct (isLeap y) eqn:El; [lia|].
    assert (doy <> 365); [|lia]. intros E. apply Hleap in E.
    assert (isLeap y = true); [|congruence].
    apply isLeap_spec. subst y. rewrite Em2. cbn. Z.div_mod_to_equations. lia.
  - rewrite <- (Hlen ltac:(lia)). subst mp. Z.div_mod_to_equations. lia.
Qed.

Ltac split_tests :=
  repeat match goal with
         | |- context [?a <=? ?b] => destruct (Z.leb_spec a b)
         | |- context [?a <? ?b] => destruct (Z.ltb_spec a b)
         | |- context [?a =? ?b] => destruct (Z.eqb_spec a b)
         end.

Lemma days_from_civil_next_month y m :
  1 <= m <= 11 →
  days_from_civil y (m + 1) 1 = days_from_civil y m (daysInMonth y m) + 1.
Proof.
  intros Hm. destruct (Z.eq_dec m 2) as [->|Hne].
  - change (daysInMonth y 2) with (if isLeap y then 29 else 28).
    unfold days_from_civil, doe_of_civil.
    change (2 <=? 2) with true. change (2 + 1 <=? 2) with false.
    change (2 <? 2 + 1) with true. change (2 <? 2) with false. cbn iota.
    change ((153 * (2 + 1 - 3) + 2) / 5) with 0. change ((153 * (2 + 9) + 2) / 5) with 337.
    destruct (isLeap y) eqn:El.
    + apply isLeap_spec in El. Z.div_mod_to_equations. lia.
    + assert (Hn : ¬ (y mod 4 = 0 ∧ (y mod 100 ≠ 0 ∨ y mod 400 = 0))).
      { intros H. apply isLeap_spec in H. congruence. }
      Z.div_mod_to_equations. lia.
  - unfold days_from_civil, doe_of_civil, daysInMonth.
    split_tests; cbn [orb]; try lia; Z.div_mod_to_equations; lia.
Qed.

Lemma days_from_civil_next_year y :
  days_from_civil (y + 1) 1 1 = days_from_civil y 12 31 + 1.
Proof.
  unfold days_from_civil, doe_of_civil.
  change (1 <=? 2) with true. change (12 <=? 2) with false.
  change (2 <? 1) with false. change (2 <? 12) with true. cbn iota.
  change ((153 * (1 + 9) + 2) / 5) with 306. change ((153 * (12 - 3) + 2) / 5) with 275.
  replace (y + 1 - 1) with y by lia. lia.
Qed.

(** The day after: the date, read as the number YYYYMMDD, grows. *)
Lemma dateKey_succ z : dateKey (civil_from_days z) < dateKey (civil_from_days (z + 1)).
Proof.
  pose proof (civil_from_days_valid z) as [Hm Hd].
  pose proof (days_from_civil_from_days z) as Hr. cbn zeta in Hr.
  destruct (civil_from_days z) as [y m d] eqn:E. cbn [year month mday] in *.
  destruct (Z.eq_dec d (daysInMonth y m)) as [Elast|Hne].
  - destruct (Z.eq_dec m 12) as [->|Hm12].
    + assert (Ez : z + 1 = days_from_civil (y + 1) 1 1).
      { rewrite days_from_civil_next_year. change (daysInMonth y 12) with 31 in Elast.
        rewrite <- Elast, Hr. done. }
      rewrite Ez, civil_from_days_from_civil.
      * unfold dateKey. cbn [year month mday]. change (daysInMonth y 12) with 31 in Hd. lia.
      * split; cbn; lia.
    + assert (Ez : z + 1 = days_from_civil y (m + 1) 1).
      { rewrite days_from_civil_next_month by lia. rewrite <- Elast, Hr. done. }
      rewrite Ez, civil_from_days_from_civil.
      * unfold dateKey. cbn [year month mday].
        assert (daysInMonth y m <= 31); [|lia].
        unfold daysInMonth. repeat destruct (_ =? _); cbn; try destruct (isLeap y); lia.
      * split; cbn [year month mday]; [lia|]. split; [lia|].
        unfold daysInMonth. repeat destruct (_ =? _); cbn; try destruct (isLeap y); lia.
  - assert (Ez : z + 1 = days_from_civil y m (d + 1)).
    { rewrite (days_from_civil_shift y m d (d + 1)), Hr. lia. }
    rewrite Ez, civil_from_days_from_civil.
    + unfold dateKey. cbn [year month mday]. lia.
    + split; cbn [year month mday]; lia.
Qed.

Lemma dateKey_lt z1 z2 :
  z1 < z2 → dateKey (civil_from_days z1) < dateKey (civil_from_days z2).
Proof.
  intros H. replace z2 with (z1 + 1 + Z.of_nat (Z.to_nat (z2 - z1 - 1))) by lia.
  generalize (Z.to_nat (z2 - z1 - 1)). intros n. induction n as [|n IH].
  - rewrite Z.add_0_r. apply dateKey_succ.
  - etrans; [exact IH|].
    replace (z1 + 1 + Z.of_nat (S n)) with (z1 + 1 + Z.of_nat n + 1) by lia.
    apply dateKey_succ.
Qed.

(** The calendar is monotone: a later day has a larger YYYYMMDD. *)
Lemma dateKey_mono z1 z2 :
  z1 <= z2 ↔ dateKey (civil_from_days z1) <= dateKey (civil_from_days z2).
Proof.
  split; intros H.
  - destruct (Z.eq_dec z1 z2) as [->|Hne]; [lia|].
    pose proof (dateKey_lt z1 z2 ltac:(lia)). lia.
  - destruct (Z.le_gt_cases z1 z2) as [|Hgt]; [done|].
    pose proof (dateKey_lt z2 z1 ltac:(lia)). lia.
Qed.

End CalendarRoundTrip.

(** ** Dates as strings *)

Section DateStrings.

Lemma N_of_ascii_digit n : Z.of_N (N_of_ascii (digit n)) = 48 + n mod 10.
Proof.
  unfold digit. pose proof (Z.mod_pos_bound n 10 ltac:(lia)) as Hb.
  assert (Hk : n mod 10 = 0 ∨ n mod 10 = 1 ∨ n mod 10 = 2 ∨ n mod 10 = 3
               ∨ n mod 10 = 4 ∨ n mod 10 = 5 ∨ n mod 10 = 6 ∨ n mod 10 = 7
               ∨ n mod 10 = 8 ∨ n mod 10 = 9) by lia.
  repeat (destruct Hk as [Hk | Hk]; [rewrite Hk; reflexivity |]).
  rewrite Hk; reflexivity.
Qed.

Lemma Ascii_compare_digit a b :
  Ascii.compare (digit a) (digit b) = (a mod 10 ?= b mod 10).
Proof.
  unfold Ascii.compare. rewrite <- N2Z.inj_compare, !N_of_ascii_digit.
  apply Z.add_compare_mono_l.
Qed.

Lemma digitVal_inv c v : digitVal c = Some v → c = digit v ∧ 0 <= v <= 9.
Proof.
  unfold digitVal.
  destruct (Z.leb_spec 48 (Z.of_N (N_of_ascii c)));
    destruct (Z.leb_spec (Z.of_N (N_of_ascii c)) 57); cbn [andb]; try discriminate.
  intros [= <-]. split; [|lia].
  rewrite <- (ascii_N_embedding c) at 1. unfold digit, ascii_of_nat. f_equal.
  rewrite Z.mod_small by lia. lia.
Qed.

Lemma fmtDate_compare y1 m1 d1 y2 m2 d2 :
  0 <= y1 <= 9999 → 0 <= m1 <= 99 → 0 <= d1 <= 99 →
  0 <= y2 <= 9999 → 0 <= m2 <= 99 → 0 <= d2 <= 99 →
  String.compare (fmtDate y1 m1 d1) (fmtDate y2 m2 d2)
  = (10000 * y1 + 100 * m1 + d1 ?= 10000 * y2 + 100 * m2 + d2).
Proof.
  intros Hy1 Hm1 Hd1 Hy2 Hm2 Hd2.
  unfold fmtDate, pad4, pad3, pad2.
  repeat (rewrite append_String || rewrite append_Empty).
  cbn [String.compare]. rewrite !Ascii_compare_digit.
  change (Ascii.compare "-" "-") with Eq. cbn iota.
  assert (E1 : y1 = 1000 * (y1 / 1000 mod 10) + 100 * (y1 / 100 mod 10)
               + 10 * (y1 / 10 mod 10) + y1 mod 10) by (Z.div_mod_to_equations; lia).
  assert (E2 : y2 = 1000 * (y2 / 1000 mod 10) + 100 * (y2 / 100 mod 10)
               + 10 * (y2 / 10 mod 10) + y2 mod 10) by (Z.div_mod_to_equations; lia).
  assert (E3 : m1 = 10 * (m1 / 10 mod 10) + m1 mod 10) by (Z.div_mod_to_equations; lia).
  assert (E4 : m2 = 10 * (m2 / 10 mod 10) + m2 mod 10) by (Z.div_mod_to_equations; lia).
  assert (E5 : d1 = 10 * (d1 / 10 mod 10) + d1 mod 10) by (Z.div_mod_to_equations; lia).
  assert (E6 : d2 = 10 * (d2 / 10 mod 10) + d2 mod 10) by (Z.div_mod_to_equations; lia).
  repeat match goal with
         | |- context [?a mod 10] =>
             let H := fresh "B" in
             pose proof (Z.mod_pos_bound a 10 ltac:(lia)) as H;
             generalize dependent (a mod 10); intros
         end.
  symmetry.
  repeat match goal with
         | |- context [match ?a ?= ?b with _ => _ end] =>
             destruct (Z.compare_spec a b);
             [ | apply Z.compare_lt_iff; lia | apply Z.compare_gt_iff; lia ]
         end.
  apply Z.compare_eq_iff. lia.
Qed.

Lemma digit_ext a b : a mod 10 = b mod 10 → digit a = digit b.
Proof. intros H. unfold digit. by rewrite H. Qed.

Lemma daysInMonth_le_31 y m : daysInMonth y m <= 31.
Proof.
  unfold daysInMonth. repeat destruct (_ =? _); cbn; try destruct (isLeap y); lia.
Qed.

(** What [Date_parse] accepts: the ten characters of a date of the
    calendar, years 0000..9999. *)
Lemma Date_parse_inv s t :
  Date_parse s = Some t →
  ∃ y m d, s = fmtDate y m d ∧ 0 <= y <= 9999 ∧ validCivil (Civil y m d)
           ∧ t = days_from_civil y m d * msPerDay.
Proof.
  unfold Date_parse. intros H.
  rewrite <- (string_of_list_ascii_of_string s).
  destruct (list_ascii_of_string s)
    as [|y1 [|y2 [|y3 [|y4 [|s1 [|m1 [|m2 [|s2 [|d1 [|d2 [|]]]]]]]]]]]; try discriminate.
  destruct (digitVal y1) as [a|] eqn:Ea; [|discriminate].
  destruct (digitVal y2) as [b|] eqn:Eb; [|discriminate].
  destruct (digitVal y3) as [c|] eqn:Ec; [|discriminate].
  destruct (digitVal y4) as [d|] eqn:Ed; [|discriminate].
  destruct (digitVal m1) as [e|] eqn:Ee; [|discriminate].
  destruct (digitVal m2) as [f|] eqn:Ef; [|discriminate].
  destruct (digitVal d1) as [g|] eqn:Eg; [|discriminate].
  destruct (digitVal d2) as [h|] eqn:Eh; [|discriminate].
  cbn [mbind option_bind] in H.
  apply digitVal_inv in Ea as [-> Ba], Eb as [-> Bb], Ec as [-> Bc], Ed as [-> Bd],
    Ee as [-> Be], Ef as [-> Bf], Eg as [-> Bg], Eh as [-> Bh].
  destruct (Ascii.eqb_spec s1 "-") as [->|]; [|discriminate].
  destruct (Ascii.eqb_spec s2 "-") as [->|]; [|discriminate].
  cbn [andb] in H.
  set (y := 1000 * a + 100 * b + 10 * c + d) in *.
  set (m := 10 * e + f) in *. set (dd := 10 * g + h) in *.
  destruct (Z.leb_spec 1 m); [|discriminate].
  destruct (Z.leb_spec m 12); [|discriminate].
  destruct (Z.leb_spec 1 dd); [|discriminate].
  destruct (Z.leb_spec dd (daysInMonth y m)); [|discriminate].
  cbn [andb] in H. injection H as <-.
  exists y, m, dd. split; [|split; [subst y; lia|split]].
  - cbn [string_of_list_ascii]. unfold fmtDate, pad4, pad3, pad2.
    repeat (rewrite append_String || rewrite append_Empty).
    rewrite (digit_ext (y / 1000) a), (digit_ext (y / 100) b), (digit_ext (y / 10) c),
      (digit_ext y d), (digit_ext (m / 10) e), (digit_ext m f), (digit_ext (dd / 10) g),
      (digit_ext dd h) by (subst y m dd; Z.div_mod_to_equations; lia).
    reflexivity.
  - split; cbn [year month mday]; lia.
  - unfold MakeDate. lia.
Qed.

(** What [toISOString] writes is read back by [Date_parse]. *)
Lemma Date_parse_fmtDate y m d :
  0 <= y <= 9999 → validCivil (Civil y m d) →
  Date_parse (fmtDate y m d) = Some (days_from_civil y m d * msPerDay).
Proof.
  intros Hy [Hm Hd]. cbn [year month mday] in *.
  pose proof (daysInMonth_le_31 y m).
  unfold Date_parse, fmtDate, pad4, pad3, pad2.
  repeat (rewrite append_String || rewrite append_Empty).
  cbn [list_ascii_of_string]. rewrite !digitVal_digit. cbn [mbind option_bind].
  change (Ascii.eqb "-" "-") with true. cbn [andb].
  replace (1000 * (y / 1000 mod 10) + 100 * (y / 100 mod 10) + 10 * (y / 10 mod 10)
           + y mod 10) with y by (Z.div_mod_to_equations; lia).
  replace (10 * (m / 10 mod 10) + m mod 10) with m by (Z.div_mod_to_equations; lia).
  replace (10 * (d / 10 mod 10) + d mod 10) with d by (Z.div_mod_to_equations; lia).
  destruct (Z.leb_spec 1 m); [|lia]. destruct (Z.leb_spec m 12); [|lia].
  destruct (Z.leb_spec 1 d); [|lia]. destruct (Z.leb_spec d (daysInMonth y m)); [|lia].
  cbn [andb]. unfold MakeDate. f_equal. lia.
Qed.

Lemma isoDate_fmtDate z :
  0 <= year (civil_from_days z) <= 9999 →
  isoDate z = fmtDate (year (civil_from_days z)) (month (civil_from_days z))
                      (mday (civil_from_days z)).
Proof. apply isoDate_four_digit. Qed.

Lemma Date_parse_isoDate z :
  0 <= year (civil_from_days z) <= 9999 → Date_parse (isoDate z) = Some (z * msPerDay).
Proof.
  intros Hy. rewrite isoDate_fmtDate by done.
  pose proof (civil_from_days_valid z) as Hv.
  pose proof (days_from_civil_from_days z) as Hr. cbn zeta in Hr.
  destruct (civil_from_days z) as [y m d]. cbn [year month mday] in *.
  rewrite Date_parse_fmtDate by done. by rewrite Hr.
Qed.

Lemma Date_parse_Day s t :
  Date_parse s = Some t →
  t = Day t * msPerDay ∧ isoDate (Day t) = s ∧ 0 <= year (civil_from_days (Day t)) <= 9999.
Proof.
  intros H. apply Date_parse_inv in H as (y & m & d & -> & Hy & Hv & ->).
  assert (E : Day (days_from_civil y m d * msPerDay) = days_from_civil y m d)
    by (unfold Day; apply Z.div_mul; discriminate).
  rewrite E. split; [done|].
  pose proof (civil_from_days_from_civil y m d Hv) as Hc.
  rewrite isoDate_fmtDate; rewrite Hc; cbn [year month mday]; done.
Qed.

(** On dates of the calendar the order of the strings is the order of the
    days. *)
Lemma Date_parse_leb s1 s2 t1 t2 :
  Date_parse s1 = Some t1 → Date_parse s2 = Some t2 →
  String.leb s1 s2 = (t1 <=? t2).
Proof.
  intros H1 H2.
  apply Date_parse_inv in H1 as (y1 & m1 & d1 & -> & Hy1 & Hv1 & ->).
  apply Date_parse_inv in H2 as (y2 & m2 & d2 & -> & Hy2 & Hv2 & ->).
  pose proof (daysInMonth_le_31 y1 m1). pose proof (daysInMonth_le_31 y2 m2).
  pose proof (dateKey_mono (days_from_civil y1 m1 d1) (days_from_civil y2 m2 d2)) as Hmono.
  rewrite !civil_from_days_from_civil in Hmono by done.
  unfold dateKey in Hmono. cbn [year month mday] in Hmono.
  destruct Hv1 as [Hm1 Hd1], Hv2 as [Hm2 Hd2]. cbn [year month mday] in *.
  unfold String.leb. rewrite fmtDate_compare by lia.
  destruct (Z.compare_spec (10000 * y1 + 100 * m1 + d1) (10000 * y2 + 100 * m2 + d2));
    symmetry; [apply Z.leb_le | apply Z.leb_le | apply Z.leb_gt]; unfold msPerDay; lia.
Qed.

End DateStrings.

(** ** Deleting, editing and the form *)

Section Bookkeeping.

Lemma filter_sublist {A} (f : A → bool) (l : list A) : List.filter f l `sublist_of` l.
Proof.
  induction l as [|x l IH]; cbn; [constructor|].
  destruct (f x); by constructor.
Qed.

(** X1.  The delete button: without the confirmation nothing changes; with it
    every expense carrying the identifier goes and the others stay, in
    their order; an identifier that is not in the list deletes nothing. *)
Theorem handleDeleteExpense_spec (confirmed : bool) (id' : string) (prev : list Expense) :
  let l := handleDeleteExpense confirmed id' prev in
  (l `sublist_of` prev)
  ∧ (confirmed = false → l = prev)
  ∧ (confirmed = true →
       (id' ∉ map id l) ∧ ∀ e, e ∈ prev → id e ≠ id' → e ∈ l)
  ∧ (id' ∉ map id prev → l = prev).
Proof.
  intros l. subst l. unfold handleDeleteExpense. split; [|split; [|split]].
  - destruct confirmed; [apply filter_sublist | done].
  - by intros ->.
  - intros ->. split.
    + intros H. apply list_elem_of_In, in_map_iff in H as (e & He & Hin).
      apply filter_In in Hin as [_ Hne]. rewrite He, String.eqb_refl in Hne. done.
    + intros e He Hne. apply list_elem_of_In, filter_In. split; [by apply list_elem_of_In|].
      apply negb_true_iff, String.eqb_neq. done.
  - intros Hout. destruct confirmed; [|done]. apply filter_all.
    intros e He. apply negb_true_iff, String.eqb_neq. intros E. apply Hout.
    rewrite <- E. apply list_elem_of_In, in_map, list_elem_of_In, He.
Qed.

(** X2.  Saving a new expense and deleting it again gives the list back, when
    no stored expense carries the timestamp of the creation. *)
Theorem save_then_delete (now : Z) (expenseToSave : PartialExpense) (prev : list Expense) :
  isSome_truthy (p_id expenseToSave) = false →
  toISOString now ∉ map id prev →
  ∃ newExpense,
    handleSaveExpense now expenseToSave prev = Some (newExpense :: prev)
    ∧ handleDeleteExpense true (id newExpense) (newExpense :: prev) = prev.
Proof.
  intros Hid Hfresh. unfold handleSaveExpense. rewrite Hid.
  eexists. split; [reflexivity|]. cbn [id handleDeleteExpense List.filter].
  rewrite String.eqb_refl. cbn [negb]. apply filter_all.
  intros e He. apply negb_true_iff, String.eqb_neq. intros E. apply Hfresh.
  rewrite <- E. apply list_elem_of_In, in_map, list_elem_of_In, He.
Qed.

Lemma NoDup_ids_same (prev : list Expense) e e' :
  NoDup (map id prev) → e ∈ prev → e' ∈ prev → id e' = id e → e' = e.
Proof.
  induction prev as [|x prev IH]; intros Hnd He He'; [by apply elem_of_nil in He|].
  cbn in Hnd. apply NoDup_cons in Hnd as [Hx Hnd].
  apply elem_of_cons in He as [->|He], He' as [->|He']; intros E.
  - done.
  - exfalso. apply Hx. rewrite <- E. apply list_elem_of_In, in_map, list_elem_of_In, He'.
  - exfalso. apply Hx. rewrite E. apply list_elem_of_In, in_map, list_elem_of_In, He.
  - by apply IH.
Qed.

Lemma exactSum_delete w (prev : list Expense) e :
  NoDup (map id prev) → e ∈ prev →
  exactSum w (List.filter (λ x, negb (String.eqb (id x) (id e))) prev)
  = exactSum w prev - w e.
Proof.
  induction prev as [|x prev IH]; intros Hnd He; [by apply elem_of_nil in He|].
  cbn in Hnd. apply NoDup_cons in Hnd as [Hx Hnd]. cbn [List.filter].
  rewrite exactSum_cons.
  destruct (String.eqb_spec (id x) (id e)) as [E|E]; cbn [negb].
  - assert (x = e) as ->.
    { apply elem_of_cons in He as [->|He]; [done|]. exfalso. apply Hx.
      rewrite E. apply list_elem_of_In, in_map, list_elem_of_In, He. }
    rewrite filter_all; [lia|]. intros y Hy. apply negb_true_iff, String.eqb_neq.
    intros E'. apply Hx. rewrite <- E'. apply list_elem_of_In, in_map, list_elem_of_In, Hy.
  - apply elem_of_cons in He as [->|He]; [done|].
    rewrite exactSum_cons, IH by done. lia.
Qed.

(** The sum of whole amounts less one of them is exact. *)
Lemma sumAmounts_less (prev : list Expense) e :
  NoDup (map id prev) → e ∈ prev → wholeAmounts prev →
  isWhole (sumAmounts prev - amount e) (exactSum rupees prev - rupees e)
  ∧ numberTotal (sumAmounts prev - amount e)
  ∧ Z.abs (exactSum rupees prev - rupees e) <= exactSum (λ x, Z.abs (rupees x)) prev.
Proof.
  intros Hnd He Hw.
  destruct (sumAmounts_whole prev Hw) as [W T]. pose proof Hw as [Ha Hb].
  rewrite Forall_forall in Ha. specialize (Ha e He).
  assert (B : Z.abs (exactSum rupees prev - rupees e)
              <= exactSum (λ x, Z.abs (rupees x)) prev).
  { rewrite <- (exactSum_delete rupees prev e Hnd He).
    etrans; [apply exactSum_abs|]. apply exactSum_filter_le. intros; lia. }
  split; [|split; [|exact B]].
  - apply sub_whole; [done | done | lia].
  - apply sub_total; [done | by apply (isWhole_finite _ _ Ha)].
Qed.

(** X3.  With distinct identifiers, deleting a stored expense removes it,
    shortens the list by one and leaves the identifiers distinct; when
    the amounts are whole numbers whose magnitudes add up to less than
    2^53, the sum of the amounts goes down by the amount of the deleted
    expense. *)
Theorem delete_lowers_total (prev : list Expense) (e : Expense) :
  NoDup (map id prev) → e ∈ prev →
  let l := handleDeleteExpense true (id e) prev in
  (wholeAmounts prev → sumAmounts l = (sumAmounts prev - amount e)%float)
  ∧ (e ∉ l)
  ∧ length l = Nat.pred (length prev)
  ∧ NoDup (map id l).
Proof.
  intros Hnd He l. subst l. cbn [handleDeleteExpense].
  split; [|split; [|split]].
  - intros Hw.
    destruct (sumAmounts_whole _ (wholeAmounts_filter
                (λ x, negb (String.eqb (id x) (id e))) prev Hw)) as [W1 T1].
    rewrite (exactSum_delete rupees prev e Hnd He) in W1.
    destruct (sumAmounts_less prev e Hnd He Hw) as (W2 & T2 & _).
    exact (isWhole_inj _ _ _ T1 T2 W1 W2).
  - intros H. apply list_elem_of_In, filter_In in H as [_ H].
    by rewrite String.eqb_refl in H.
  - clear -Hnd He. induction prev as [|x prev IH]; [by apply elem_of_nil in He|].
    cbn in Hnd. apply NoDup_cons in Hnd as [Hx Hnd]. cbn [List.filter length Nat.pred].
    destruct (String.eqb_spec (id x) (id e)) as [E|E]; cbn [negb].
    + rewrite filter_all; [done|]. intros y Hy. apply negb_true_iff, String.eqb_neq.
      intros E'. apply Hx. rewrite E, <- E'.
      apply list_elem_of_In, in_map, list_elem_of_In, Hy.
    + apply elem_of_cons in He as [->|He]; [congruence|]. cbn [length].
      rewrite IH by done. destruct prev; [by apply elem_of_nil in He | reflexivity].
  - eapply sublist_NoDup; [exact Hnd|].
    change (id <$> List.filter (λ x, negb (String.eqb (id x) (id e))) prev
            `sublist_of` id <$> prev).
    apply fmap_sublist, filter_sublist.
Qed.

Lemma exactSum_replace w (prev : list Expense) e u :
  NoDup (map id prev) → e ∈ prev → id u = id e →
  exactSum w (map (λ x, if String.eqb (id x) (id u) then u else x) prev)
  = exactSum w prev - w e + w u.
Proof.
  intros Hnd He Eu. rewrite Eu. clear Eu.
  induction prev as [|x prev IH]; [by apply elem_of_nil in He|].
  cbn in Hnd. apply NoDup_cons in Hnd as [Hx Hnd]. cbn [map].
  rewrite !exactSum_cons.
  destruct (String.eqb_spec (id x) (id e)) as [E|E].
  - assert (x = e) as ->.
    { apply elem_of_cons in He as [->|He]; [done|]. exfalso. apply Hx.
      rewrite E. apply list_elem_of_In, in_map, list_elem_of_In, He. }
    rewrite (map_ext_in _ (λ x, x)), map_id; [lia|].
    intros y Hy. destruct (String.eqb_spec (id y) (id e)) as [E'|]; [|done].
    exfalso. apply Hx. rewrite <- E'. by apply in_map, Hy || apply list_elem_of_In, in_map.
  - apply elem_of_cons in He as [->|He]; [done|]. rewrite IH by done. lia.
Qed.

Lemma wholeAmounts_replace (prev : list Expense) e u :
  NoDup (map id prev) → e ∈ prev → id u = id e → wholeAmounts (u :: prev) →
  wholeAmounts (map (λ x, if String.eqb (id x) (id u) then u else x) prev).
Proof.
  intros Hnd He Eu [Hw Hb]. apply Forall_cons in Hw as [Hu Hw]. split.
  - apply Forall_forall. intros y Hy.
    apply list_elem_of_In, in_map_iff in Hy as (x & <- & Hx).
    destruct (String.eqb (id x) (id u)); [done|].
    rewrite Forall_forall in Hw. by apply Hw, list_elem_of_In.
  - rewrite (exactSum_replace _ prev e u) by done. rewrite exactSum_cons in Hb.
    pose proof (Z.abs_nonneg (rupees e)). lia.
Qed.

(** X4.  With distinct identifiers, an edit of a stored expense keeps the
    identifiers and puts the saved record in the list; when the amounts,
    the new one included, are whole numbers whose magnitudes add up to
    less than 2^53, the sum of the amounts changes by the difference of
    the two amounts. *)
Theorem edit_changes_total (now : Z) (expenseToSave : PartialExpense)
    (prev : list Expense) (e u : Expense) :
  NoDup (map id prev) → e ∈ prev →
  isSome_truthy (p_id expenseToSave) = true → asExpense expenseToSave = Some u →
  id u = id e →
  ∃ l, handleSaveExpense now expenseToSave prev = Some l
       ∧ (wholeAmounts (u :: prev) →
            sumAmounts l = (sumAmounts prev - amount e + amount u)%float)
       ∧ map id l = map id prev
       ∧ u ∈ l.
Proof.
  intros Hnd He Hid Hu Eu. unfold handleSaveExpense. rewrite Hid, Hu. cbn.
  eexists. split; [reflexivity|]. split; [|split; [apply map_replace_ids|]].
  - intros Hw.
    destruct (sumAmounts_whole _ (wholeAmounts_replace prev e u Hnd He Eu Hw)) as [W1 T1].
    rewrite (exactSum_replace rupees prev e u Hnd He Eu) in W1.
    destruct Hw as [Hw Hb]. apply Forall_cons in Hw as [Wu Hw].
    rewrite exactSum_cons in Hb.
    assert (Hp : wholeAmounts prev)
      by (split; [done | pose proof (Z.abs_nonneg (rupees u)); lia]).
    destruct (sumAmounts_less prev e Hnd He Hp) as (W2 & T2 & B).
    eapply (isWhole_inj _ _ _ T1); [|exact W1|].
    + apply add_total; [done | by apply (isWhole_finite _ _ Wu)].
    + apply add_whole; [done | done | lia].
  - apply list_elem_of_In, in_map_iff. exists e. split; [|by apply list_elem_of_In].
    by rewrite Eu, String.eqb_refl.
Qed.

(** X5.  A click on the submit button stores nothing when the browser finds
    a control invalid; otherwise it is a save that goes through: a form
    opened without an identifier puts one new expense, with the form's
    date, category, payment method, description and amount, in front of
    the list; a form opened on an identifier keeps the length of the
    list. *)
Theorem submit_goes_through (stepMismatch : float → bool) (now : Z)
    (initialData : option PartialExpense) (formData : FormData) (prev : list Expense) :
  ∃ l, requestSubmit stepMismatch now initialData formData prev = Some l
       ∧ (if checkValidity stepMismatch formData
          then if isSome_truthy (initialData ≫= p_id)
               then length l = length prev
               else ∃ e, l = e :: prev
                         ∧ category e = f_category formData
                         ∧ paymentMethod e = f_paymentMethod formData
                         ∧ description e = f_description formData
                         ∧ Some (amount e) = f_amount formData
                         ∧ date e = f_date formData
          else l = prev).
Proof.
  unfold requestSubmit.
  destruct (checkValidity stepMismatch formData) eqn:Hv; [|by exists prev].
  unfold checkValidity in Hv.
  apply andb_prop in Hv as [Hv Hd]. apply andb_prop in Hv as [Hdate Ha].
  destruct (amountValid_positive _ _ Ha) as (a & Ea & _ & _ & _ & Ta).
  unfold handleSaveExpense, handleSubmit. cbn [p_id].
  destruct (isSome_truthy (initialData ≫= p_id)) eqn:Hid.
  - destruct (initialData ≫= p_id) as [i|] eqn:Ei; [|done].
    cbn. eexists. split; [reflexivity|]. apply length_map.
  - eexists. split; [reflexivity|]. eexists. split; [reflexivity|].
    cbn [category paymentMethod description amount date p_category p_paymentMethod
         p_description p_amount p_date default from_option Datatypes.id].
    rewrite !orString_truthy by (done || by apply validDateString_truthy).
    rewrite Ea. unfold default. cbn [from_option Datatypes.id orNumber]. by rewrite Ta.
Qed.

Lemma untouched_save (now : Z) (prev : list Expense) (e : Expense) :
  NoDup (map id prev) → e ∈ prev → id e ≠ "" → date e ≠ "" →
  numberTruthy (amount e) = true ∨ amount e = 0%float →
  handleSaveExpense now
    (handleSubmit (Some (ofExpense e)) (initialFormData now (Some (ofExpense e)))) prev
  = Some prev.
Proof.
  intros Hnd He Hid Hdate Ha. unfold handleSaveExpense, handleSubmit, initialFormData.
  cbn [ofExpense mbind option_bind p_id p_date p_category p_amount p_description
       p_paymentMethod f_date f_category f_amount f_description f_paymentMethod default
       from_option Datatypes.id].
  assert (Ht : isSome_truthy (Some (id e)) = true).
  { cbn. unfold truthy. by destruct (String.eqb_spec (id e) ""). }
  rewrite Ht. rewrite orString_truthy
    by (unfold truthy; by destruct (String.eqb_spec (date e) "")).
  assert (Ea : from_option Datatypes.id 0%float
                 (if numberTruthy (amount e) then Some (amount e) else None) = amount e).
  { destruct Ha as [->| ->]; reflexivity. }
  rewrite Ea.
  assert (Ed : orString (Some (description e)) "" = description e).
  { cbn. unfold truthy. by destruct (String.eqb_spec (description e) ""). }
  rewrite Ed. cbn [asExpense mbind option_bind p_id p_date p_category p_amount
                   p_description p_paymentMethod id].
  f_equal. rewrite <- (map_id prev) at 2. apply map_ext_in. intros x Hx.
  destruct (String.eqb_spec (id x) (id e)) as [E|E]; [|done].
  destruct e. cbn in *. symmetry.
  eapply (NoDup_ids_same prev _ x Hnd); [done | by apply list_elem_of_In | done].
Qed.

(** X6.  Opening the form on a stored expense and submitting it untouched
    leaves the list as it was (identifiers distinct, identifier and date
    not empty), whatever the browser makes of the fields.  The handler of
    the form on its own, without the browser's check, does so when the
    amount is neither NaN nor the negative zero, which the empty amount
    field it shows for them would turn into 0. *)
Theorem untouched_edit_is_identity (stepMismatch : float → bool) (now : Z)
    (prev : list Expense) (e : Expense) :
  NoDup (map id prev) → e ∈ prev → id e ≠ "" → date e ≠ "" →
  requestSubmit stepMismatch now (Some (ofExpense e))
    (initialFormData now (Some (ofExpense e))) prev = Some prev
  ∧ (numberTruthy (amount e) = true ∨ amount e = 0%float →
     handleSaveExpense now
       (handleSubmit (Some (ofExpense e)) (initialFormData now (Some (ofExpense e)))) prev
     = Some prev).
Proof.
  intros Hnd He Hid Hdate. split; [|by apply untouched_save].
  unfold requestSubmit.
  destruct (checkValidity _ _) eqn:Hv; [|done].
  apply untouched_save; try done. left.
  unfold checkValidity in Hv.
  apply andb_prop in Hv as [Hv _]. apply andb_prop in Hv as [_ Ha].
  cbn [initialFormData f_amount ofExpense mbind option_bind p_amount] in Ha.
  by destruct (numberTruthy (amount e)).
Qed.

End Bookkeeping.

(** ** Dates written and read back *)

Section DateRoundTrip.

Lemma isoYearRange_year t :
  isoYearRange t → 0 <= year (civil_from_days (Day t)) <= 9999.
Proof.
  unfold isoYearRange, Day, msPerDay. intros H.
  apply year_of_day_range. Z.div_mod_to_equations. lia.
Qed.

Lemma getFormattedDate_matches t :
  isoYearRange t → matchesDatePattern (getFormattedDate t) = true.
Proof.
  intros H. apply isoYearRange_year in H.
  rewrite getFormattedDate_isoDate. by apply isoDate_matches.
Qed.

Lemma Date_parse_getFormattedDate t :
  isoYearRange t → Date_parse (getFormattedDate t) = Some (Day t * msPerDay).
Proof.
  intros H. apply isoYearRange_year in H.
  rewrite getFormattedDate_isoDate. by apply Date_parse_isoDate.
Qed.

(** X7.  The date the application writes for a clock reading in the years
    0000..9999 has the form YYYY-MM-DD and is read back by [new Date(...)]
    as the UTC midnight of the same day; formatting that date again gives
    the same string. *)
Theorem getFormattedDate_parses (t : Z) :
  isoYearRange t →
  matchesDatePattern (getFormattedDate t) = true
  ∧ Date_parse (getFormattedDate t) = Some (Day t * msPerDay)
  ∧ getFormattedDateOfString (getFormattedDate t) = Some (getFormattedDate t).
Proof.
  intros H. split; [by apply getFormattedDate_matches|].
  pose proof (Date_parse_getFormattedDate t H) as E.
  split; [exact E|]. unfold getFormattedDateOfString. rewrite E. cbn.
  rewrite !getFormattedDate_isoDate. do 2 f_equal. unfold Day. apply Z.div_mul. discriminate.
Qed.

(** X8.  [getFormattedDate] gives back a date string that names a day of the
    calendar. *)
Theorem getFormattedDateOfString_id (s : string) (t : Z) :
  Date_parse s = Some t → getFormattedDateOfString s = Some s.
Proof.
  intros H. unfold getFormattedDateOfString. rewrite H. cbn.
  apply Date_parse_Day in H as (_ & E & _). by rewrite getFormattedDate_isoDate, E.
Qed.

Lemma isoDate_leb z1 z2 :
  0 <= year (civil_from_days z1) <= 9999 → 0 <= year (civil_from_days z2) <= 9999 →
  String.leb (isoDate z1) (isoDate z2) = (z1 <=? z2).
Proof.
  intros H1 H2.
  rewrite (Date_parse_leb _ _ _ _ (Date_parse_isoDate z1 H1) (Date_parse_isoDate z2 H2)).
  unfold msPerDay. destruct (Z.leb_spec z1 z2); [apply Z.leb_le | apply Z.leb_gt]; lia.
Qed.

End DateRoundTrip.

(** ** Reports by the calendar *)

Section ReportsByDay.

(** On calendar days the range test of the report, made on strings, is
    the comparison of the days. *)
Lemma inRange_days startStr endStr e ts te t :
  Date_parse startStr = Some ts → Date_parse endStr = Some te → getTime e = Some t →
  inRange startStr endStr e = (ts <=? t) && (t <=? te).
Proof.
  intros Hs He Ht. rewrite inRange_leb.
  by rewrite (Date_parse_leb _ _ _ _ Hs Ht), (Date_parse_leb _ _ _ _ Ht He).
Qed.

(** X9.  When the two ends of the range fall in the years 0000..9999, the
    report of a list of calendar days holds exactly the expenses whose day
    is the day of [startDate], the day of [endDate] or a day between. *)
Theorem report_by_day (tz : TimeZone) (now : Z) (period : Period) (L : list Expense) :
  isoYearRange (fst (reportDates tz now period)) →
  isoYearRange (snd (reportDates tz now period)) →
  validDates L →
  ∀ e, e ∈ reportExpenses tz now period L
       ↔ e ∈ L ∧ ∃ t, getTime e = Some t
                      ∧ Day (fst (reportDates tz now period)) * msPerDay <= t
                      ∧ t <= Day (snd (reportDates tz now period)) * msPerDay.
Proof.
  intros Hs He HL e. unfold reportExpenses, reportRange.
  destruct (reportDates tz now period) as [startDate endDate]. cbn [fst snd] in *.
  rewrite sort_perm, list_elem_of_In, filter_In, <- list_elem_of_In.
  pose proof (Date_parse_getFormattedDate startDate Hs) as Ps.
  pose proof (Date_parse_getFormattedDate endDate He) as Pe.
  split.
  - intros [Hin Hr]. split; [done|].
    unfold validDates in HL. rewrite Forall_forall in HL.
    destruct (HL e Hin) as [t Ht]. exists t. split; [done|].
    rewrite (inRange_days _ _ _ _ _ _ Ps Pe Ht) in Hr.
    apply andb_true_iff in Hr as [H1 H2]. apply Z.leb_le in H1, H2. done.
  - intros (Hin & t & Ht & H1 & H2). split; [done|].
    rewrite (inRange_days _ _ _ _ _ _ Ps Pe Ht).
    apply andb_true_iff. split; by apply Z.leb_le.
Qed.

End ReportsByDay.

(** ** Today's expense and the four reports *)

Section TodayInReports.

Lemma getFormattedDate_leb a b :
  isoYearRange a → isoYearRange b →
  String.leb (getFormattedDate a) (getFormattedDate b) = (Day a <=? Day b).
Proof.
  intros Ha Hb. rewrite !getFormattedDate_isoDate.
  apply isoDate_leb; by apply isoYearRange_year.
Qed.

Lemma getDay_range tz t : 0 <= getDay tz t <= 6.
Proof.
  unfold getDay, WeekDay. pose proof (Z.mod_pos_bound (Day (LocalTime tz t) + 4) 7). lia.
Qed.

(** After the epoch the local year is not one of the years 0..99 that
    [new Date(year, ...)] reads as 1900..1999. *)
Lemma local_year_after_epoch (tz : Z) now :
  0 <= now → -1440 <= tz <= 1440 → 1969 <= getFullYear tz now.
Proof.
  intros Hn Htz. unfold getFullYear.
  assert (Hd : -1 <= Day (LocalTime tz now)).
  { rewrite LocalTime_fixed. unfold Day, msPerDay, msPerMinute.
    Z.div_mod_to_equations. lia. }
  apply dateKey_mono in Hd. change (dateKey (civil_from_days (-1))) with 19691231 in Hd.
  pose proof (civil_from_days_bounds (Day (LocalTime tz now))) as [Hm Hdd].
  unfold dateKey in Hd. lia.
Qed.

(** The first of the local month and the day before it, as [Date_ymd]
    builds them from the fields of [now]. *)
Lemma Date_ymd_of_now (tz : Z) now dt :
  0 <= now → -1440 <= tz <= 1440 →
  Date_ymd tz (getFullYear tz now) (getMonth tz now) dt
  = (Day (LocalTime tz now) + (dt - getDate tz now)) * msPerDay - tz * msPerMinute.
Proof.
  intros Hn Htz. pose proof (local_year_after_epoch tz now Hn Htz) as Hy.
  unfold Date_ymd. rewrite !UTC_fixed. unfold MakeDate.
  destruct (Z.leb_spec 0 (getFullYear tz now));
    destruct (Z.leb_spec (getFullYear tz now) 99); cbn [andb]; try lia;
    unfold getFullYear, getMonth, getDate; rewrite MakeDay_same_month; lia.
Qed.

(** X10.  On a host whose offset from UTC never changes (no daylight
    saving), whatever that offset is, an expense dated with the date the
    application writes for the clock (the default of the form) is in the
    reports for this week and this month and in neither of the reports
    for last week and last month. *)
Theorem today_in_reports (tz now : Z) (e : Expense) :
  0 <= now → isoYearRange now → -1440 <= tz <= 1440 →
  date e = getFormattedDate now →
  inRange (fst (reportRange tz now ThisWeek)) (snd (reportRange tz now ThisWeek)) e = true
  ∧ inRange (fst (reportRange tz now ThisMonth)) (snd (reportRange tz now ThisMonth)) e = true
  ∧ inRange (fst (reportRange tz now LastWeek)) (snd (reportRange tz now LastWeek)) e = false
  ∧ inRange (fst (reportRange tz now LastMonth)) (snd (reportRange tz now LastMonth)) e = false.
Proof.
  intros Hn Hr Htz He.
  pose proof (getDay_range tz now) as Hwd.
  pose proof (civil_from_days_bounds (Day (LocalTime tz now))) as [_ Hmd].
  fold (getDate tz now) in Hmd.
  assert (Hloc : Day (LocalTime tz now) * msPerDay <= now + tz * msPerMinute).
  { rewrite LocalTime_fixed. unfold Day.
    pose proof (Z.mul_div_le (now + tz * msPerMinute) msPerDay).
    unfold msPerDay in *. lia. }
  assert (Hloc' : now + tz * msPerMinute < (Day (LocalTime tz now) + 1) * msPerDay).
  { rewrite LocalTime_fixed. unfold Day, msPerDay, msPerMinute.
    Z.div_mod_to_equations. lia. }
  unfold isoYearRange in Hr.
  rewrite !inRange_leb, He. unfold reportRange, reportDates. cbn [fst snd].
  rewrite !Date_ymd_of_now by done.
  replace (getDate tz now - getDay tz now - 1)
    with (getDate tz now - (getDay tz now + 1)) by lia.
  rewrite !setDate_days_back.
  set (first := (Day (LocalTime tz now) + (1 - getDate tz now)) * msPerDay - tz * msPerMinute).
  set (last := (Day (LocalTime tz now) + (0 - getDate tz now)) * msPerDay - tz * msPerMinute).
  assert (Hfirst : now - 32 * msPerDay <= first <= now)
    by (subst first; unfold msPerDay, msPerMinute in *; lia).
  assert (Hlast : now - 33 * msPerDay <= last <= now - msPerDay)
    by (subst last; unfold msPerDay, msPerMinute in *; lia).
  assert (Ra : ∀ a, now - 40 * msPerDay <= a <= now → isoYearRange a)
    by (intros a; unfold isoYearRange, msPerDay; lia).
  assert (Hdiv : ∀ a b, a <= b → Day a <= Day b)
    by (intros a b; unfold Day; apply Z.div_le_mono; reflexivity).
  assert (Hback : ∀ a, a <= now - msPerDay → Day a < Day now).
  { intros a Ha. pose proof (Hdiv a (now + (-1) * msPerDay) ltac:(lia)) as H.
    rewrite Day_shift in H. lia. }
  assert (Hin : ∀ a, now - 40 * msPerDay <= a <= now →
            String.leb (getFormattedDate a) (getFormattedDate now)
            && String.leb (getFormattedDate now) (getFormattedDate now) = true).
  { intros a Ha. rewrite !getFormattedDate_leb by (apply Ra; lia).
    apply andb_true_iff. split; apply Z.leb_le; [apply Hdiv|]; lia. }
  assert (Hout : ∀ s a, now - 40 * msPerDay <= a <= now - msPerDay →
            String.leb s (getFormattedDate now)
            && String.leb (getFormattedDate now) (getFormattedDate a) = false).
  { intros s a Ha. apply andb_false_iff. right.
    rewrite getFormattedDate_leb by (apply Ra; unfold msPerDay in *; lia).
    apply Z.leb_gt, Hback. lia. }
  split; [apply Hin; unfold msPerDay; lia|]. split; [apply Hin; lia|].
  split; apply Hout; unfold msPerDay in *; lia.
Qed.

End TodayInReports.

(** ** The monthly total and the tips *)

Section Monthly.

Lemma Day_of_midnight D (tz : TimeZone) :
  Day (LocalTime tz (D * msPerDay))
  = D + offsetAt tz (D * msPerDay) * msPerMinute / msPerDay.
Proof.
  unfold LocalTime, Day. rewrite Z.add_comm, Z.div_add by discriminate. lia.
Qed.

Lemma inCurrentMonth_day (tz : TimeZone) today e t :
  getTime e = Some t →
  inCurrentMonth tz today e = true
  ↔ year (civil_from_days (Day t + offsetAt tz t * msPerMinute / msPerDay))
    = getFullYear tz today
    ∧ month (civil_from_days (Day t + offsetAt tz t * msPerMinute / msPerDay)) - 1
      = getMonth tz today.
Proof.
  intros Ht. unfold inCurrentMonth. rewrite Ht.
  apply Date_parse_Day in Ht as (Et & _).
  rewrite andb_true_iff, !Z.eqb_eq.
  assert (E : Day (LocalTime tz t) = Day t + offsetAt tz t * msPerMinute / msPerDay).
  { rewrite Et at 1. rewrite Day_of_midnight. by rewrite <- Et. }
  unfold getMonth at 1, getFullYear at 1. rewrite E. tauto.
Qed.

(** X11.  On a host that is on or east of Greenwich at the UTC midnight of
    the date of an expense, the expense counts for the monthly total
    exactly when the year and the month of its date are the local year
    and month of the clock. *)
Theorem monthly_total_east (tz : TimeZone) (today : Z) (e : Expense) (t : Z) :
  0 <= offsetAt tz t < 1440 → getTime e = Some t →
  isoDate (Day t) = date e
  ∧ (inCurrentMonth tz today e = true
     ↔ year (civil_from_days (Day t)) = getFullYear tz today
       ∧ month (civil_from_days (Day t)) - 1 = getMonth tz today).
Proof.
  intros Htz Ht. split; [by apply Date_parse_Day in Ht as (_ & E & _)|].
  rewrite (inCurrentMonth_day tz today e t Ht).
  replace (offsetAt tz t * msPerMinute / msPerDay) with 0
    by (unfold msPerMinute, msPerDay; Z.div_mod_to_equations; lia).
  by rewrite Z.add_0_r.
Qed.

(** X12.  On a host that is west of Greenwich at the UTC midnight of the
    date of an expense, the date is moved one day back before its month
    is taken: an expense dated the first of the local month of the clock
    does not count for the monthly total. *)
Theorem monthly_total_west (tz : TimeZone) (today : Z) (e : Expense) (t : Z) :
  -1440 <= offsetAt tz t < 0 → getTime e = Some t →
  (inCurrentMonth tz today e = true
   ↔ year (civil_from_days (Day t - 1)) = getFullYear tz today
     ∧ month (civil_from_days (Day t - 1)) - 1 = getMonth tz today)
  ∧ (mday (civil_from_days (Day t)) = 1 →
     year (civil_from_days (Day t)) = getFullYear tz today →
     month (civil_from_days (Day t)) - 1 = getMonth tz today →
     inCurrentMonth tz today e = false).
Proof.
  intros Htz Ht.
  assert (E : inCurrentMonth tz today e = true
              ↔ year (civil_from_days (Day t - 1)) = getFullYear tz today
                ∧ month (civil_from_days (Day t - 1)) - 1 = getMonth tz today).
  { rewrite (inCurrentMonth_day tz today e t Ht).
    replace (offsetAt tz t * msPerMinute / msPerDay) with (-1)
      by (unfold msPerMinute, msPerDay; Z.div_mod_to_equations; lia).
    done. }
  split; [exact E|]. intros Hd Hy Hm.
  destruct (inCurrentMonth tz today e) eqn:Hin; [|done].
  destruct (proj1 E eq_refl) as [Hy' Hm'].
  pose proof (dateKey_lt (Day t - 1) (Day t) ltac:(lia)) as Hlt.
  pose proof (civil_from_days_bounds (Day t - 1)) as [_ Hb].
  unfold dateKey in Hlt. lia.
Qed.

(** X13.  The tips button never leaves the spinner on: when the call settles
    the modal is open and loading is over.  Without a credential, or when
    no expense counts for the current month, the remote model is not
    consulted: the outcome is the same for every remote. *)
Theorem handleGenerateTips_settles (API_KEY : option string)
    (generateContent : list Gemini.Part → Gemini.outcome string)
    (Number_toString : float → string)
    (tz : TimeZone) (today : Z) (expenses : list Expense) (st : TipsState) :
  let st' := handleGenerateTips API_KEY generateContent Number_toString tz today expenses
               st in
  ts_isTipsLoading st' = false
  ∧ ts_isTipsModalOpen st' = true
  ∧ (isSome_truthy API_KEY = false → ts_tips st' = Gemini.unavailableTips)
  ∧ (isSome_truthy API_KEY = true → List.filter (inCurrentMonth tz today) expenses = [] →
       ts_tips st' = Gemini.addExpensesTips)
  ∧ (isSome_truthy API_KEY = false ∨ List.filter (inCurrentMonth tz today) expenses = [] →
       ∀ generateContent',
         handleGenerateTips API_KEY generateContent' Number_toString tz today expenses st
         = st').
Proof.
  intros st'. subst st'. unfold handleGenerateTips, Gemini.getSavingTips.
  destruct (isSome_truthy API_KEY); cbn [negb].
  - destruct (List.filter (inCurrentMonth tz today) expenses) as [|e l] eqn:El;
      cbn [length Nat.eqb].
    + repeat split; try done.
    + destruct (generateContent _) as [text|msg]; cbn [Gemini.tryCatch];
        repeat split; try done; intros [?|?]; done.
  - repeat split; done.
Qed.

End Monthly.

(** ** The storage hook *)

Section StorageHook.
Context {T : Type} (stringify : T → string) (parse : string → option T).

(** X14.  Mounting the hook never fails and gives the stored value when the
    item is there, is not empty and parses, and the initial value in every
    other case; the effect of the first render does not change it. *)
Theorem useLocalStorage_mount (key : string) (initialValue : T) (ls : gmap string string) :
  LocalStorage.useLocalStorage stringify parse key initialValue ls
  = LocalStorage.readItem parse key initialValue ls
  ∧ (ls !! key = None →
       LocalStorage.useLocalStorage stringify parse key initialValue ls = initialValue)
  ∧ (∀ item, ls !! key = Some item → parse item = None →
       LocalStorage.useLocalStorage stringify parse key initialValue ls = initialValue)
  ∧ (∀ item v, ls !! key = Some item → item ≠ "" → parse item = Some v →
       LocalStorage.useLocalStorage stringify parse key initialValue ls = v).
Proof.
  assert (E : LocalStorage.useLocalStorage stringify parse key initialValue ls
              = LocalStorage.readItem parse key initialValue ls).
  { unfold LocalStorage.useLocalStorage, LocalStorage.mountEffect, LocalStorage.readItem.
    destruct (ls !! key) as [item|]; [|by case_bool_decide].
    destruct (truthy item); [|by case_bool_decide].
    destruct (parse item) as [v|]; cbn; by case_bool_decide. }
  split; [exact E|]. rewrite E. unfold LocalStorage.readItem. split; [|split].
  - by intros ->.
  - intros item -> ->. by destruct (truthy item).
  - intros item v -> Hne ->. unfold truthy.
    by destruct (String.eqb_spec item "").
Qed.

(** X15.  A value written by [setValue] is the value a later mount starts from,
    provided [parse] reads back what [stringify] writes and the text is not
    empty; the items under the other keys are not touched. *)
Theorem setValue_then_mount (key : string) (storedValue initialValue : T)
    (value : T + (T → T)) (ls : gmap string string) :
  (∀ v, parse (stringify v) = Some v) → (∀ v, stringify v ≠ "") →
  let '(v, ls') := LocalStorage.setValue stringify key storedValue value true ls in
  v = match value with inl v => v | inr f => f storedValue end
  ∧ LocalStorage.useLocalStorage stringify parse key initialValue ls' = v
  ∧ ∀ key', key' ≠ key → ls' !! key' = ls !! key'.
Proof.
  intros Hrt Hne. unfold LocalStorage.setValue.
  set (v := match value with inl v => v | inr f => f storedValue end).
  split; [done|]. split.
  - unfold LocalStorage.useLocalStorage, LocalStorage.mountEffect, LocalStorage.readItem.
    rewrite lookup_insert_eq. unfold truthy.
    destruct (String.eqb_spec (stringify v) ""); [by destruct (Hne v)|]. cbn.
    rewrite Hrt. cbn. by case_bool_decide.
  - intros key' Hk. by rewrite lookup_insert_ne.
Qed.

End StorageHook.

(** ** Charts and totals *)

Section Charts.

Lemma firstOccurrences_length l : (length (firstOccurrences l) <= 7)%nat.
Proof.
  change 7%nat with (length CATEGORIES).
  apply submseteq_length, NoDup_submseteq; [apply NoDup_firstOccurrences|].
  intros c _. destruct c; unfold CATEGORIES; set_solver.
Qed.

Lemma imap_cellFill {A} (l : list A) n :
  (n + length l <= 7)%nat →
  imap (λ index _, cellFill (n + index)) l = take (length l) (drop n PIE_CHART_COLORS).
Proof.
  revert n. induction l as [|x l IH]; intros n Hn; cbn [imap length]; [done|].
  cbn [length] in Hn.
  assert (Hc : (n = 0 ∨ n = 1 ∨ n = 2 ∨ n = 3 ∨ n = 4 ∨ n = 5 ∨ n = 6)%nat) by lia.
  rewrite (imap_ext _ (λ index _, cellFill (S n + index))).
  2: { intros i y _. unfold compose. f_equal. lia. }
  rewrite IH by lia. rewrite Nat.add_0_r.
  repeat (destruct Hc as [-> | Hc]; [reflexivity|]). subst. reflexivity.
Qed.

Lemma totalsSet_keys o k v :
  map fst (totalsSet o k v) = if decide (k ∈ map fst o) then map fst o else map fst o ++ [k].
Proof.
  induction o as [|[k' v'] o IH]; cbn [totalsSet map fst app].
  - destruct (decide (k ∈ [])) as [H|H]; [by apply elem_of_nil in H | done].
  - destruct (decide (k' = k)) as [->|Hne].
    + by rewrite decide_True by (by left).
    + cbn [map fst]. rewrite IH. destruct (decide (k ∈ map fst o)) as [H|H].
      * by rewrite decide_True by (by right).
      * rewrite decide_False; [done|]. rewrite elem_of_cons. intros [E|E]; [congruence | done].
Qed.

(** The keys of the object, whatever the amounts are. *)
Lemma categoryTotals_keys L :
  map fst (categoryTotals L) = firstOccurrences (map category L).
Proof.
  induction L as [|e L IH] using rev_ind; [done|].
  rewrite categoryTotals_snoc. unfold addToTotals.
  rewrite totalsSet_keys, IH, map_app. cbn [map]. rewrite firstOccurrences_snoc.
  destruct (decide (category e ∈ firstOccurrences (map category L))) as [Hin|Hout];
    rewrite elem_of_firstOccurrences in *.
  - by rewrite decide_True by done.
  - by rewrite decide_False by done.
Qed.

(** X16.  The pie chart never has more than seven slices, and no two slices
    get the same colour. *)
Theorem pie_colours_distinct (L : list Expense) :
  (length (pieChartData L) <= 7)%nat
  ∧ pieCells (pieChartData L) = take (length (pieChartData L)) PIE_CHART_COLORS
  ∧ NoDup (pieCells (pieChartData L)).
Proof.
  assert (Hlen : (length (pieChartData L) <= 7)%nat).
  { unfold pieChartData.
    rewrite length_map, <- (length_map fst (categoryTotals L)), categoryTotals_keys.
    apply firstOccurrences_length. }
  assert (E : pieCells (pieChartData L) = take (length (pieChartData L)) PIE_CHART_COLORS).
  { unfold pieCells. apply (imap_cellFill _ 0). lia. }
  split; [exact Hlen|]. split; [exact E|]. rewrite E.
  eapply sublist_NoDup; [|apply sublist_take].
  unfold PIE_CHART_COLORS.
  repeat (constructor; [rewrite ?elem_of_cons, elem_of_nil; intuition discriminate|]).
  constructor.
Qed.

Lemma totalAmount_sumAmounts l : totalAmount l = sumAmounts l.
Proof. reflexivity. Qed.

Lemma wholeAmounts_view L fc fd so :
  wholeAmounts L → wholeAmounts (filteredView L fc fd so).
Proof.
  intros Hw. unfold filteredView.
  eapply wholeAmounts_perm; [symmetry; apply sort_perm|].
  by do 2 apply wholeAmounts_filter.
Qed.

(** X17.  For whole amounts whose magnitudes add up to less than 2^53, the
    total of the share text is the sum of the slices of the pie chart
    drawn from the same list, it does not depend on the sort mode, and
    without filters it is the total of all the expenses. *)
Theorem share_total_consistent (L : list Expense) (filterCategory : CategoryFilter)
    (filterDate : string) (sortOption sortOption' : SortOption) :
  wholeAmounts L →
  let view := filteredView L filterCategory filterDate sortOption in
  totalAmount view = sumNumbers (map value (pieChartData view))
  ∧ totalAmount view = totalAmount (filteredView L filterCategory filterDate sortOption')
  ∧ totalAmount (filteredView L All "" sortOption) = totalAmount L.
Proof.
  intros Hw view.
  pose proof (wholeAmounts_view L filterCategory filterDate sortOption Hw) as Hv.
  fold view in Hv. rewrite !totalAmount_sumAmounts. split; [|split].
  - unfold pieChartData.
    rewrite categoryTotals_spec, !map_map by (by apply wholeAmounts_finite).
    cbn [value]. symmetry. by apply slices_sum.
  - apply sumAmounts_perm; [done|]. subst view. unfold filteredView. by rewrite !sort_perm.
  - apply sumAmounts_perm; [by apply wholeAmounts_view|].
    unfold filteredView. rewrite sort_perm. cbn. rewrite !filter_all; done.
Qed.

End Charts.

(** ** More on the weekly trend *)

Section WeeklyMore.

Lemma addToDay_names days e : map b_name (addToDay days e) = map b_name days.
Proof.
  induction days as [|d rest IH]; cbn; [done|].
  destruct (String.eqb _ _); cbn; [done | by rewrite IH].
Qed.

Lemma fold_addToDay_names L days :
  map b_name (fold_left addToDay L days) = map b_name days.
Proof.
  revert days. induction L as [|e L IH]; intros days; cbn [fold_left]; [done|].
  by rewrite IH, addToDay_names.
Qed.

Lemma getDay_days_back (tz : Z) today i :
  getDay tz (today - i * msPerDay) = (getDay tz today - i) mod 7.
Proof.
  unfold getDay, WeekDay. rewrite !LocalTime_fixed.
  replace (today - i * msPerDay + tz * msPerMinute)
    with (today + tz * msPerMinute + (- i) * msPerDay) by lia.
  rewrite Day_shift, Zminus_mod_idemp_l. f_equal. lia.
Qed.

Lemma weekdayShort_inj a b :
  0 <= a <= 6 → 0 <= b <= 6 → weekdayShort a = weekdayShort b → a = b.
Proof.
  intros Ha Hb.
  assert (Ca : a = 0 ∨ a = 1 ∨ a = 2 ∨ a = 3 ∨ a = 4 ∨ a = 5 ∨ a = 6) by lia.
  assert (Cb : b = 0 ∨ b = 1 ∨ b = 2 ∨ b = 3 ∨ b = 4 ∨ b = 5 ∨ b = 6) by lia.
  destruct Ca as [->|[->|[->|[->|[->|[->| ->]]]]]];
    destruct Cb as [->|[->|[->|[->|[->|[->| ->]]]]]]; cbn; intros E;
    first [reflexivity | discriminate E].
Qed.

(** X18.  The labels of the weekly series are the seven days of the week, each
    once, ending with the local weekday of the clock. *)
Theorem weekly_labels (tz today : Z) (L : list Expense) :
  map b_name (weeklyTrendData tz today L)
  = map (λ i, weekdayShort ((getDay tz today - i) mod 7)) [6; 5; 4; 3; 2; 1; 0]
  ∧ NoDup (map b_name (weeklyTrendData tz today L))
  ∧ last (map b_name (weeklyTrendData tz today L)) = Some (weekdayShort (getDay tz today)).
Proof.
  assert (E : map b_name (weeklyTrendData tz today L)
              = map (λ i, weekdayShort ((getDay tz today - i) mod 7)) [6; 5; 4; 3; 2; 1; 0]).
  { unfold weeklyTrendData. rewrite fold_addToDay_names, last7Days_spec, map_map.
    apply map_ext. intros i. cbn [b_name]. by rewrite getDay_days_back. }
  pose proof (getDay_range tz today) as Hw.
  split; [exact E|]. rewrite E. split.
  - apply (NoDup_fmap_2_strong (λ i, weekdayShort ((getDay tz today - i) mod 7))).
    + intros x y Hx Hy Exy.
      assert (Hx' : 0 <= x <= 6) by (rewrite !elem_of_cons, elem_of_nil in Hx; lia).
      assert (Hy' : 0 <= y <= 6) by (rewrite !elem_of_cons, elem_of_nil in Hy; lia).
      apply weekdayShort_inj in Exy;
        [| pose proof (Z.mod_pos_bound (getDay tz today - x) 7); lia
         | pose proof (Z.mod_pos_bound (getDay tz today - y) 7); lia].
      Z.div_mod_to_equations. lia.
    + repeat (constructor; [rewrite ?elem_of_cons, elem_of_nil; lia|]). constructor.
  - cbn [map last]. rewrite Z.sub_0_r, Z.mod_small by lia. done.
Qed.

Lemma groups_whole {K} (p : K → Expense → bool) L (ks : list K) :
  wholeAmounts L →
  Forall2 isWhole (map (λ k, sumAmounts (List.filter (p k) L)) ks)
                  (map (λ k, exactSum rupees (List.filter (p k) L)) ks).
Proof.
  intros Hw. induction ks as [|k ks IH]; cbn [map]; constructor; [|exact IH].
  by apply sumAmounts_whole, wholeAmounts_filter.
Qed.

Lemma groups_abs {K} (p : K → Expense → bool) L (ks : list K) :
  foldr (λ n s, Z.abs n + s) 0 (map (λ k, exactSum rupees (List.filter (p k) L)) ks)
  <= foldr (λ k s, exactSum (λ e, Z.abs (rupees e)) (List.filter (p k) L) + s) 0 ks.
Proof.
  induction ks as [|k ks IH]; cbn [map foldr]; [done|].
  pose proof (exactSum_abs rupees (List.filter (p k) L)). lia.
Qed.

(** The sums of the groups of a list of whole amounts add up to the sum
    of the expenses that are in one of the groups. *)
Lemma groups_sum {K} `{EqDecision K} (key : Expense → K) (ks : list K) L :
  NoDup ks → wholeAmounts L →
  sumNumbers (map (λ k, sumAmounts (List.filter (λ e, bool_decide (key e = k)) L)) ks)
  = sumAmounts (List.filter (λ e, bool_decide (key e ∈ ks)) L).
Proof.
  intros Hnd Hw. pose proof Hw as [_ Hb].
  destruct (sumNumbers_whole _ _ 0 0
              (groups_whole (λ k e, bool_decide (key e = k)) L ks Hw)
              isWhole_zero numberTotal_zero) as [W1 T1].
  - eapply Z.le_lt_trans; [|exact Hb]. cbn [Z.abs Z.add].
    etrans; [apply groups_abs|]. cbv beta.
    rewrite (exactSum_by_keys key (λ e, Z.abs (rupees e))) by done.
    apply exactSum_filter_le. intros; lia.
  - destruct (sumAmounts_whole _ (wholeAmounts_filter
                (λ e, bool_decide (key e ∈ ks)) L Hw)) as [W2 T2].
    rewrite foldr_add_map in W1. cbv beta in W1.
    rewrite (exactSum_by_keys key rupees) in W1 by done.
    cbn [Z.add] in W1.
    exact (isWhole_inj _ _ _ T1 T2 W1 W2).
Qed.

Lemma filter_onDate k L :
  List.filter (onDate k) L = List.filter (λ e, bool_decide (date e = k)) L.
Proof.
  apply filter_ext. intros e. unfold onDate.
  destruct (String.eqb_spec (date e) k) as [E|E].
  - by rewrite bool_decide_eq_true_2.
  - by rewrite bool_decide_eq_false_2.
Qed.

(** X19.  On a host without daylight saving, for whole amounts whose
    magnitudes add up to less than 2^53, the seven amounts of the series
    add up to the sum of the expenses dated on one of its seven days;
    expenses dated on another day do not enter the series. *)
Theorem weekly_total (tz today : Z) (L : list Expense) :
  isoYearRange (today - 6 * msPerDay) → isoYearRange today → wholeAmounts L →
  sumNumbers (map b_amount (weeklyTrendData tz today L))
  = sumAmounts (List.filter
                  (λ e, bool_decide (date e ∈ map b_date (last7Days tz today))) L).
Proof.
  intros H1 H2 Hw. pose proof (last7Days_NoDup tz today H1 H2) as Hnd.
  rewrite <- (groups_sum date _ L Hnd Hw).
  unfold weeklyTrendData. rewrite fold_addToDay_spec by done.
  rewrite last7Days_spec. cbn [map b_amount b_date].
  rewrite !filter_onDate. reflexivity.
Qed.

End WeeklyMore.

(** ** The view after a change *)

Section ViewAfterChange.

Lemma filteredView_Forall L fc fd so :
  Forall (λ e, matchesCategory fc e = true ∧ matchesDate fd e = true)
         (filteredView L fc fd so).
Proof.
  unfold filteredView. rewrite sort_perm, filter_filter_andb.
  rewrite Forall_forall. intros e He.
  apply list_elem_of_In, filter_In in He as [_ He]. by apply andb_true_iff in He.
Qed.

(** X20.  Running the pipeline on its own result changes nothing (in mode
    [Latest], for a list of calendar days; in mode [Amount], for finite
    amounts). *)
Theorem filteredView_idempotent (L : list Expense) (filterCategory : CategoryFilter)
    (filterDate : string) (sortOption : SortOption) :
  (sortOption = Latest → validDates L) →
  (sortOption = Amount → finiteAmounts L) →
  filteredView (filteredView L filterCategory filterDate sortOption)
               filterCategory filterDate sortOption
  = filteredView L filterCategory filterDate sortOption.
Proof.
  intros HL HA.
  pose proof (filteredView_Forall L filterCategory filterDate sortOption) as HF.
  set (V := filteredView L filterCategory filterDate sortOption) in *.
  unfold filteredView at 1. rewrite Forall_forall in HF.
  rewrite (filter_all (matchesCategory filterCategory) V) by (intros e He; by apply HF).
  rewrite (filter_all (matchesDate filterDate) V) by (intros e He; by apply HF).
  subst V. unfold filteredView.
  set (F := List.filter (matchesDate filterDate)
              (List.filter (matchesCategory filterCategory) L)).
  destruct sortOption.
  - apply (sort_idempotent byDateDesc _ _ byDateDesc_key).
    specialize (HL eq_refl). unfold validDates in HL. rewrite Forall_forall in HL |- *.
    intros e He. apply HL. subst F.
    apply list_elem_of_In, filter_In in He as [He _].
    apply filter_In in He as [He _]. by apply list_elem_of_In.
  - apply (sort_idempotent _ _ _ byAmountDesc_key).
    subst F. do 2 apply finiteAmounts_filter. by apply HA.
Qed.

(** X21.  A new expense is shown at once: it is in the view without filters and
    in the view filtered by its own category and date.  After a confirmed
    delete no view shows an expense with the deleted identifier. *)
Theorem view_follows_changes (now : Z) (expenseToSave : PartialExpense)
    (prev : list Expense) (sortOption : SortOption) :
  (isSome_truthy (p_id expenseToSave) = false →
     ∃ e l, handleSaveExpense now expenseToSave prev = Some l
            ∧ e ∈ filteredView l All "" sortOption
            ∧ e ∈ filteredView l (Only (category e)) (date e) sortOption
            ∧ id e = toISOString now)
  ∧ (∀ id' filterCategory filterDate,
       id' ∉ map id (filteredView (handleDeleteExpense true id' prev)
                                   filterCategory filterDate sortOption)).
Proof.
  split.
  - intros Hid. unfold handleSaveExpense. rewrite Hid.
    eexists _, _. split; [reflexivity|].
    assert (Hin : ∀ fc fd (e : Expense) l, matchesCategory fc e = true →
              matchesDate fd e = true → e ∈ filteredView (e :: l) fc fd sortOption).
    { intros fc fd e l H1 H2. unfold filteredView. rewrite sort_perm.
      cbn [List.filter]. rewrite H1. cbn [List.filter]. rewrite H2. by left. }
    split; [by apply Hin|]. split; [|done]. apply Hin.
    + cbn. by rewrite bool_decide_eq_true_2.
    + unfold matchesDate. rewrite String.eqb_refl. apply orb_true_r.
  - intros id' fc fd H.
    apply list_elem_of_In, in_map_iff in H as (e & He & Hin).
    apply list_elem_of_In in Hin. unfold filteredView in Hin.
    rewrite sort_perm in Hin.
    apply list_elem_of_In, filter_In in Hin as [Hin _].
    apply filter_In in Hin as [Hin _]. cbn [handleDeleteExpense] in Hin.
    apply filter_In in Hin as [_ Hne]. by rewrite He, String.eqb_refl in Hne.
Qed.

End ViewAfterChange.

(** ** From a receipt to the list *)

Section Receipt.
Context (API_KEY : option string)
        (generateContent : list Gemini.Part → Gemini.outcome string)
        (JSON_parse : string → Gemini.outcome Gemini.Extracted).


(** X23.  However the extraction ends, the scan overlay is switched off; a
    failure shows one of the two messages of the gateway and leaves the
    form as it was, a success opens the form on the extracted record. *)
Theorem onloadend_settles (now : Z) (mimeType data : string)
    (categories : list Category) (st : ModalState) :
  let extraction := Gemini.extractExpenseFromImage API_KEY generateContent JSON_parse
                      now mimeType data categories in
  let st' := onloadend extraction st in
  ms_isScanning st' = false
  ∧ match extraction with
    | Gemini.Fulfilled r =>
        ms_currentExpense st' = Some r ∧ ms_isExpenseModalOpen st' = true
        ∧ ms_alerts st' = ms_alerts st
    | Gemini.Rejected message =>
        ms_alerts st' = ms_alerts st ++ [message]
        ∧ (message = Gemini.unavailableError ∨ message = Gemini.analyzeError)
        ∧ ms_currentExpense st' = ms_currentExpense st
        ∧ ms_isExpenseModalOpen st' = ms_isExpenseModalOpen st
    end.
Proof.
  intros extraction st'. subst st' extraction. unfold Gemini.extractExpenseFromImage.
  destruct (isSome_truthy API_KEY); cbn [negb]; [|cbn; auto 6].
  destruct (generateContent _) as [text|msg]; cbn [Gemini.andThen Gemini.tryCatch];
    [|cbn; auto 6].
  destruct (JSON_parse _) as [x|msg]; cbn [Gemini.andThen Gemini.tryCatch];
    cbn; auto 6.
Qed.

End Receipt.

(** ** Scenarios for the rest of the application *)

Section MoreScenarios.
Import Samples MoreSamples.

Lemma history_NoDup : NoDup (map id history).
Proof.
cbn [map history].
repeat (constructor; [rewrite ?elem_of_cons, elem_of_nil; intuition discriminate|]).
constructor.
Defined.

Lemma history_fresh : toISOString friday ∉ map id history.
Proof.
cbn [map history]. rewrite !elem_of_cons, elem_of_nil.
intros [E|[E|[E|[E|[]]]]]; vm_compute in E; discriminate.
Defined.

Lemma metro_in_history : metro ∈ history.
Proof. unfold history. rewrite !elem_of_cons. tauto. Defined.

Lemma friday_isoYearRange : isoYearRange friday.
Proof. unfold isoYearRange, friday. lia. Defined.

Lemma handleDeleteExpense_spec_witness :
handleDeleteExpense true "b" history = [lunch; dinner; rent]
∧ ("b" ∉ map id (handleDeleteExpense true "b" history))
∧ handleDeleteExpense false "b" history = history
∧ handleDeleteExpense true "z" history = history.
Proof.
split; [reflexivity|]. split; [|split].
- destruct (handleDeleteExpense_spec true "b" history) as (_ & _ & H & _).
  exact (proj1 (H eq_refl)).
- destruct (handleDeleteExpense_spec false "b" history) as (_ & H & _).
  exact (H eq_refl).
- destruct (handleDeleteExpense_spec true "z" history) as (_ & _ & _ & H).
  apply H. cbn [map history]. rewrite !elem_of_cons, elem_of_nil.
  intuition discriminate.
Defined.

Lemma save_then_delete_witness :
isSome_truthy (p_id newCoffee) = false
∧ (toISOString friday ∉ map id history)
∧ ∃ newExpense,
    handleSaveExpense friday newCoffee history = Some (newExpense :: history)
    ∧ handleDeleteExpense true (id newExpense) (newExpense :: history) = history.
Proof.
split; [reflexivity|]. split; [exact history_fresh|].
exact (save_then_delete friday newCoffee history eq_refl history_fresh).
Defined.

Lemma delete_lowers_total_witness :
NoDup (map id history) ∧ metro ∈ history ∧ wholeAmounts history
∧ sumAmounts history = 1490%float
∧ sumAmounts (handleDeleteExpense true "b" history) = 1450%float
∧ NoDup (map id (handleDeleteExpense true "b" history)).
Proof.
split; [exact history_NoDup|]. split; [exact metro_in_history|].
split; [exact history_whole|]. split; [reflexivity|].
destruct (delete_lowers_total history metro history_NoDup metro_in_history)
  as (H1 & _ & _ & H4).
split; [|exact H4]. change (id metro) with "b" in H1.
rewrite (H1 history_whole). by vm_compute.
Defined.

Lemma edited_whole : wholeAmounts (metro' :: history).
Proof.
split; [|by vm_compute].
unfold history. repeat constructor; by vm_compute.
Defined.

Lemma edit_changes_total_witness :
NoDup (map id history) ∧ metro ∈ history
∧ isSome_truthy (p_id editMetro) = true ∧ asExpense editMetro = Some metro'
∧ id metro' = id metro ∧ wholeAmounts (metro' :: history)
∧ ∃ l, handleSaveExpense friday editMetro history = Some l
       ∧ sumAmounts l = 1495%float
       ∧ map id l = ["a"; "b"; "c"; "d"]
       ∧ metro' ∈ l.
Proof.
split; [exact history_NoDup|]. split; [exact metro_in_history|].
split; [reflexivity|]. split; [reflexivity|]. split; [reflexivity|].
split; [exact edited_whole|].
destruct (edit_changes_total friday editMetro history metro metro' history_NoDup
            metro_in_history eq_refl eq_refl eq_refl) as (l & H1 & H2 & H3 & H4).
exists l. split; [exact H1|]. split; [rewrite (H2 edited_whole); by vm_compute|].
split; [rewrite H3; reflexivity | exact H4].
Defined.

Lemma untouched_edit_is_identity_witness :
NoDup (map id history) ∧ metro ∈ history ∧ id metro ≠ "" ∧ date metro ≠ ""
∧ numberTruthy (amount metro) = true
∧ requestSubmit anyStep friday (Some (ofExpense metro))
    (initialFormData friday (Some (ofExpense metro))) history
  = Some history
∧ handleSaveExpense friday
    (handleSubmit (Some (ofExpense metro)) (initialFormData friday (Some (ofExpense metro))))
    history
  = Some history.
Proof.
split; [exact history_NoDup|]. split; [exact metro_in_history|].
split; [discriminate|]. split; [discriminate|]. split; [reflexivity|].
destruct (untouched_edit_is_identity anyStep friday history metro history_NoDup
            metro_in_history ltac:(discriminate) ltac:(discriminate)) as [H1 H2].
split; [exact H1|]. apply H2. left. reflexivity.
Defined.

Lemma getFormattedDate_parses_witness :
isoYearRange friday
∧ getFormattedDate friday = "2024-03-15"
∧ matchesDatePattern (getFormattedDate friday) = true
∧ Date_parse (getFormattedDate friday) = Some 1710460800000.
Proof.
split; [exact friday_isoYearRange|]. split; [by vm_compute|].
destruct (getFormattedDate_parses friday friday_isoYearRange) as (H1 & H2 & _).
split; [exact H1|]. rewrite H2. reflexivity.
Defined.

Lemma getFormattedDateOfString_id_witness :
Date_parse "2024-02-29" = Some 1709164800000
∧ getFormattedDateOfString "2024-02-29" = Some "2024-02-29".
Proof.
assert (H : Date_parse "2024-02-29" = Some 1709164800000) by (by vm_compute).
split; [exact H|]. exact (getFormattedDateOfString_id "2024-02-29" 1709164800000 H).
Defined.

Lemma report_by_day_witness :
isoYearRange (fst (reportDates IST friday ThisWeek))
∧ isoYearRange (snd (reportDates IST friday ThisWeek))
∧ validDates history
∧ lunch ∈ reportExpenses IST friday ThisWeek history
∧ rent ∉ reportExpenses IST friday ThisWeek history.
Proof.
assert (H1 : isoYearRange (fst (reportDates IST friday ThisWeek)))
  by (unfold isoYearRange; split; [apply Z.leb_le | apply Z.ltb_lt]; by vm_compute).
assert (H2 : isoYearRange (snd (reportDates IST friday ThisWeek)))
  by (unfold isoYearRange; split; [apply Z.leb_le | apply Z.ltb_lt]; by vm_compute).
split; [exact H1|]. split; [exact H2|]. split; [exact history_validDates|].
pose proof (report_by_day IST friday ThisWeek history H1 H2 history_validDates) as H.
split.
- apply H. split; [unfold history; rewrite !elem_of_cons; tauto|].
  exists 1710460800000. split; [by vm_compute|].
  split; apply Z.leb_le; by vm_compute.
- intros Hin. apply H in Hin as (_ & t & Ht & Hlo & _).
  vm_compute in Ht. injection Ht as <-. apply Z.leb_le in Hlo.
  vm_compute in Hlo. discriminate Hlo.
Defined.

Lemma today_in_reports_witness :
0 <= friday ∧ isoYearRange friday ∧ -1440 <= IST <= 1440
∧ date lunch = getFormattedDate friday
∧ inRange (fst (reportRange IST friday ThisWeek)) (snd (reportRange IST friday ThisWeek))
    lunch = true
∧ inRange (fst (reportRange IST friday LastMonth)) (snd (reportRange IST friday LastMonth))
    lunch = false.
Proof.
assert (H0 : 0 <= friday) by (unfold friday; lia).
assert (Htz : -1440 <= IST <= 1440) by (unfold IST; lia).
assert (Hd : date lunch = getFormattedDate friday) by (by vm_compute).
split; [exact H0|]. split; [exact friday_isoYearRange|]. split; [exact Htz|].
split; [exact Hd|].
destruct (today_in_reports IST friday lunch H0 friday_isoYearRange Htz Hd)
  as (H1 & _ & _ & H4).
split; [exact H1 | exact H4].
Defined.

Lemma monthly_total_east_witness :
0 <= offsetAt IST 1710460800000 < 1440 ∧ getTime lunch = Some 1710460800000
∧ isoDate (Day 1710460800000) = "2024-03-15"
∧ inCurrentMonth IST friday lunch = true
∧ totalMonthlyExpenses IST friday history = 890%float.
Proof.
assert (Htz : 0 <= offsetAt IST 1710460800000 < 1440) by (cbn; unfold IST; lia).
assert (Ht : getTime lunch = Some 1710460800000) by (by vm_compute).
split; [exact Htz|]. split; [exact Ht|].
destruct (monthly_total_east IST friday lunch 1710460800000 Htz Ht) as (H1 & H2).
split; [rewrite H1; reflexivity|]. split; [|by vm_compute].
apply H2. split; by vm_compute.
Defined.

Lemma monthly_total_west_witness :
-1440 <= offsetAt EST 1709251200000 < 0 ∧ getTime shoes = Some 1709251200000
∧ getFullYear EST friday = 2024 ∧ getMonth EST friday = 2
∧ inCurrentMonth EST friday shoes = false
∧ totalMonthlyExpenses EST friday [shoes] = 0%float.
Proof.
assert (Htz : -1440 <= offsetAt EST 1709251200000 < 0) by (cbn; unfold EST; lia).
assert (Ht : getTime shoes = Some 1709251200000) by (by vm_compute).
split; [exact Htz|]. split; [exact Ht|].
split; [by vm_compute|]. split; [by vm_compute|]. split; [|by vm_compute].
destruct (monthly_total_west EST friday shoes 1709251200000 Htz Ht) as (_ & H).
apply H; by vm_compute.
Defined.

Lemma handleGenerateTips_settles_witness :
isSome_truthy (None : option string) = false
∧ ts_isTipsLoading (handleGenerateTips None offline showNumber IST friday history noTips)
  = false
∧ ts_tips (handleGenerateTips None offline showNumber IST friday history noTips)
  = Gemini.unavailableTips
∧ handleGenerateTips None (answers "Save more.") showNumber IST friday history noTips
  = handleGenerateTips None offline showNumber IST friday history noTips.
Proof.
split; [reflexivity|].
destruct (handleGenerateTips_settles None offline showNumber IST friday history noTips)
  as (H1 & _ & H3 & _ & H5).
split; [exact H1|]. split; [exact (H3 eq_refl)|].
exact (H5 (or_introl eq_refl) (answers "Save more.")).
Defined.

Lemma useLocalStorage_mount_witness :
themeStorage !! "theme" = Some (ThemeSample.stringify ThemeSample.Dark)
∧ ThemeSample.stringify ThemeSample.Dark ≠ ""
∧ ThemeSample.parse (ThemeSample.stringify ThemeSample.Dark) = Some ThemeSample.Dark
∧ LocalStorage.useLocalStorage ThemeSample.stringify ThemeSample.parse "theme"
    ThemeSample.Light themeStorage = ThemeSample.Dark
∧ LocalStorage.useLocalStorage ThemeSample.stringify ThemeSample.parse "theme"
    ThemeSample.Light ∅ = ThemeSample.Light.
Proof.
assert (H1 : themeStorage !! "theme" = Some (ThemeSample.stringify ThemeSample.Dark))
  by apply lookup_singleton_eq.
assert (H2 : ThemeSample.stringify ThemeSample.Dark ≠ "") by (by vm_compute).
assert (H3 : ThemeSample.parse (ThemeSample.stringify ThemeSample.Dark)
             = Some ThemeSample.Dark) by (by vm_compute).
split; [exact H1|]. split; [exact H2|]. split; [exact H3|]. split.
- destruct (useLocalStorage_mount ThemeSample.stringify ThemeSample.parse "theme"
              ThemeSample.Light themeStorage) as (_ & _ & _ & H).
  exact (H _ _ H1 H2 H3).
- destruct (useLocalStorage_mount ThemeSample.stringify ThemeSample.parse "theme"
              ThemeSample.Light ∅) as (_ & H & _).
  apply H. apply lookup_empty.
Defined.

Lemma setValue_then_mount_witness :
(∀ v, ThemeSample.parse (ThemeSample.stringify v) = Some v)
∧ (∀ v, ThemeSample.stringify v ≠ "")
∧ LocalStorage.useLocalStorage ThemeSample.stringify ThemeSample.parse "theme"
    ThemeSample.Light
    (snd (LocalStorage.setValue ThemeSample.stringify "theme" ThemeSample.Light
            (inr ThemeSample.toggleTheme) true ∅))
  = ThemeSample.Dark.
Proof.
assert (H1 : ∀ v, ThemeSample.parse (ThemeSample.stringify v) = Some v)
  by (intros []; by vm_compute).
assert (H2 : ∀ v, ThemeSample.stringify v ≠ "") by (intros []; by vm_compute).
split; [exact H1|]. split; [exact H2|].
pose proof (setValue_then_mount ThemeSample.stringify ThemeSample.parse "theme"
              ThemeSample.Light ThemeSample.Light (inr ThemeSample.toggleTheme) ∅ H1 H2)
  as H.
unfold LocalStorage.setValue in H. destruct H as (_ & H & _). exact H.
Defined.

Lemma weekly_total_witness :
isoYearRange (friday - 6 * msPerDay) ∧ isoYearRange friday ∧ wholeAmounts history
∧ sumNumbers (map b_amount (weeklyTrendData IST friday history)) = 890%float.
Proof.
assert (H1 : isoYearRange (friday - 6 * msPerDay))
  by (unfold isoYearRange, friday, msPerDay; lia).
split; [exact H1|]. split; [exact friday_isoYearRange|]. split; [exact history_whole|].
rewrite (weekly_total IST friday history H1 friday_isoYearRange history_whole).
by vm_compute.
Defined.

Lemma share_total_consistent_witness :
wholeAmounts history
∧ totalAmount (filteredView history (Only Food) "" Latest) = 850%float
∧ sumNumbers (map value (pieChartData (filteredView history (Only Food) "" Latest)))
  = 850%float
∧ totalAmount (filteredView history (Only Food) "" Amount) = 850%float
∧ totalAmount (filteredView history All "" Latest) = totalAmount history.
Proof.
split; [exact history_whole|].
destruct (share_total_consistent history (Only Food) "" Latest Amount history_whole)
  as (H1 & H2 & _).
destruct (share_total_consistent history All "" Latest Amount history_whole)
  as (_ & _ & H3).
split; [by vm_compute|]. split; [rewrite <- H1; by vm_compute|].
split; [rewrite <- H2; by vm_compute | exact H3].
Defined.

Lemma filteredView_idempotent_witness :
validDates history ∧ finiteAmounts history
∧ filteredView history (Only Food) "" Latest = [lunch; dinner]
∧ filteredView (filteredView history (Only Food) "" Latest) (Only Food) "" Latest
  = [lunch; dinner]
∧ filteredView (filteredView history All "" Amount) All "" Amount
  = [dinner; rent; lunch; metro].
Proof.
split; [exact history_validDates|]. split; [exact history_finite|].
split; [by vm_compute|]. split.
- rewrite (filteredView_idempotent history (Only Food) "" Latest
             (λ _, history_validDates) (λ _, history_finite)).
  by vm_compute.
- rewrite (filteredView_idempotent history All "" Amount
             (λ _, history_validDates) (λ _, history_finite)).
  by vm_compute.
Defined.

Lemma view_follows_changes_witness :
isSome_truthy (p_id newCoffee) = false
∧ (∃ e l, handleSaveExpense friday newCoffee history = Some l
          ∧ e ∈ filteredView l (Only (category e)) (date e) Latest
          ∧ id e = toISOString friday)
∧ "b" ∉ map id (filteredView (handleDeleteExpense true "b" history) (Only Transport) ""
                  Latest).
Proof.
split; [reflexivity|].
destruct (view_follows_changes friday newCoffee history Latest) as (H1 & H2).
split.
- destruct (H1 eq_refl) as (e & l & Hl & _ & Hin & Hid).
  exists e, l. split; [exact Hl|]. split; [exact Hin | exact Hid].
- apply H2.
Defined.


Example weekly_labels_scenario :
map b_name (weeklyTrendData IST friday history)
= ["Sat"; "Sun"; "Mon"; "Tue"; "Wed"; "Thu"; "Fri"].
Proof. by vm_compute. Qed.

Example pie_colours_scenario :
pieCells (pieChartData history) = ["#3b82f6"; "#8b5cf6"; "#ec4899"].
Proof. by vm_compute. Qed.

(** In New York on the evening of the Sunday the clocks went forward,
    the report for last week ends on that Sunday and holds the expenses
    of the day. *)
Example last_week_spring_forward :
getFormattedDate 1710113400000 = "2024-03-10"
∧ reportRange NewYork2024 1710113400000 LastWeek = ("2024-03-04", "2024-03-10")
∧ inRange "2024-03-04" "2024-03-10" subway = true.
Proof. by vm_compute. Qed.

Example onloadend_scenario :
onloadend (Gemini.extractExpenseFromImage None offline parser friday "image/png" ""
             CATEGORIES) (mkModalState None false true [])
= mkModalState None false false [Gemini.unavailableError].
Proof. by vm_compute. Qed.

End MoreScenarios.
